(** * Table rental timing and lamp synchronisation

    A shallow embedding of the rental/lamp core of the point-of-sale
    application: the table number resolver, the lamp controller client, the
    checkout handlers that start or extend a rental, the manual stop, the
    auto-expiry monitor and the move coordinator.

    Conventions of the embedding.
    - JavaScript numbers that hold timestamps (milliseconds), minutes, prices
      and list positions are integers [Z]: the model covers whole numbers up
      to 2^53, which the doubles of the code hold exactly.  A price that is
      not whole, and a numeral above 2^53, are outside it; statements about
      sums and conversions say so in their bounds.
    - A Firestore document is schemaless: every field of a stored table may
      be missing, whatever the TypeScript interface says, so every field of
      [TableData] is an [option].
    - The hosted store is the document store the handlers are written
      against: point reads, field-level merge writes, field deletion.  A write
      fails only for a reason visible in the data (update of a document that
      does not exist, an [undefined] field value); transport and permission
      failures are outside the model.
    - A transaction is an atomic block of reads and writes of that store:
      its writes are committed together, or not at all when the block throws.
      All its reads come before its writes: a read after a write throws, as
      the client library does.
    - Asynchronous steps run in program order.
    - Of a cart item only what the rental code reads is kept; writes to the
      products, ingredients and transactions collections are left out. *)

From Stdlib Require Import ZArith QArith Ascii String List Bool Lia.
From stdpp Require Import base option gmap strings list pretty.

Local Open Scope string_scope.
Local Open Scope Z_scope.

(** ** Data model (types.ts) *)

Inductive Status := available | occupied.

#[global] Instance Status_eq_dec : EqDecision Status.
Proof. solve_decision. Defined.

(** Fields of a table document; [id] is the document key. *)
Record TableData := mkTableData {
  name : option string;
  status : option Status;
  startTime : option Z;
  duration : option Z;
  endTime : option Z;
  remoteUrl : option string;
  remoteOn : option string;
  remoteOff : option string;
  remoteToggle : option string;
  costPerHour : option Z;
  currentCustomer : option string
}.

(** A row of the local listing: [{ id: d.id, ...d.data() } as Table].  The
    coercion lets a row be read field by field, [status t], as the code
    does. *)
Record Table := mkTable { id : string; data :> TableData }.

Inductive ItemType := product_item | table_item.

Record CartItem := mkCartItem {
  itemType : ItemType;
  productId : option string;
  tableId : option string;
  price : Z;
  quantity : Z;
  itemDuration : option Z;  (* CartItem.duration, minutes *)
  isRecipe : option bool
}.

(** ** JavaScript truthiness and [||] *)

Definition truthyZ (v : option Z) : bool :=
  match v with Some n => negb (n =? 0) | None => false end.

Definition truthyS (v : option string) : bool :=
  match v with Some s => negb (String.eqb s "") | None => false end.

Definition truthyB (v : option bool) : bool :=
  match v with Some b => b | None => false end.

(** [v || d] on numbers. *)
Definition orZ (v : option Z) (d : Z) : Z :=
  match v with Some n => if n =? 0 then d else n | None => d end.

(** [v || d] on strings. *)
Definition orS (v : option string) (d : string) : string :=
  match v with Some s => if String.eqb s "" then d else s | None => d end.

(** [Math.ceil(a / b)] for a positive integer [b]. *)
Definition ceilDiv (a b : Z) : Z := - ((- a) / b).

(** ** Table number resolver *)

Module Resolver.

(** [\d] matches the ASCII digits only. *)
Definition isDigit (c : ascii) : bool :=
  let n := nat_of_ascii c in (48 <=? n)%nat && (n <=? 57)%nat.

Definition digitValue (c : ascii) : Z := Z.of_nat (nat_of_ascii c) - 48.

(** Greedy [\d+] from the current position: the digits taken. *)
Fixpoint takeDigits (s : string) : string :=
  match s with
  | String c r => if isDigit c then String c (takeDigits r) else EmptyString
  | EmptyString => EmptyString
  end.

(** [tableName.match(/(\d+)/)]: the search tries each start position from
    the left; where a digit stands the group takes the whole run.  The
    result is [m[1]], or [None] for a [null] match. *)
Fixpoint matchDigits (s : string) : option string :=
  match s with
  | String c r => if isDigit c then Some (takeDigits s) else matchDigits r
  | EmptyString => None
  end.

(** [Number(m[1])] on a string of decimal digits: the integer the digits
    denote.  A JavaScript number holds every integer up to 2^53 exactly;
    above that [Number] rounds, and the value below is the number read only
    for runs that denote at most 2^53.  The results on the resolver that
    name the value of a run are stated for such runs. *)
Fixpoint numberFrom (acc : Z) (ds : string) : Z :=
  match ds with
  | String c r => numberFrom (acc * 10 + digitValue c) r
  | EmptyString => acc
  end.

Definition Number (ds : string) : Z := numberFrom 0 ds.

Definition deriveTableNumber (tableName : option string) (index : Z) : Z :=
  match tableName with
  | None => index + 1
  | Some s =>
      if String.eqb s "" then index + 1      (* !tableName *)
      else match matchDigits s with
           | Some m1 => Number m1
           | None => index + 1
           end
  end.

(** *** The resolver in the words of its contract

    "The first maximal run of decimal digits" of a name, described by a
    decomposition [pre +:+ run +:+ post] of the name. *)

Fixpoint noDigit (s : string) : bool :=
  match s with
  | String c r => negb (isDigit c) && noDigit r
  | EmptyString => true
  end.

Fixpoint allDigits (s : string) : bool :=
  match s with
  | String c r => isDigit c && allDigits r
  | EmptyString => true
  end.

Definition startsWithDigit (s : string) : bool :=
  match s with
  | String c _ => isDigit c
  | EmptyString => false
  end.


(** [run] is the first maximal run of decimal digits of [s]. *)
Definition firstDigitRun (s run : string) : Prop :=
  exists pre post,
    s = pre +:+ run +:+ post /\ noDigit pre = true /\
    run <> "" /\ allDigits run = true /\ startsWithDigit post = false.

End Resolver.

Import Resolver.

(** ** The world the handlers run in *)

Inductive LampAction := on | off | toggle.

(** A request to the lamp controller, by its query parameters
    [?num=..&action=..[&duration=..]]. *)
Record LampCommand := mkLampCommand {
  channel : Z;
  action : LampAction;
  autoOffSeconds : option Z
}.

Inductive JsError :=
| ReferenceError (ident : string)    (* "<ident> is not defined" *)
| TypeError (msg : string)           (* a property read on [undefined] *)
| NotFound (docId : string)          (* update of a missing document *)
| InvalidData (field : string)       (* [undefined] as a field value *)
| ReadAfterWrite.                    (* a transaction read after a write *)

(** [e.message] and [String(e)].  The texts are the engine's and the SDK's
    own; they are given as far as the kind of the error fixes them.  The
    handlers put their own prefix before them, and the results below speak
    of that prefix only. *)
Definition message (e : JsError) : string :=
  match e with
  | ReferenceError ident => ident +:+ " is not defined"
  | TypeError msg => msg
  | NotFound docId => "No document to update: " +:+ docId
  | InvalidData field =>
      "Unsupported field value: undefined (found in field " +:+ field +:+ ")"
  | ReadAfterWrite =>
      "Firestore transactions require all reads to be executed before all writes."
  end.

Definition errorName (e : JsError) : string :=
  match e with
  | ReferenceError _ => "ReferenceError"
  | TypeError _ => "TypeError"
  | NotFound _ | InvalidData _ | ReadAfterWrite => "FirebaseError"
  end.

Definition toString (e : JsError) : string :=
  errorName e +:+ ": " +:+ message e.

Inductive LogEntry :=
| console_warn (msg : string) (e : JsError)
| console_error (e : JsError).

Record World := mkWorld {
  db : gmap string TableData;   (* the collection stores/{storeId}/tables *)
  clock : nat -> Z;             (* successive readings of Date.now() *)
  reads : nat;                  (* readings taken so far *)
  lamp : list LampCommand;      (* requests sent, oldest first *)
  console : list LogEntry;
  alerts : list string;
  loading : bool;               (* the component's [loading] state *)
  closed : bool                 (* [onClose] / [onSuccess] was called *)
}.

Definition setDb (m : gmap string TableData) (w : World) : World :=
  mkWorld m (clock w) (reads w) (lamp w) (console w) (alerts w) (loading w) (closed w).

(** *** Exceptions and state *)

Inductive Outcome (A : Type) :=
| Ok (a : A)
| Throw (e : JsError).
Arguments Ok {A} a.
Arguments Throw {A} e.

Definition M (A : Type) : Type := World -> Outcome A * World.

Definition ret {A} (a : A) : M A := fun w => (Ok a, w).

Definition bind {A B} (m : M A) (k : A -> M B) : M B :=
  fun w => match m w with
           | (Ok a, w') => k a w'
           | (Throw e, w') => (Throw e, w')
           end.

Notation "x <- c1 ;; c2" := (bind c1 (fun x => c2))
  (at level 100, c1 at next level, right associativity).
Notation "c1 ;; c2" := (bind c1 (fun _ => c2))
  (at level 100, right associativity).

Definition throw {A} (e : JsError) : M A := fun w => (Throw e, w).

(** [try { m } catch (e) { h e }] *)
Definition tryCatch {A} (m : M A) (h : JsError -> M A) : M A :=
  fun w => match m w with
           | (Ok a, w') => (Ok a, w')
           | (Throw e, w') => h e w'
           end.

(** [try { m } finally { f }] *)
Definition finally {A} (m : M A) (f : M unit) : M A :=
  fun w => match m w with
           | (r, w') => match f w' with
                        | (Ok _, w'') => (r, w'')
                        | (Throw e, w'') => (Throw e, w'')
                        end
           end.

Fixpoint forEach {A} (f : A -> M unit) (l : list A) : M unit :=
  match l with
  | [] => ret tt
  | x :: r => f x ;; forEach f r
  end.

(** The world after running [m]. *)
Definition exec {A} (m : M A) (w : World) : World := snd (m w).
Definition result {A} (m : M A) (w : World) : Outcome A := fst (m w).

(** *** Primitive effects *)

Definition Date_now : M Z :=
  fun w => (Ok (clock w (reads w)),
            mkWorld (db w) (clock w) (S (reads w)) (lamp w) (console w)
                    (alerts w) (loading w) (closed w)).

Definition warn (msg : string) (e : JsError) : M unit :=
  fun w => (Ok tt, mkWorld (db w) (clock w) (reads w) (lamp w)
                           (console w ++ [console_warn msg e])%list
                           (alerts w) (loading w) (closed w)).

Definition error (e : JsError) : M unit :=
  fun w => (Ok tt, mkWorld (db w) (clock w) (reads w) (lamp w)
                           (console w ++ [console_error e])%list
                           (alerts w) (loading w) (closed w)).

Definition alert (msg : string) : M unit :=
  fun w => (Ok tt, mkWorld (db w) (clock w) (reads w) (lamp w) (console w)
                           (alerts w ++ [msg])%list (loading w) (closed w)).

Definition getLoading : M bool := fun w => (Ok (loading w), w).

Definition setLoading (b : bool) : M unit :=
  fun w => (Ok tt, mkWorld (db w) (clock w) (reads w) (lamp w) (console w)
                           (alerts w) b (closed w)).

Definition onClose : M unit :=
  fun w => (Ok tt, mkWorld (db w) (clock w) (reads w) (lamp w) (console w)
                           (alerts w) (loading w) true).

(** ** Table state store adapter *)

(** What a write says about one field: absent from the written object, a
    value, or [deleteField()]. *)
Inductive FieldWrite (A : Type) :=
| Keep
| SetTo (a : A)
| DeleteField.
Arguments Keep {A}.
Arguments SetTo {A} a.
Arguments DeleteField {A}.

(** The fields the rental handlers write. *)
Record Patch := mkPatch {
  w_status : FieldWrite Status;
  w_startTime : FieldWrite Z;
  w_endTime : FieldWrite Z;
  w_duration : FieldWrite Z;
  w_currentCustomer : FieldWrite string
}.

Definition writeField {A} (wr : FieldWrite A) (old : option A) : option A :=
  match wr with
  | Keep => old
  | SetTo a => Some a
  | DeleteField => None
  end.

(** Field-level merge: fields the patch does not name are left untouched. *)
Definition applyPatch (p : Patch) (d : TableData) : TableData :=
  {| name := name d;
     status := writeField (w_status p) (status d);
     startTime := writeField (w_startTime p) (startTime d);
     duration := writeField (w_duration p) (duration d);
     endTime := writeField (w_endTime p) (endTime d);
     remoteUrl := remoteUrl d;
     remoteOn := remoteOn d;
     remoteOff := remoteOff d;
     remoteToggle := remoteToggle d;
     costPerHour := costPerHour d;
     currentCustomer := writeField (w_currentCustomer p) (currentCustomer d) |}.

Definition emptyDoc : TableData :=
  mkTableData None None None None None None None None None None None.

(** [updateDoc(ref, p)] / [transaction.update(ref, p)]: the document must
    exist. *)
Definition updateDoc (docId : string) (p : Patch) : M unit :=
  fun w => match db w !! docId with
           | Some d => (Ok tt, setDb (<[docId := applyPatch p d]> (db w)) w)
           | None => (Throw (NotFound docId), w)
           end.

(** [setDoc(ref, p, { merge: true })]: creates the document when missing. *)
Definition setDocMerge (docId : string) (p : Patch) : M unit :=
  fun w => (Ok tt,
            setDb (<[docId := applyPatch p (default emptyDoc (db w !! docId))]> (db w)) w).

(** [getDoc(ref)]; [None] when [!snap.exists()]. *)
Definition getDoc (docId : string) : M (option TableData) :=
  fun w => (Ok (db w !! docId), w).

(** A field value handed to a write must not be [undefined]. *)
Definition defined {A} (field : string) (v : option A) : M A :=
  match v with
  | Some a => ret a
  | None => throw (InvalidData field)
  end.

(** *** Transactions

    The body of [runTransaction(db, async (transaction) => ...)] runs with
    the transaction's buffer of writes.  The SDK refuses a read once a write
    has been buffered: [transaction.get] then throws "Firestore
    transactions require all reads to be executed before all writes."  So
    the body carries a flag, whether a write has been buffered. *)
Definition T (A : Type) : Type := bool -> M (A * bool).

Definition tret {A} (a : A) : T A := fun wrote => ret (a, wrote).

Definition tbind {A B} (m : T A) (k : A -> T B) : T B :=
  fun wrote => r <- m wrote ;; k (fst r) (snd r).

Notation "x <-- c1 ;;; c2" := (tbind c1 (fun x => c2))
  (at level 100, c1 at next level, right associativity).
Notation "c1 ;;; c2" := (tbind c1 (fun _ => c2))
  (at level 100, right associativity).

(** A step of the body that does not use the transaction. *)
Definition lift {A} (m : M A) : T A :=
  fun wrote => a <- m ;; ret (a, wrote).

Fixpoint forEachT {A} (f : A -> T unit) (l : list A) : T unit :=
  match l with
  | [] => tret tt
  | x :: r => f x ;;; forEachT f r
  end.

(** [transaction.get(ref)] on a table; [None] when [!snap.exists()]. *)
Definition transaction_get (docId : string) : T (option TableData) :=
  fun wrote =>
    if wrote then throw ReadAfterWrite
    else (d <- getDoc docId ;; ret (d, wrote)).

(** [transaction.update(ref, p)] on a table. *)
Definition transaction_update (docId : string) (p : Patch) : T unit :=
  fun _ => updateDoc docId p ;; ret (tt, true).

(** [transaction.get(ref)] on a document of a collection that the world
    leaves out; [snap] is what the collection holds for it. *)
Definition transaction_get_outside {A} (snap : option A) : T (option A) :=
  fun wrote => if wrote then throw ReadAfterWrite else ret (snap, wrote).

(** [transaction.set(ref, data)] or [transaction.update(ref, data)] on such
    a document: the write is buffered, and left out of the world. *)
Definition transaction_write_outside : T unit :=
  fun _ => ret (tt, true).

(** [runTransaction(db, body)]: the body starts with an empty buffer; its
    writes are committed together, or not at all when it throws. *)
Definition runTransaction {A} (body : T A) : M A :=
  fun w => match body false w with
           | (Ok (a, _), w') => (Ok a, w')
           | (Throw e, w') => (Throw e, setDb (db w) w')
           end.

(** A promise that has settled: [None] fulfilled, [Some e] rejected. *)
Definition settle (m : M unit) : M (option JsError) :=
  tryCatch (m ;; ret None) (fun e => ret (Some e)).

(** [await Promise.all(ps)]: throws the first rejection. *)
Fixpoint Promise_all (ps : list (option JsError)) : M unit :=
  match ps with
  | [] => ret tt
  | Some e :: _ => throw e
  | None :: r => Promise_all r
  end.

(** ** Lamp controller client *)

(** [TABLE_LAMP_URL]: the duration parameter is added only for
    [durationSec && durationSec > 0]. *)
Definition TABLE_LAMP_URL (num : Z) (act : LampAction) (durationSec : option Z)
  : LampCommand :=
  {| channel := num;
     action := act;
     autoOffSeconds := match durationSec with
                       | Some d => if 0 <? d then Some d else None
                       | None => None
                       end |}.

(** [controlLamp]: sends the request; every failure of the request is caught
    inside and returned as a value, so the call never throws. *)
Definition controlLamp (num : Z) (act : LampAction) (durationSec : option Z)
  : M unit :=
  fun w => (Ok tt, mkWorld (db w) (clock w) (reads w)
                           ((lamp w ++ [TABLE_LAMP_URL num act durationSec])%list)
                           (console w) (alerts w) (loading w) (closed w)).

(** [endTime ? Math.max(0, Math.ceil((endTime - Date.now()) / 1000)) : undefined] *)
Definition remainingSeconds (e : option Z) : M (option Z) :=
  if truthyZ e then
    now <- Date_now ;;
    ret (Some (Z.max 0 (ceilDiv (orZ e 0 - now) 1000)))
  else ret None.

(** ** Listings *)

(** [tables.find(t => t.id === tid)] *)
Definition findTable (tid : string) (tables : list Table) : option Table :=
  List.find (fun t => String.eqb (id t) tid) tables.

(** [tables.findIndex(t => t.id === tid)], [-1] when there is none. *)
Fixpoint findIndexFrom (i : Z) (tid : string) (tables : list Table) : Z :=
  match tables with
  | [] => -1
  | t :: r => if String.eqb (id t) tid then i else findIndexFrom (i + 1) tid r
  end.

Definition findIndex (tid : string) (tables : list Table) : Z :=
  findIndexFrom 0 tid tables.

(** [Array.from(new Set(xs))]: first occurrences, in order. *)
Fixpoint uniqueFrom (seen xs : list string) : list string :=
  match xs with
  | [] => []
  | x :: r => if existsb (String.eqb x) seen then uniqueFrom seen r
              else x :: uniqueFrom (x :: seen) r
  end.

(** A truthy [item.tableId]. *)
Definition truthyId (i : option string) : option string :=
  match i with
  | Some s => if String.eqb s "" then None else Some s
  | None => None
  end.

(** The patch both stop paths of the first screen write: zeros and the empty
    string, through a merge. *)
Definition resetPatch : Patch :=
  {| w_status := SetTo available;
     w_startTime := SetTo 0;
     w_endTime := SetTo 0;
     w_duration := SetTo 0;
     w_currentCustomer := SetTo "" |}.

(** The patch of the auto-expiry monitor: the timing fields are deleted. *)
Definition expiryPatch : Patch :=
  {| w_status := SetTo available;
     w_startTime := DeleteField;
     w_endTime := DeleteField;
     w_duration := SetTo 0;
     w_currentCustomer := DeleteField |}.

(** ** Auto-expiry monitor (the interval effect, the same in both screens) *)

Definition expired (now : Z) (t : Table) : bool :=
  bool_decide (status t = Some occupied) && truthyZ (endTime t)
  && (orZ (endTime t) 0 <=? now).

Definition autoStop (now : Z) (t : Table) : M unit :=
  tryCatch
    (if expired now t then updateDoc (id t) expiryPatch else ret tt)
    (fun e => warn "Auto-stop table failed" e).

(** One tick of the interval. *)
Definition autoExpiryTick (tables : list Table) : M unit :=
  now <- Date_now ;;
  forEach (autoStop now) tables.

(** [v || m]: the right operand is evaluated only for a falsy [v]. *)
Definition orElseM (v : option Z) (m : M Z) : M Z :=
  match v with
  | Some n => if n =? 0 then m else ret n
  | None => m
  end.

(** ** Lexical scopes

    What an identifier is bound to where a handler is written.  Reading an
    identifier no enclosing scope binds throws a [ReferenceError]. *)

Inductive Binding :=
| BString (s : string)
| BTable (t : Table)
| BTables (ts : list Table)
| BOther.

Definition Scope : Type := list (string * Binding).

Definition lookupIdent (x : string) (sc : Scope) : option Binding :=
  snd <$> List.find (fun b => String.eqb (fst b) x) sc.

(** The value of the identifier [tables] in scope [sc]. *)
Definition readTables (sc : Scope) : M (list Table) :=
  match lookupIdent "tables" sc with
  | Some (BTables ts) => ret ts
  | Some _ => throw (TypeError "tables.findIndex is not a function")
  | None => throw (ReferenceError "tables")
  end.

(** ** The first screen (source part_000) *)

Module Part000.

(** Top-level bindings of the file: its value imports and its top-level
    [const], [function] and [class] declarations. *)
Definition moduleNames : list string :=
  [ "React"; "useState"; "useEffect"; "useMemo";
    "LayoutDashboard"; "Coffee"; "Target"; "Settings"; "Users"; "LogOut";
    "Plus"; "Minus"; "Trash2"; "Save"; "Search"; "History";
    "AlertTriangle"; "PlayCircle"; "StopCircle"; "ExternalLink"; "Edit";
    "XCircle"; "Package"; "ChefHat"; "Receipt"; "FileText"; "Clock";
    "BellRing"; "ClipboardCheck"; "ShoppingCart"; "ArrowRightLeft";
    "Power"; "Wrench"; "Printer"; "UserCircle"; "Send"; "UserPlus";
    "Store"; "Wifi"; "Instagram"; "Phone"; "Upload"; "Menu"; "X";
    "db"; "initializeStore";
    "collection"; "query"; "where"; "onSnapshot"; "addDoc"; "updateDoc";
    "setDoc"; "doc"; "deleteDoc"; "orderBy"; "getDoc"; "runTransaction";
    "deleteField";
    "BarChart"; "Bar"; "XAxis"; "YAxis"; "CartesianGrid"; "Tooltip";
    "ResponsiveContainer"; "LineChart"; "Line";
    "BluetoothPrinter";
    "LAMP_BASE_URL"; "TABLE_LAMP_URL"; "controlLamp"; "controlLampForTable";
    "deriveTableNumber"; "STORE_KEY"; "SHIFT_KEY"; "Modal"; "ErrorBoundary";
    "App"; "SidebarItem"; "MobileNavItem"; "ShiftManagementModal";
    "DashboardScreen"; "BilliardScreen"; "TableCard"; "StopTableModal";
    "TableDurationModal"; "MoveTableModal"; "TableManagementModal";
    "CafeScreen"; "ProductCard"; "InventoryScreen"; "AuditTable";
    "AuditRow"; "AddProductModal"; "TransactionHistoryScreen";
    "SettingsScreen"; "CheckoutModal" ].

Definition moduleScope : Scope := map (fun x => (x, BOther)) moduleNames.

(** *** StopTableModal

    [({ storeId, table, onClose }) => { const [loading, setLoading] = ...;
    const handleConfirmStop = async () => { ... } }] *)

Definition StopTableModal_scope (storeId : string) (table : Table) : Scope :=
  ([ ("tableRef", BOther);
     ("loading", BOther); ("setLoading", BOther);
     ("handleConfirmStop", BOther);
     ("storeId", BString storeId); ("table", BTable table);
     ("onClose", BOther) ] ++ moduleScope)%list.

Definition handleConfirmStop (storeId : string) (table : Table) : M unit :=
  setLoading true ;;
  finally
    (tryCatch
       (setDocMerge (id table) resetPatch ;;
        (* Toggle lamp off for this table (best-effort) *)
        tryCatch
          (tables <- readTables (StopTableModal_scope storeId table) ;;
           let idx := findIndex (id table) tables in
           let num := deriveTableNumber (name table)
                        (if 0 <=? idx then idx else 0) in
           controlLamp num off None)
          (fun e => warn "Failed to control lamp on stop" e) ;;
        onClose)
       (fun e => error e ;; alert ("Gagal mematikan meja: " +:+ message e)))
    (setLoading false).

(** *** MoveTableModal *)

Definition availableTables (tables : list Table) : list Table :=
  List.filter (fun t : Table => bool_decide (status t = Some available)) tables.

Definition moveData (s e : Z) (fromTable : Table) : Patch :=
  {| w_status := SetTo occupied;
     w_startTime := SetTo s;
     w_endTime := SetTo e;
     w_duration := SetTo (orZ (duration fromTable) 60);
     w_currentCustomer := SetTo (orS (currentCustomer fromTable) "Pelanggan") |}.

Definition handleMove (fromTable : Table) (tables : list Table)
    (toTableId : string) : M unit :=
  ld <- getLoading ;;
  if String.eqb toTableId "" || ld then ret tt
  else
    setLoading true ;;
    finally
      (tryCatch
         (s <- orElseM (startTime fromTable) Date_now ;;
          e <- orElseM (endTime fromTable)
                 (now <- Date_now ;; ret (now + 3600000)) ;;
          (* 1. destination *)
          setDocMerge toTableId (moveData s e fromTable) ;;
          (* 2. origin *)
          setDocMerge (id fromTable) resetPatch ;;
          tryCatch
            (let fromIdx := findIndex (id fromTable) tables in
             let toIdx := findIndex toTableId tables in
             let fromNum := deriveTableNumber (name fromTable)
                              (if 0 <=? fromIdx then fromIdx else 0) in
             let toName := findTable toTableId tables ≫= (fun t : Table => name t) in
             let toNum := deriveTableNumber toName
                            (if 0 <=? toIdx then toIdx else 0) in
             controlLamp fromNum off None ;;
             dur <- remainingSeconds (Some e) ;;
             controlLamp toNum on dur)
            (fun err => warn "Lamp control during move failed" err) ;;
          onClose)
         (fun err => error err ;;
                     alert ("Gagal memindahkan meja: " +:+ message err)))
      (setLoading false).

(** *** CheckoutModal *)

(** The object written for a table item: a top-up when the listed table is
    occupied, a start otherwise. *)
Definition newData (tbl : Table) (item : CartItem) (customerName : string)
  : M Patch :=
  let isTopup := bool_decide (status tbl = Some occupied) in
  let durationMs := orZ (itemDuration item) 60 * 60 * 1000 in
  if isTopup then
    e <- orElseM (endTime tbl) Date_now ;;
    ret {| w_status := Keep;
           w_startTime := Keep;
           w_endTime := SetTo (e + durationMs);
           w_duration := SetTo (orZ (duration tbl) 0 + orZ (itemDuration item) 0);
           w_currentCustomer := Keep |}
  else
    s <- Date_now ;;
    e <- Date_now ;;
    ret {| w_status := SetTo occupied;
           w_startTime := SetTo s;
           w_endTime := SetTo (e + durationMs);
           w_duration := SetTo (orZ (itemDuration item) 60);
           w_currentCustomer := SetTo customerName |}.

(** One turn of [for (const item of cart)]: the promises it pushes.
    A product item pushes the promises of its stock updates; they go to the
    products and ingredients collections, which are not part of the world
    (module [Stock] below gives the stocks they write), and are taken to be
    fulfilled. *)
Definition processItem (tables : list Table) (customerName : string)
    (item : CartItem) : M (list (option JsError)) :=
  match itemType item, truthyId (tableId item) with
  | table_item, Some tid =>
      match findTable tid tables with
      | Some tbl =>
          p <- newData tbl item customerName ;;
          r <- settle (updateDoc tid p) ;;
          ret [r]
      | None => ret []
      end
  | _, _ => ret []
  end.

Fixpoint processCart (tables : list Table) (customerName : string)
    (cart : list CartItem) : M (list (option JsError)) :=
  match cart with
  | [] => ret []
  | item :: rest =>
      rs <- processItem tables customerName item ;;
      rs' <- processCart tables customerName rest ;;
      ret (rs ++ rs')%list
  end.

Definition cartTableIds (cart : list CartItem) : list string :=
  uniqueFrom []
    (omap (fun i => match itemType i with
                    | table_item => truthyId (tableId i)
                    | product_item => None
                    end) cart).

(** The lamp command for one table after the writes. *)
Definition commandLamp (tables : list Table) (tid : string) : M unit :=
  tryCatch
    (tableDoc <- getDoc tid ;;
     match tableDoc with
     | None => ret tt
     | Some tdata =>
         if bool_decide (status tdata = Some occupied) then
           let num := deriveTableNumber (name tdata) (findIndex tid tables) in
           dur <- remainingSeconds (endTime tdata) ;;
           controlLamp num on dur
         else ret tt
     end)
    (fun e => warn "Failed to command lamp for table" e).

Inductive TransactionType := sale | rental | mixed.

Definition isTable (i : CartItem) : bool :=
  match itemType i with table_item => true | product_item => false end.

Definition isProduct (i : CartItem) : bool :=
  match itemType i with product_item => true | table_item => false end.

(** The type of the transaction record: 'mixed' for a cart with table and
    product items, otherwise read off [cart[0].itemType], which throws on an
    empty cart. *)
Definition recordType (cart : list CartItem) : M TransactionType :=
  if existsb isTable cart && existsb isProduct cart then ret mixed
  else match cart with
       | [] => throw (TypeError "cart[0] is undefined")
       | item :: _ => ret (if isTable item then rental else sale)
       end.

Definition handleProcessPayment (cart : list CartItem) (tables : list Table)
    (customerName : string) : M unit :=
  ld <- getLoading ;;
  if ld then ret tt
  else
    setLoading true ;;
    finally
      (tryCatch
         (Date_now ;;                      (* date of the transaction record *)
          recordType cart ;;
          batchPromises <- processCart tables customerName cart ;;
          Promise_all batchPromises ;;
          tryCatch
            (forEach (commandLamp tables) (cartTableIds cart))
            (fun e => error e) ;;
          alert "Pembayaran Berhasil!" ;;  (* and the change due, left out *)
          onClose)                         (* onSuccess *)
         (fun e => error e ;;
                   alert ("Gagal memproses pembayaran: " +:+ message e)))
      (setLoading false).

End Part000.

(** ** The second screen (source part_001) *)

Module Part001.

Inductive PaymentMethod := cash | qris.

(** One turn of the loop inside the transaction.  [products] is the
    collection stores/{storeId}/products as the transaction finds it, each
    document by its [stock] field; the update of a stock is buffered and
    left out of the world. *)
Definition checkoutItem (products : gmap string (option Z))
    (customerName : string) (item : CartItem) : T unit :=
  match itemType item with
  | product_item =>
      match truthyId (productId item) with
      | Some pid =>
          if truthyB (isRecipe item) then tret tt
          else
            prodSnap <-- transaction_get_outside (products !! pid) ;;;
            match prodSnap with
            | Some _ => transaction_write_outside   (* { stock: ... } *)
            | None => tret tt
            end
      | None => tret tt
      end
  | table_item =>
      match truthyId (tableId item), itemDuration item with
      | Some tid, Some dur =>
          if dur =? 0 then tret tt
          else
            tableSnap <-- transaction_get tid ;;;
            match tableSnap with
            | None => tret tt
            | Some tData =>
                now <-- lift Date_now ;;;
                let newEndTime :=
                  if bool_decide (status tData = Some occupied)
                     && truthyZ (endTime tData)
                  then orZ (endTime tData) 0 + dur * 60 * 1000   (* Topup *)
                  else now + dur * 60 * 1000 in
                st <-- lift (if bool_decide (status tData = Some available)
                             then ret now
                             else defined "startTime" (startTime tData)) ;;;
                transaction_update tid
                  {| w_status := SetTo occupied;
                     w_startTime := SetTo st;
                     w_endTime := SetTo newEndTime;
                     w_duration := SetTo (orZ (duration tData) 0 + dur);
                     w_currentCustomer := SetTo customerName |}
            end
      | _, _ => tret tt
      end
  end.

Definition cartTotal (cart : list CartItem) : Z :=
  fold_left (fun acc item => acc + price item * quantity item) cart 0.

(** [session] stands for [storeId && currentUser].  The body of the
    transaction first buffers the transaction record,
    [transaction.set(newTransRef, { date: Date.now(), ... })], and then
    goes through the cart. *)
Definition handleCheckout (session : bool) (products : gmap string (option Z))
    (cart : list CartItem) (customerName : string)
    (paymentMethod : PaymentMethod) (amountReceived : Z) : M unit :=
  if negb session then ret tt
  else
    let total := cartTotal cart in
    let change := amountReceived - total in
    if match paymentMethod with cash => change <? 0 | qris => false end
    then alert "Uang tunai kurang!"
    else
      setLoading true ;;
      finally
        (tryCatch
           (runTransaction
              (lift Date_now ;;;           (* date of the transaction record *)
               transaction_write_outside ;;;
               forEachT (checkoutItem products customerName) cart) ;;
            onClose ;;                     (* setIsCheckoutOpen(false) *)
            alert "Transaksi Berhasil!")
           (fun e => error e ;; alert ("Transaksi Gagal: " +:+ toString e)))
        (setLoading false).

End Part001.

(** ** Derived notions used to state the results *)

(** A row of the listing is stopped by the tick. *)
Definition stops (now : Z) (k : string) (t : Table) : bool :=
  String.eqb (id t) k && expired now t.

(** The channel numbers of the two lamp commands of a move. *)
Definition fromNum (fromTable : Table) (tables : list Table) : Z :=
  deriveTableNumber (name fromTable)
    (if 0 <=? findIndex (id fromTable) tables
     then findIndex (id fromTable) tables else 0).

Definition toNum (tables : list Table) (toTableId : string) : Z :=
  deriveTableNumber (findTable toTableId tables ≫= (fun t : Table => name t))
    (if 0 <=? findIndex toTableId tables
     then findIndex toTableId tables else 0).

(** The store after the two writes of a move. *)
Definition moved (s e : Z) (fromTable : Table) (toTableId : string)
    (m : gmap string TableData) : gmap string TableData :=
  let m1 := <[toTableId :=
               applyPatch (Part000.moveData s e fromTable)
                          (default emptyDoc (m !! toTableId))]> m in
  <[id fromTable :=
      applyPatch resetPatch (default emptyDoc (m1 !! id fromTable))]> m1.

(** A cart item asks for a rental of, or a top-up on, table [tid]. *)
Definition targets (tid : string) (item : CartItem) : bool :=
  match itemType item, truthyId (tableId item) with
  | table_item, Some k => String.eqb k tid
  | _, _ => false
  end.

(** What [Part000.newData] builds when every reading of the clock gives
    [now]. *)
Definition newDataAt (now : Z) (tbl : Table) (item : CartItem)
    (customerName : string) : Patch :=
  let durationMs := orZ (itemDuration item) 60 * 60 * 1000 in
  if bool_decide (status tbl = Some occupied) then
    {| w_status := Keep;
       w_startTime := Keep;
       w_endTime := SetTo (orZ (endTime tbl) now + durationMs);
       w_duration := SetTo (orZ (duration tbl) 0 + orZ (itemDuration item) 0);
       w_currentCustomer := Keep |}
  else
    {| w_status := SetTo occupied;
       w_startTime := SetTo now;
       w_endTime := SetTo (now + durationMs);
       w_duration := SetTo (orZ (itemDuration item) 60);
       w_currentCustomer := SetTo customerName |}.

(** Every stored table that is not 'available' has a start time. *)
Definition startKnown (m : gmap string TableData) : Prop :=
  forall k d, m !! k = Some d ->
    status d = Some available \/ is_Some (startTime d).

(** The payment of [Part001.handleCheckout] is accepted. *)
Definition paid (paymentMethod : Part001.PaymentMethod) (amountReceived : Z)
    (cart : list CartItem) : Prop :=
  match paymentMethod with
  | Part001.cash => Part001.cartTotal cart <= amountReceived
  | Part001.qris => True
  end.

(** The record of a rental of [minutes] minutes started at [now] for
    [customerName]. *)
Definition startedAt (now minutes : Z) (customerName : string)
    (r : TableData) : Prop :=
  status r = Some occupied /\
  startTime r = Some now /\
  endTime r = Some (now + minutes * 60000) /\
  duration r = Some minutes /\
  currentCustomer r = Some customerName.

(** What the first screen writes for a table the listing shows occupied
    with end time [e]. *)
Definition topupPatch000 (item : CartItem) (e : Z) (tbl : Table) : Patch :=
  {| w_status := Keep;
     w_startTime := Keep;
     w_endTime := SetTo (e + orZ (itemDuration item) 60 * 60 * 1000);
     w_duration := SetTo (orZ (duration tbl) 0 + orZ (itemDuration item) 0);
     w_currentCustomer := Keep |}.

(** A cart line at which [Part001.checkoutItem] reads the store: a product
    line that is not a recipe, or a table line with a duration. *)
Definition readsStore (item : CartItem) : bool :=
  match itemType item with
  | product_item =>
      match truthyId (productId item) with
      | Some _ => negb (truthyB (isRecipe item))
      | None => false
      end
  | table_item =>
      match truthyId (tableId item) with
      | Some _ => truthyZ (itemDuration item)
      | None => false
      end
  end.

(** ** Properties of a run, as the contract words them *)

(** A request that is rejected writes nothing to the store and sends no lamp
    command. *)
Definition rejected (m : M unit) (w : World) : Prop :=
  db (exec m w) = db w /\ lamp (exec m w) = lamp w.

(** The run has shown one more notice, which begins with [prefix]. *)
Definition alerted (prefix : string) (m : M unit) (w : World) : Prop :=
  exists rest, alerts (exec m w) = (alerts w ++ [prefix +:+ rest])%list.

(** A field that was deleted from the record, as opposed to set to zero. *)
Definition deleted {A} (v : option A) : Prop := v = None.

(** The listing shows the store as it is (a fresh snapshot). *)
Definition inSync (tables : list Table) (w : World) : Prop :=
  forall t, t ∈ tables -> db w !! id t = Some (data t).

(** The clock stands at [now] while the handler runs. *)
Definition clockAt (now : Z) (w : World) : Prop :=
  forall n, clock w n = now.

(** ** Concrete tables, used for examples *)

Module Sample.

Definition T0 : Z := 1700000000000.

(** A table as the management screen creates it. *)
Definition meja1 : TableData :=
  {| name := Some "Meja 1"; status := Some available;
     startTime := None; duration := None; endTime := None;
     remoteUrl := None;
     remoteOn := Some ""; remoteOff := Some ""; remoteToggle := Some "";
     costPerHour := Some 20000; currentCustomer := None |}.

(** A rental of 60 minutes started at [T0]. *)
Definition meja2 : TableData :=
  {| name := Some "Meja 2"; status := Some occupied;
     startTime := Some T0; duration := Some 60;
     endTime := Some (T0 + 3600000);
     remoteUrl := None;
     remoteOn := Some ""; remoteOff := Some ""; remoteToggle := Some "";
     costPerHour := Some 20000; currentCustomer := Some "Budi" |}.

Definition store0 : gmap string TableData :=
  <["t1" := meja1]> (<["t2" := meja2]> ∅).

Definition listing0 : list Table := [mkTable "t1" meja1; mkTable "t2" meja2].

(** A world whose clock stands at [now]. *)
Definition world (m : gmap string TableData) (now : Z) : World :=
  mkWorld m (fun _ => now) 0 [] [] [] false false.

(** Ten minutes into the rental of [meja2]. *)
Definition w0 : World := world store0 (T0 + 600000).

Definition rent (tid : string) (minutes : Z) : CartItem :=
  mkCartItem table_item None (Some tid) 10000 1 (Some minutes) None.

(** "Meja 1" rented to "Cici" for 60 minutes, five minutes after [T0]. *)
Definition meja1Rented : TableData :=
  {| name := Some "Meja 1"; status := Some occupied;
     startTime := Some (T0 + 300000); duration := Some 60;
     endTime := Some (T0 + 3900000);
     remoteUrl := None;
     remoteOn := Some ""; remoteOff := Some ""; remoteToggle := Some "";
     costPerHour := Some 20000; currentCustomer := Some "Cici" |}.

(** "Meja 2" after a top-up of 30 minutes. *)
Definition meja2Extended : TableData :=
  {| name := Some "Meja 2"; status := Some occupied;
     startTime := Some T0; duration := Some 90;
     endTime := Some (T0 + 5400000);
     remoteUrl := None;
     remoteOn := Some ""; remoteOff := Some ""; remoteToggle := Some "";
     costPerHour := Some 20000; currentCustomer := Some "Budi" |}.

End Sample.

(** * Further code of the two screens *)

(** ** The tables subscription (both screens)

    The [onSnapshot] handler of the tables collection compares the listing
    it is handed with the one it saw last ([prevTables]) and commands the
    lamps of the tables whose status changed. *)

Module Listener.

(** Turn the lamp on for the time the rental has left. *)
Definition lampOn (num : Z) (t : Table) : M unit :=
  dur <- remainingSeconds (endTime t) ;;
  controlLamp num on dur.

(** One turn of [for (let i = 0; i < latest.length; i++)]. *)
Definition diffRow (prevTables : list Table) (i : Z) (t : Table) : M unit :=
  let num := deriveTableNumber (name t) i in
  match findTable (id t) prevTables with
  | None =>
      if bool_decide (status t = Some occupied) then lampOn num t else ret tt
  | Some p =>
      if bool_decide (status p <> status t) then
        if bool_decide (status p <> Some occupied)
           && bool_decide (status t = Some occupied)
        then lampOn num t
        else if bool_decide (status p = Some occupied)
                && bool_decide (status t <> Some occupied)
        then controlLamp num off None
        else ret tt
      else ret tt
  end.

Fixpoint diffRows (prevTables : list Table) (i : Z) (latest : list Table)
  : M unit :=
  match latest with
  | [] => ret tt
  | t :: rest => diffRow prevTables i t ;; diffRows prevTables (i + 1) rest
  end.

(** The handler; its result is the new value of [prevTables] (and of the
    [tables] state). *)
Definition onTablesSnapshot (prevTables latest : list Table)
  : M (list Table) :=
  diffRows prevTables 0 latest ;;
  ret latest.

End Listener.

(** ** Lamp control by table (both screens) *)

Module LampForTable.

(** What [controlLampForTable] fetches: a URL configured on the table, or
    the numeric endpoint of [TABLE_LAMP_URL]. *)
Inductive LampRequest :=
| fetchUrl (url : string)
| fetchLamp (cmd : LampCommand).

(** [url.includes('?')] *)
Fixpoint includesChar (c : ascii) (s : string) : bool :=
  match s with
  | String d r => Ascii.eqb d c || includesChar c r
  | EmptyString => false
  end.

(** The URL configured for the action, when it is a non-empty string. *)
Definition explicitUrl (table : Table) (act : LampAction) : option string :=
  match act with
  | on => truthyId (remoteOn table)
  | off => truthyId (remoteOff table)
  | toggle => truthyId (remoteToggle table)
  end.

(** [url += (url.includes('?') ? '&' : '?') + `duration=${durationSec}`],
    for [durationSec && durationSec > 0]. *)
Definition withDuration (url : string) (durationSec : option Z) : string :=
  match durationSec with
  | Some d =>
      if 0 <? d
      then url +:+ (if includesChar "?" url then "&" else "?")
               +:+ "duration=" +:+ pretty d
      else url
  | None => url
  end.

Definition controlLampForTable (table : Table) (act : LampAction)
    (durationSec : option Z) : LampRequest :=
  match explicitUrl table act with
  | Some url => fetchUrl (withDuration url durationSec)
  | None =>
      let inferredNum := deriveTableNumber (name table) 0 in
      fetchLamp (TABLE_LAMP_URL inferredNum act durationSec)
  end.

(** The stop button of the second screen: [confirmed] is the answer to
    [confirm(...)].  The update is not guarded, so a failure leaves the
    handler before the lamp is commanded.  The request sent to the lamp is
    the result. *)
Definition stopTable (confirmed : bool) (table : Table)
  : M (option LampRequest) :=
  if confirmed then
    updateDoc (id table) expiryPatch ;;
    ret (Some (controlLampForTable table off None))
  else ret None.

(** Minutes left as the second screen shows them:
    [endTime ? Math.max(0, Math.ceil((endTime - Date.now()) / 60000)) : 0]. *)
Definition minutesLeft (table : Table) (now : Z) : Z :=
  if truthyZ (endTime table)
  then Z.max 0 (ceilDiv (orZ (endTime table) 0 - now) 60000)
  else 0.

End LampForTable.

(** ** The cart of table rentals (both screens) *)

Module Cart.

Section Price.

(** The price of a rental is the JavaScript number
    [(duration / 60) * table.costPerHour]; nothing below depends on how it
    is rounded. *)
Variable rentalPrice : Z -> option Z -> Z.

(** [cart] is the cart the handler was rendered with, [prev] the cart the
    state update is applied to.  The result is the new cart. *)
Definition addToCartTable (cart prev : list CartItem) (table : Table)
    (duration : Z) : M (list CartItem) :=
  match List.find (fun item => Part000.isTable item
                     && bool_decide (tableId item = Some (id table))) cart with
  | Some _ =>
      alert "Meja ini sudah ada di keranjang. Hapus dulu jika ingin mengubah durasi." ;;
      ret prev
  | None =>
      ret (prev ++ [mkCartItem table_item None (Some (id table))
                      (rentalPrice duration (costPerHour table)) 1
                      (Some duration) None])%list
  end.

End Price.

(** [l.filter((_, i) => keep(i))], the positions counted from [i]. *)
Fixpoint filterIndexFrom {A} (keep : nat -> bool) (i : nat) (l : list A)
  : list A :=
  match l with
  | [] => []
  | x :: rest =>
      if keep i then x :: filterIndexFrom keep (S i) rest
      else filterIndexFrom keep (S i) rest
  end.

(** [prev.filter((_, i) => i !== index)] *)
Definition removeFromCart (index : nat) (prev : list CartItem)
  : list CartItem :=
  filterIndexFrom (fun i => negb (Nat.eqb i index)) 0 prev.

End Cart.

(** ** The countdown of a table card (first screen) *)

Module TableCard.

(** [s.padStart(2, '0')] *)
Definition padStart2 (s : string) : string :=
  match String.length s with
  | O => "00"
  | S O => "0" +:+ s
  | _ => s
  end.

(** [Math.floor((diff / (1000 * 60 * 60)) % 24)] and its like, for a
    positive [diff] in milliseconds. *)
Definition hours (diff : Z) : Z := (diff / (1000 * 60 * 60)) mod 24.
Definition minutes (diff : Z) : Z := (diff / 1000 / 60) mod 60.
Definition seconds (diff : Z) : Z := (diff / 1000) mod 60.

(** The text the card shows at time [now], once its interval has fired. *)
Definition timeLeft (table : Table) (now : Z) : string :=
  if bool_decide (status table = Some available) || negb (truthyZ (endTime table))
  then "--:--"
  else
    let diff := orZ (endTime table) 0 - now in
    if diff <=? 0 then "00:00"
    else padStart2 (pretty (hours diff)) +:+ ":"
         +:+ padStart2 (pretty (minutes diff)) +:+ ":"
         +:+ padStart2 (pretty (seconds diff)).

End TableCard.

(** ** Table management (first screen) *)

Module TableManagement.

(** [setDoc(ref, data)] without merge: the document becomes [data]. *)
Definition setDoc (docId : string) (data : TableData) : M unit :=
  fun w => (Ok tt, setDb (<[docId := data]> (db w)) w).

(** [deleteDoc(ref)]; deleting a missing document is no error. *)
Definition deleteDoc (docId : string) : M unit :=
  fun w => (Ok tt, setDb (delete docId (db w)) w).

(** [updateDoc(ref, obj)] for an object with one field, given as the change
    it makes to the document. *)
Definition updateField (docId : string) (change : TableData -> TableData)
  : M unit :=
  fun w => match db w !! docId with
           | Some d => (Ok tt, setDb (<[docId := change d]> (db w)) w)
           | None => (Throw (NotFound docId), w)
           end.

Definition setCostPerHour (c : Z) (d : TableData) : TableData :=
  {| name := name d; status := status d; startTime := startTime d;
     duration := duration d; endTime := endTime d; remoteUrl := remoteUrl d;
     remoteOn := remoteOn d; remoteOff := remoteOff d;
     remoteToggle := remoteToggle d;
     costPerHour := Some c; currentCustomer := currentCustomer d |}.

Inductive RemoteField := remoteOnField | remoteOffField | remoteToggleField.

Definition setRemote (field : RemoteField) (url : string) (d : TableData)
  : TableData :=
  {| name := name d; status := status d; startTime := startTime d;
     duration := duration d; endTime := endTime d; remoteUrl := remoteUrl d;
     remoteOn := match field with remoteOnField => Some url | _ => remoteOn d end;
     remoteOff := match field with remoteOffField => Some url | _ => remoteOff d end;
     remoteToggle :=
       match field with remoteToggleField => Some url | _ => remoteToggle d end;
     costPerHour := costPerHour d; currentCustomer := currentCustomer d |}.

(** The document [handleAddTable] writes. *)
Definition newTable (newTableName : string) (newTableCost : Z)
    (newTableRemoteOn newTableRemoteOff newTableRemoteToggle : string)
  : TableData :=
  {| name := Some newTableName; status := Some available;
     startTime := None; duration := None; endTime := None; remoteUrl := None;
     remoteOn := Some newTableRemoteOn;
     remoteOff := Some newTableRemoteOff;
     remoteToggle := Some newTableRemoteToggle;
     costPerHour := Some newTableCost; currentCustomer := None |}.

(** [`table-${Date.now()}`] *)
Definition tableKey (now : Z) : string := "table-" +:+ pretty now.

Definition handleAddTable (newTableName : string) (newTableCost : Z)
    (newTableRemoteOn newTableRemoteOff newTableRemoteToggle : string)
  : M unit :=
  if String.eqb newTableName "" then ret tt
  else
    tryCatch
      (now <- Date_now ;;
       setDoc (tableKey now)
         (newTable newTableName newTableCost newTableRemoteOn
                   newTableRemoteOff newTableRemoteToggle))
      (fun e => error e ;; alert "Gagal menambah meja").

(** [confirmed] is the answer to [confirm("Hapus meja ini?")]. *)
Definition handleDeleteTable (confirmed : bool) (docId : string) : M unit :=
  if confirmed then tryCatch (deleteDoc docId) (fun e => error e)
  else ret tt.

Definition handleUpdatePrice (docId : string) (newPrice : Z) : M unit :=
  tryCatch (updateField docId (setCostPerHour newPrice)) (fun e => error e).

Definition handleUpdateRemoteField (docId : string) (field : RemoteField)
    (url : string) : M unit :=
  tryCatch (updateField docId (setRemote field url)) (fun e => error e).

End TableManagement.

(** ** Stock deduction at checkout (first screen)

    The product branch of the loop of [handleProcessPayment].  The stores
    are the products and ingredients collections, each document seen through
    its [stock] field, the only one the checkout writes. *)

Module Stock.

Record RecipeItem := mkRecipeItem {
  ingredientId : string;
  amount : Z                       (* used per serving *)
}.

(** The fields of a product the checkout reads. *)
Record Product := mkProduct {
  productKey : string;             (* id *)
  stock : Z;
  isRecipe : option bool;
  recipe : option (list RecipeItem)
}.

Record Ingredient := mkIngredient {
  ingredientKey : string;          (* id *)
  ingredientStock : Z              (* stock *)
}.

Record Inventory := mkInventory {
  productDocs : gmap string Z;
  ingredientDocs : gmap string Z
}.

(** [updateDoc(ref, { stock: v })]: rejected, and without effect, when the
    document is missing. *)
Definition updateStock (k : string) (v : Z) (docs : gmap string Z)
  : gmap string Z :=
  match docs !! k with
  | Some _ => <[k := v]> docs
  | None => docs
  end.

(** One turn of [for (const r of product.recipe)]. *)
Definition deductIngredient (ingredients : list Ingredient) (quantity : Z)
    (r : RecipeItem) (inv : Inventory) : Inventory :=
  match List.find (fun i => String.eqb (ingredientKey i) (ingredientId r))
                  ingredients with
  | Some ing =>
      let newStock := Z.max 0 (ingredientStock ing - amount r * quantity) in
      mkInventory (productDocs inv)
                  (updateStock (ingredientKey ing) newStock (ingredientDocs inv))
  | None => inv
  end.

(** A. Handle Products *)
Definition deductItem (products : list Product) (ingredients : list Ingredient)
    (item : CartItem) (inv : Inventory) : Inventory :=
  match itemType item, truthyId (productId item) with
  | product_item, Some pid =>
      match List.find (fun p => String.eqb (productKey p) pid) products with
      | None => inv
      | Some product =>
          match isRecipe product, recipe product with
          | Some true, Some rs =>
              fold_left (fun acc r => deductIngredient ingredients
                                        (quantity item) r acc) rs inv
          | _, _ =>
              let newStock := Z.max 0 (stock product - quantity item) in
              mkInventory (updateStock pid newStock (productDocs inv))
                          (ingredientDocs inv)
          end
      end
  | _, _ => inv
  end.

Definition deductCart (products : list Product) (ingredients : list Ingredient)
    (cart : list CartItem) (inv : Inventory) : Inventory :=
  fold_left (fun acc item => deductItem products ingredients item acc) cart inv.

End Stock.

(** ** Shift report (first screen) *)

Module ShiftReport.

Record Transaction := mkTransaction {
  date : Z;
  items : list CartItem
}.

Record Shift := mkShift {
  shiftStart : Z;                  (* startTime *)
  startCash : Z
}.

Record Report := mkReport {
  cafeRevenue : Z;
  cafeItemsSold : Z;
  billiardRevenue : Z;
  billiardHours : Q
}.

Definition totalRevenue (r : Report) : Z := cafeRevenue r + billiardRevenue r.

Definition grandTotal (shift : Shift) (r : Report) : Z :=
  (cafeRevenue r + billiardRevenue r) + startCash shift.

(** One turn of [t.items.forEach]. *)
Definition countItem (r : Report) (item : CartItem) : Report :=
  let totalItem := price item * quantity item in
  match itemType item with
  | product_item =>
      mkReport (cafeRevenue r + totalItem) (cafeItemsSold r + quantity item)
               (billiardRevenue r) (billiardHours r)
  | table_item =>
      mkReport (cafeRevenue r) (cafeItemsSold r)
               (billiardRevenue r + totalItem)
               (if truthyZ (itemDuration item)
                then Qplus (billiardHours r) (Qmake (orZ (itemDuration item) 0) 60)
                else billiardHours r)
  end.

Definition report (shift : Shift) (transactions : list Transaction) : Report :=
  let shiftTrans :=
    List.filter (fun t => shiftStart shift <=? date t) transactions in
  fold_left (fun r t => fold_left countItem (items t) r) shiftTrans
            (mkReport 0 0 0 (Qmake 0 1)).

End ShiftReport.

(** ** The tables of a new store (source part_001) *)

Module Store.

(** [`table-${i}`] *)
Definition defaultKey (i : Z) : string := "table-" +:+ pretty i.

(** The document written for default table [i]. *)
Definition defaultTable (i : Z) : TableData :=
  {| name := Some ("Meja " +:+ pretty i); status := Some available;
     startTime := None; duration := None; endTime := None;
     remoteUrl := Some "";
     remoteOn := None; remoteOff := None; remoteToggle := None;
     costPerHour := Some 20000; currentCustomer := None |}.

(** [for (let i = 1; i <= 7; i++) await setDoc(...)] *)
Definition createDefaultTables : M unit :=
  forEach (fun i => TableManagement.setDoc (defaultKey i) (defaultTable i))
          [1; 2; 3; 4; 5; 6; 7].

(** The part of [initializeStore] that touches the tables; [storeExists] is
    [snap.exists()] of the store document.  The store document and the
    users are kept outside the world. *)
Definition initializeStore (storeExists : bool) : M unit :=
  if storeExists then ret tt else createDefaultTables.

End Store.

(** ** Notions used to state further results *)

(** The table a cart item rents, if it is a table item. *)
Definition tableKeyOf (item : CartItem) : option string :=
  match itemType item with
  | table_item => tableId item
  | product_item => None
  end.

(** No table is in the cart twice. *)
Definition oneItemPerTable (cart : list CartItem) : Prop :=
  NoDup (omap tableKeyOf cart).

(** The channels of the occupied rows of a listing, by position from [i]. *)
Fixpoint occupiedChannels (i : Z) (latest : list Table) : list Z :=
  match latest with
  | [] => []
  | t :: rest =>
      if bool_decide (status t = Some occupied)
      then deriveTableNumber (name t) i :: occupiedChannels (i + 1) rest
      else occupiedChannels (i + 1) rest
  end.

(** Every row of [latest] was listed before with the same status. *)
Definition sameStatuses (prevTables latest : list Table) : Prop :=
  forall t, t ∈ latest ->
    exists p, findTable (id t) prevTables = Some p /\ status p = status t.

(** The pieces of the product lines of a cart, and of the carts of the
    transactions dated at or after [start]. *)
Definition productUnits (cart : list CartItem) : Z :=
  fold_right (fun item acc =>
                match itemType item with
                | product_item => quantity item + acc
                | table_item => acc
                end) 0 cart.

Definition unitsSince (start : Z)
    (transactions : list ShiftReport.Transaction) : Z :=
  fold_right (fun t acc =>
                (if start <=? ShiftReport.date t
                 then productUnits (ShiftReport.items t) else 0) + acc)
             0 transactions.

(** Every quantity is a count. *)
Definition countsOnly (transactions : list ShiftReport.Transaction) : Prop :=
  Forall (fun t => Forall (fun item => 0 <= quantity item)
                          (ShiftReport.items t)) transactions.

(** No stock on record is negative. *)
Definition nonNegative (docs : gmap string Z) : Prop :=
  forall k v, docs !! k = Some v -> 0 <= v.

(** Two collections hold the same documents, whatever their values. *)
Definition sameDocs (a b : gmap string Z) : Prop :=
  forall k, is_Some (a !! k) <-> is_Some (b !! k).

(** The quantity of the last product line of the cart for product [pid]. *)
Fixpoint lastQuantity (pid : string) (cart : list CartItem) : option Z :=
  match cart with
  | [] => None
  | item :: rest =>
      match lastQuantity pid rest with
      | Some q => Some q
      | None =>
          match itemType item, truthyId (productId item) with
          | product_item, Some k =>
              if String.eqb k pid then Some (quantity item) else None
          | _, _ => None
          end
      end
  end.

(** ** Resolver: lemmas *)

Section ResolverFacts.

Lemma digitValue_range c : isDigit c = true -> 0 <= digitValue c <= 9.
Proof.
  unfold isDigit, digitValue. intros H.
  apply andb_true_iff in H as [H1 H2].
  apply Nat.leb_le in H1, H2. lia.
Qed.

Lemma takeDigits_run run post :
  allDigits run = true -> startsWithDigit post = false ->
  takeDigits (run +:+ post) = run.
Proof.
  induction run as [|c r IH]; simpl; intros Hr Hp.
  - destruct post as [|d p]; simpl in *; [done | by rewrite Hp].
  - apply andb_true_iff in Hr as [Hc Hr]. rewrite Hc. f_equal. by apply IH.
Qed.

Lemma matchDigits_run pre run post :
  noDigit pre = true -> run <> "" -> allDigits run = true ->
  startsWithDigit post = false ->
  matchDigits (pre +:+ run +:+ post) = Some run.
Proof.
  intros Hpre Hne Hr Hp. induction pre as [|c p IH]; simpl in *.
  - destruct run as [|c r]; [done |]. simpl in *.
    apply andb_true_iff in Hr as [Hc Hr]. rewrite Hc.
    do 2 f_equal. by apply takeDigits_run.
  - apply andb_true_iff in Hpre as [Hc Hpre].
    apply negb_true_iff in Hc. rewrite Hc. by apply IH.
Qed.

Lemma matchDigits_none s : noDigit s = true -> matchDigits s = None.
Proof.
  induction s as [|c r IH]; simpl; [done |]. intros H.
  apply andb_true_iff in H as [Hc Hr]. apply negb_true_iff in Hc.
  rewrite Hc. by apply IH.
Qed.

Lemma takeDigits_allDigits s : allDigits (takeDigits s) = true.
Proof.
  induction s as [|c r IH]; simpl; [done |].
  destruct (isDigit c) eqn:Hc; simpl; [by rewrite Hc | done].
Qed.

Lemma numberFrom_nonneg ds acc :
  allDigits ds = true -> 0 <= acc -> 0 <= numberFrom acc ds.
Proof.
  revert acc. induction ds as [|c r IH]; simpl; intros acc Hd Ha; [done |].
  apply andb_true_iff in Hd as [Hc Hr].
  apply IH; [done |]. pose proof (digitValue_range c Hc). lia.
Qed.




Lemma matchDigits_allDigits s m : matchDigits s = Some m -> allDigits m = true.
Proof.
  induction s as [|c r IH]; simpl; [done |].
  destruct (isDigit c) eqn:Hc; [| done].
  intros [= <-]. simpl. rewrite Hc. simpl. apply takeDigits_allDigits.
Qed.

Lemma deriveTableNumber_nonneg tableName index :
  0 <= index -> 0 <= deriveTableNumber tableName index.
Proof.
  intros Hi. unfold deriveTableNumber.
  destruct tableName as [s|]; [| lia].
  destruct (String.eqb s ""); [lia |].
  destruct (matchDigits s) as [m|] eqn:Hm; [| lia].
  apply numberFrom_nonneg; [by eapply matchDigits_allDigits | lia].
Qed.

End ResolverFacts.

Section ResolverContract.

Lemma firstDigitRun_nonempty s run : firstDigitRun s run -> String.eqb s "" = false.
Proof.
  intros (pre & post & -> & _ & Hne & _).
  destruct pre; [destruct run; [done | reflexivity] | reflexivity].
Qed.

Lemma firstDigitRun_match s run : firstDigitRun s run -> matchDigits s = Some run.
Proof.
  intros (pre & post & -> & Hpre & Hne & Hr & Hp). by apply matchDigits_run.
Qed.

(** Every name either has no digit or has a first maximal run of digits. *)
Lemma firstDigitRun_total s : noDigit s = true \/ exists run, firstDigitRun s run.
Proof.
  induction s as [|c r IH]; [by left |]. simpl.
  destruct (isDigit c) eqn:Hc.
  - right. clear IH. revert c Hc.
    induction r as [|d r IHr]; intros c Hc.
    + exists (String c ""), "", "". simpl. by rewrite Hc.
    + destruct (isDigit d) eqn:Hd.
      * destruct (IHr d Hd) as (run & pre & post & E & Hpre & Hne & Hr & Hp).
        destruct pre as [|p pre].
        -- exists (String c run), "", post. simpl in *.
           rewrite Hc, Hr. by rewrite E.
        -- simpl in E. injection E as -> E. simpl in Hpre.
           by rewrite Hd in Hpre.
      * exists (String c ""), "", (String d r). simpl. by rewrite Hc, Hd.
  - destruct IH as [IH | (run & pre & post & -> & Hpre & Hne & Hr & Hp)].
    + left. by rewrite IH.
    + right. exists run, (String c pre), post. simpl. by rewrite Hc, Hpre.
Qed.

End ResolverContract.

(** ** Claims on the table number resolver *)




(** ** Manual stop *)

Section ManualStop.

Import Part000.

Lemma StopTableModal_tables_unbound storeId tbl :
  lookupIdent "tables" (StopTableModal_scope storeId tbl) = None.
Proof. reflexivity. Qed.

(** The identifier resolves where a scope binds it. *)
Lemma readTables_bound ts sc w :
  readTables (("tables", BTables ts) :: sc) w = (Ok ts, w).
Proof. reflexivity. Qed.

(** The whole effect of a confirmed stop. *)
Lemma handleConfirmStop_run storeId tbl w :
  Part000.handleConfirmStop storeId tbl w =
  (Ok tt,
   mkWorld
     (<[id tbl := applyPatch resetPatch (default emptyDoc (db w !! id tbl))]> (db w))
     (clock w) (reads w) (lamp w)
     (console w ++ [console_warn "Failed to control lamp on stop"
                                 (ReferenceError "tables")])%list
     (alerts w) false true).
Proof. reflexivity. Qed.

End ManualStop.

(** C10: in the manual stop of the first screen the lamp-off step fails on
    every input.  Its channel derivation reads [tables], which no scope of
    StopTableModal binds, so the step throws a ReferenceError that the inner
    try/catch turns into a warning.  The handler all the same completes the
    reset of the table in the store (status 'available', startTime, endTime
    and duration 0, currentCustomer the empty string, every other field of
    the record as it was, no other record touched), closes the modal and
    returns normally; no lamp command is sent from this path. *)
Theorem handleConfirmStop_lamp_step_fails (storeId : string) (tbl : Table)
    (w : World) :
  let w' := exec (Part000.handleConfirmStop storeId tbl) w in
  result (readTables (Part000.StopTableModal_scope storeId tbl)) w
    = Throw (ReferenceError "tables") /\
  result (Part000.handleConfirmStop storeId tbl) w = Ok tt /\
  (exists r,
     db w' !! id tbl = Some r /\
     status r = Some available /\
     startTime r = Some 0 /\ endTime r = Some 0 /\ duration r = Some 0 /\
     currentCustomer r = Some "" /\
     (forall d, db w !! id tbl = Some d ->
        name r = name d /\ costPerHour r = costPerHour d /\
        remoteUrl r = remoteUrl d /\ remoteOn r = remoteOn d /\
        remoteOff r = remoteOff d /\ remoteToggle r = remoteToggle d)) /\
  (forall other, other <> id tbl -> db w' !! other = db w !! other) /\
  lamp w' = lamp w /\
  console w' = (console w ++ [console_warn "Failed to control lamp on stop"
                                           (ReferenceError "tables")])%list /\
  alerts w' = alerts w /\
  closed w' = true /\
  loading w' = false.
Proof.
  unfold exec, result. rewrite handleConfirmStop_run. simpl.
  split; [reflexivity |]. split; [reflexivity |].
  split.
  { eexists. split; [by rewrite lookup_insert_eq |].
    do 5 (split; [reflexivity |]).
    intros d ->. repeat split. }
  split; [by intros other Hne; rewrite lookup_insert_ne |].
  repeat split.
Qed.

(** ** Auto-expiry monitor *)

Section AutoExpiry.

Lemma applyPatch_expiry_idem d :
  applyPatch expiryPatch (applyPatch expiryPatch d) = applyPatch expiryPatch d.
Proof. reflexivity. Qed.

Lemma expired_occupied now (t : Table) :
  expired now t = true -> status t = Some occupied.
Proof.
  unfold expired. intros H.
  apply andb_true_iff in H as [H _]. apply andb_true_iff in H as [H _].
  by apply bool_decide_eq_true in H.
Qed.

Lemma expired_intro now (t : Table) e :
  status t = Some occupied -> endTime t = Some e -> e <> 0 -> e <= now ->
  expired now t = true.
Proof.
  intros Hs He Hne Hle. unfold expired, truthyZ, orZ. rewrite Hs, He.
  rewrite bool_decide_eq_true_2 by done.
  destruct (e =? 0) eqn:E; [apply Z.eqb_eq in E; lia |]. simpl.
  by apply Z.leb_le.
Qed.

Lemma autoStop_run now t w :
  autoStop now t w =
  if expired now t then
    match db w !! id t with
    | Some d => (Ok tt, setDb (<[id t := applyPatch expiryPatch d]> (db w)) w)
    | None => warn "Auto-stop table failed" (NotFound (id t)) w
    end
  else (Ok tt, w).
Proof.
  unfold autoStop, tryCatch, updateDoc.
  destruct (expired now t); [| reflexivity].
  by destruct (db w !! id t).
Qed.

Lemma autoStop_ok now t w : fst (autoStop now t w) = Ok tt.
Proof.
  rewrite autoStop_run. destruct (expired now t); [| done].
  by destruct (db w !! id t).
Qed.

Lemma autoStop_lookup now t w k :
  db (snd (autoStop now t w)) !! k =
  if stops now k t then applyPatch expiryPatch <$> (db w !! k) else db w !! k.
Proof.
  rewrite autoStop_run. unfold stops.
  destruct (String.eqb_spec (id t) k) as [<- | Hne]; simpl.
  - destruct (expired now t); [| done].
    destruct (db w !! id t) eqn:E; simpl; [by rewrite lookup_insert_eq | done].
  - destruct (expired now t); [| done].
    destruct (db w !! id t) eqn:E; simpl; [by rewrite lookup_insert_ne | done].
Qed.

Lemma autoStop_frame now t w :
  let w' := snd (autoStop now t w) in
  lamp w' = lamp w /\ alerts w' = alerts w /\ clock w' = clock w /\
  reads w' = reads w /\ loading w' = loading w /\ closed w' = closed w.
Proof.
  cbv zeta. rewrite autoStop_run. destruct (expired now t); [| done].
  by destruct (db w !! id t).
Qed.

Lemma autoStop_console now t w :
  (expired now t = true -> is_Some (db w !! id t)) ->
  console (snd (autoStop now t w)) = console w.
Proof.
  intros H. rewrite autoStop_run. destruct (expired now t); [| done].
  destruct H as [d ->]; done.
Qed.

Lemma forEach_cons {A} (f : A -> M unit) x r w :
  fst (f x w) = Ok tt ->
  forEach f (x :: r) w = forEach f r (snd (f x w)).
Proof.
  simpl. unfold bind. destruct (f x w) as [[[]|e] w']; simpl; [done | done].
Qed.

Lemma sweep_ok now tables w : fst (forEach (autoStop now) tables w) = Ok tt.
Proof.
  revert w. induction tables as [|t r IH]; intros w; [done |].
  rewrite forEach_cons by apply autoStop_ok. apply IH.
Qed.

Lemma sweep_lookup now tables w k :
  db (snd (forEach (autoStop now) tables w)) !! k =
  if existsb (stops now k) tables
  then applyPatch expiryPatch <$> (db w !! k) else db w !! k.
Proof.
  revert w. induction tables as [|t r IH]; intros w; [done |].
  rewrite forEach_cons by apply autoStop_ok.
  rewrite IH, autoStop_lookup. simpl.
  destruct (stops now k t), (existsb (stops now k) r); simpl; try done.
  destruct (db w !! k); simpl; [by rewrite applyPatch_expiry_idem | done].
Qed.

Lemma sweep_frame now tables w :
  let w' := snd (forEach (autoStop now) tables w) in
  lamp w' = lamp w /\ alerts w' = alerts w /\ clock w' = clock w /\
  reads w' = reads w /\ loading w' = loading w /\ closed w' = closed w.
Proof.
  revert w. induction tables as [|t r IH]; intros w; [done |].
  cbv zeta. rewrite forEach_cons by apply autoStop_ok.
  destruct (IH (snd (autoStop now t w))) as (-> & -> & -> & -> & -> & ->).
  apply autoStop_frame.
Qed.

Lemma sweep_console now tables w :
  (forall t, t ∈ tables -> expired now t = true -> is_Some (db w !! id t)) ->
  console (snd (forEach (autoStop now) tables w)) = console w.
Proof.
  revert w. induction tables as [|t r IH]; intros w Hdocs; [done |].
  rewrite forEach_cons by apply autoStop_ok.
  rewrite IH.
  - apply autoStop_console. intros. apply Hdocs; [left | done].
  - intros t' Hin Hexp. rewrite autoStop_lookup.
    destruct (Hdocs t' ltac:(by right) Hexp) as [d ->].
    destruct (stops now (id t') t); eauto.
Qed.

(** A sweep that finds nothing expired leaves the world as it is. *)
Lemma sweep_idle now tables w :
  (forall t, t ∈ tables -> expired now t = false) ->
  forEach (autoStop now) tables w = (Ok tt, w).
Proof.
  induction tables as [|t r IH]; intros Hidle; [done |].
  rewrite forEach_cons by apply autoStop_ok.
  rewrite autoStop_run, (Hidle t) by left. simpl.
  apply IH. intros. apply Hidle. by right.
Qed.

Lemma autoExpiryTick_run tables w :
  autoExpiryTick tables w =
  forEach (autoStop (clock w (reads w))) tables
    (mkWorld (db w) (clock w) (S (reads w)) (lamp w) (console w) (alerts w)
             (loading w) (closed w)).
Proof. reflexivity. Qed.

End AutoExpiry.

Section AutoExpiryRuns.

Lemma stops_exists now k tables :
  existsb (stops now k) tables = true <->
  exists t, t ∈ tables /\ id t = k /\ expired now t = true.
Proof.
  rewrite existsb_exists. split.
  - intros (t & Hin & Hst). exists t. apply list_elem_of_In in Hin.
    unfold stops in Hst. apply andb_true_iff in Hst as [Hid Hexp].
    by apply String.eqb_eq in Hid.
  - intros (t & Hin & Hid & Hexp). exists t. split; [by apply list_elem_of_In |].
    unfold stops. rewrite Hexp. by apply String.eqb_eq in Hid as ->.
Qed.

Lemma expired_data now (t1 t2 : Table) :
  data t1 = data t2 -> expired now t1 = expired now t2.
Proof. unfold expired. by intros ->. Qed.

Lemma tick_lookup tables w k :
  db (exec (autoExpiryTick tables) w) !! k =
  if existsb (stops (clock w (reads w)) k) tables
  then applyPatch expiryPatch <$> (db w !! k) else db w !! k.
Proof. unfold exec. rewrite autoExpiryTick_run. by rewrite sweep_lookup. Qed.

Lemma tick_ok tables w : result (autoExpiryTick tables) w = Ok tt.
Proof. unfold result. rewrite autoExpiryTick_run. apply sweep_ok. Qed.

Lemma tick_frame tables w :
  lamp (exec (autoExpiryTick tables) w) = lamp w /\
  alerts (exec (autoExpiryTick tables) w) = alerts w /\
  clock (exec (autoExpiryTick tables) w) = clock w /\
  reads (exec (autoExpiryTick tables) w) = S (reads w).
Proof.
  unfold exec. rewrite autoExpiryTick_run.
  pose proof (sweep_frame (clock w (reads w)) tables
    (mkWorld (db w) (clock w) (S (reads w)) (lamp w) (console w) (alerts w)
             (loading w) (closed w))) as H.
  cbv zeta in H. destruct H as (-> & -> & -> & -> & _). done.
Qed.

Lemma tick_console tables w :
  (forall t, t ∈ tables -> is_Some (db w !! id t)) ->
  console (exec (autoExpiryTick tables) w) = console w.
Proof.
  intros Hdocs. unfold exec. rewrite autoExpiryTick_run.
  rewrite sweep_console; [done |]. intros t Hin _. by apply Hdocs.
Qed.

Lemma tick_keeps_docs tables w k :
  is_Some (db w !! k) -> is_Some (db (exec (autoExpiryTick tables) w) !! k).
Proof.
  intros [d Hd]. rewrite tick_lookup, Hd.
  destruct (existsb _ tables); simpl; eauto.
Qed.

End AutoExpiryRuns.

(** C8: the auto-expiry check is idempotent.  For a listed table that is
    occupied with its endTime in the past, one run of the check leaves the
    stored table 'available' with startTime, endTime and currentCustomer
    removed and duration 0.  A second run right afterwards changes nothing
    and raises no error: run again on the same (now stale) listing it leaves
    the table's record, the console and the lamp log as they are (and the
    whole store, when the clock has not moved); run on a refreshed listing it
    finds nothing expired and writes nothing. *)
Theorem autoExpiry_idempotent (tables : list Table) (w : World) (t : Table)
    (e : Z)
    (Hsync : inSync tables w) (Hin : t ∈ tables)
    (Hocc : status t = Some occupied)
    (Hend : endTime t = Some e) (Hset : e <> 0)
    (Hpast : e <= clock w (reads w)) :
  let w1 := exec (autoExpiryTick tables) w in
  let w2 := exec (autoExpiryTick tables) w1 in
  let d1 := applyPatch expiryPatch t in
  (* first run *)
  result (autoExpiryTick tables) w = Ok tt /\
  db w1 !! id t = Some d1 /\
  status d1 = Some available /\ startTime d1 = None /\ endTime d1 = None /\
  duration d1 = Some 0 /\ currentCustomer d1 = None /\
  (* second run, same listing *)
  result (autoExpiryTick tables) w1 = Ok tt /\
  db w2 !! id t = Some d1 /\
  console w2 = console w1 /\ lamp w2 = lamp w1 /\ alerts w2 = alerts w1 /\
  (clock w (S (reads w)) = clock w (reads w) -> db w2 = db w1) /\
  (* second run, refreshed listing *)
  (forall tables2,
     inSync tables2 w1 ->
     (forall t2, t2 ∈ tables2 -> exists t1, t1 ∈ tables /\ id t1 = id t2) ->
     clock w (S (reads w)) = clock w (reads w) ->
     result (autoExpiryTick tables2) w1 = Ok tt /\
     db (exec (autoExpiryTick tables2) w1) = db w1 /\
     console (exec (autoExpiryTick tables2) w1) = console w1 /\
     lamp (exec (autoExpiryTick tables2) w1) = lamp w1).
Proof.
  intros w1 w2 d1. subst w2 d1 w1.
  pose proof (expired_intro _ t e Hocc Hend Hset Hpast) as Hexp.
  destruct (tick_frame tables w) as (Hl1 & Ha1 & Hc1 & Hr1).
  set (w1 := exec (autoExpiryTick tables) w) in *.
  assert (db w1 !! id t = Some (applyPatch expiryPatch t)) as H1.
  { unfold w1. rewrite tick_lookup.
    replace (existsb _ tables) with true
      by (symmetry; apply stops_exists; eauto).
    by rewrite (Hsync t Hin). }
  destruct (tick_frame tables w1) as (Hl2 & Ha2 & Hc2 & Hr2).
  split; [apply tick_ok |]. split; [done |].
  do 5 (split; [reflexivity |]).
  split; [apply tick_ok |].
  split.
  { rewrite tick_lookup, H1. by destruct (existsb _ tables). }
  split.
  { apply tick_console. intros t' Hin'. apply tick_keeps_docs.
    rewrite (Hsync t' Hin'). eauto. }
  split; [done |]. split; [done |].
  split.
  { intros Hclk. apply map_eq. intros k.
    rewrite tick_lookup. rewrite Hc1, Hr1, Hclk.
    unfold w1. rewrite tick_lookup.
    destruct (existsb _ tables); [| done].
    by destruct (db w !! k). }
  intros tables2 Hsync2 Hids Hclk.
  assert (forall t2, t2 ∈ tables2 -> expired (clock w (reads w)) t2 = false)
    as Hidle.
  { intros t2 Hin2. destruct (expired _ t2) eqn:Ht2; [| done]. exfalso.
    destruct (Hids t2 Hin2) as (t1 & Hin1 & Hid).
    pose proof (Hsync2 t2 Hin2) as Hd2. unfold w1 in Hd2.
    rewrite tick_lookup, <- Hid, (Hsync t1 Hin1) in Hd2.
    destruct (existsb _ tables) eqn:Hex; simpl in Hd2.
    - injection Hd2 as Hd2. apply expired_occupied in Ht2.
      rewrite <- Hd2 in Ht2. done.
    - injection Hd2 as Hd2.
      assert (existsb (stops (clock w (reads w)) (id t1)) tables = true)
        as Hex'; [| congruence].
      apply stops_exists. exists t1. repeat split; [done |].
      by rewrite (expired_data _ t1 t2). }
  unfold result, exec. rewrite autoExpiryTick_run.
  rewrite Hc1, Hr1, Hclk.
  rewrite sweep_idle by done. done.
Qed.

Lemma autoExpiry_idempotent_witness :
  let w := Sample.world Sample.store0 (Sample.T0 + 3600000) in
  let w1 := exec (autoExpiryTick Sample.listing0) w in
  db w1 !! "t2" = Some (applyPatch expiryPatch Sample.meja2) /\
  db (exec (autoExpiryTick Sample.listing0) w1) !! "t2"
    = Some (applyPatch expiryPatch Sample.meja2).
Proof.
  assert (inSync Sample.listing0
            (Sample.world Sample.store0 (Sample.T0 + 3600000))) as Hsync.
  { intros t Hin. apply list_elem_of_In in Hin.
    destruct Hin as [<- | [<- | []]]; reflexivity. }
  destruct (autoExpiry_idempotent Sample.listing0
              (Sample.world Sample.store0 (Sample.T0 + 3600000))
              (mkTable "t2" Sample.meja2) (Sample.T0 + 3600000) Hsync)
    as (_ & H1 & _ & _ & _ & _ & _ & _ & H2 & _).
  - apply list_elem_of_In. right. by left.
  - reflexivity.
  - reflexivity.
  - unfold Sample.T0. lia.
  - simpl. lia.
  - split; [exact H1 | exact H2].
Defined.

(** ** Move coordinator *)

Section Move.

Import Part000.

Lemma handleMove_guarded (fromTable : Table) tables toTableId w :
  toTableId = "" \/ loading w = true ->
  handleMove fromTable tables toTableId w = (Ok tt, w).
Proof.
  intros H. unfold handleMove, bind, getLoading.
  destruct H as [-> | ->]; [reflexivity |].
  by rewrite orb_true_r.
Qed.

(** A move of a rental whose start and end are set. *)
Lemma handleMove_run (fromTable : Table) tables toTableId w s e :
  toTableId <> "" -> loading w = false ->
  startTime fromTable = Some s -> s <> 0 ->
  endTime fromTable = Some e -> e <> 0 ->
  handleMove fromTable tables toTableId w =
  (Ok tt,
   mkWorld (moved s e fromTable toTableId (db w)) (clock w) (S (reads w))
     (lamp w ++
      [TABLE_LAMP_URL (fromNum fromTable tables) off None;
       TABLE_LAMP_URL (toNum tables toTableId) on
         (Some (Z.max 0 (ceilDiv (e - clock w (reads w)) 1000)))])%list
     (console w) (alerts w) false true).
Proof.
  intros Hto Hld Hs Hs0 He He0.
  apply String.eqb_neq in Hto. apply Z.eqb_neq in Hs0, He0.
  unfold handleMove, bind, getLoading. rewrite Hto, Hld. simpl.
  unfold finally, tryCatch, bind, orElseM, remainingSeconds, truthyZ, orZ.
  rewrite Hs, He, Hs0, He0. simpl.
  unfold bind. simpl. rewrite !He0. simpl. rewrite <- app_assoc. reflexivity.
Qed.

(** Whatever the rental's fields, a move that passes the guard writes to
    the destination and to the origin and sends two lamp commands. *)
Lemma handleMove_writes (fromTable : Table) tables toTableId w :
  toTableId <> "" -> loading w = false ->
  exists s e dur n,
    handleMove fromTable tables toTableId w =
    (Ok tt,
     mkWorld (moved s e fromTable toTableId (db w)) (clock w) n
       (lamp w ++
        [TABLE_LAMP_URL (fromNum fromTable tables) off None;
         TABLE_LAMP_URL (toNum tables toTableId) on dur])%list
       (console w) (alerts w) false true).
Proof.
  intros Hto Hld. apply String.eqb_neq in Hto.
  unfold handleMove, bind, getLoading. rewrite Hto, Hld. simpl.
  unfold finally, tryCatch, bind, orElseM, remainingSeconds, truthyZ, orZ.
  destruct (startTime fromTable) as [s|]; [destruct (s =? 0) |];
    (destruct (endTime fromTable) as [e|]; [destruct (e =? 0) eqn:E |]);
    simpl; unfold bind; simpl;
    repeat match goal with
           | |- context [if (?x =? 0) then _ else _] =>
               destruct (x =? 0); simpl
           end;
    rewrite <- app_assoc; do 4 eexists; reflexivity.
Qed.

Lemma availableTables_available tables (t : Table) :
  t ∈ availableTables tables <-> t ∈ tables /\ status t = Some available.
Proof.
  unfold availableTables. rewrite !list_elem_of_In, filter_In.
  by rewrite bool_decide_eq_true.
Qed.

End Move.

(** C2, as stated, fails.  After a move the origin still has its startTime
    and endTime fields; they hold 0.  And what the destination gets is the
    rental as the dialog holds it, from the moment 'Pindah' was pressed: a
    top-up that has reached the store since is not carried over. *)
Lemma handleMove_origin_counterexample :
  let move := Part000.handleMove (mkTable "t2" Sample.meja2) Sample.listing0
                "t1" in
  ~ (exists A, db (exec move Sample.w0) !! "t2" = Some A /\
               deleted (startTime A) /\ deleted (endTime A)) /\
  (let w := Sample.world (<["t2" := Sample.meja2Extended]> Sample.store0)
              (Sample.T0 + 600000) in
   (db w !! "t2" ≫= endTime) = Some (Sample.T0 + 5400000) /\
   (db (exec move w) !! "t1" ≫= endTime) = Some (Sample.T0 + 3600000)).
Proof.
  cbv zeta. split.
  - intros (A & HA & Hs & _).
    vm_compute in HA. injection HA as <-. discriminate Hs.
  - split; vm_compute; reflexivity.
Qed.

(** C2 (amended): a move of a rental (start, end and duration set, a
    customer named) from table A to a different table B leaves B 'occupied'
    with the startTime, endTime, duration and currentCustomer of A's row in
    the dialog; these are A's stored values when the row is current, and B's
    endTime is then A's original endTime.  A is left 'available' with
    startTime, endTime and duration 0 and the empty string as customer: the
    fields stay in the record, and its name and rate are kept. *)
Theorem handleMove_preserves_rental (fromTable : Table) (tables : list Table)
    (toTableId : string) (w : World) (s e d : Z) (c : string)
    (stored : TableData)
    (Hto : toTableId <> "") (Hidle : loading w = false)
    (Hdistinct : id fromTable <> toTableId)
    (Hstored : db w !! id fromTable = Some stored)
    (Hs : startTime fromTable = Some s) (Hs0 : s <> 0)
    (He : endTime fromTable = Some e) (He0 : e <> 0)
    (Hd : duration fromTable = Some d) (Hd0 : d <> 0)
    (Hc : currentCustomer fromTable = Some c) (Hc0 : c <> "") :
  let w' := exec (Part000.handleMove fromTable tables toTableId) w in
  result (Part000.handleMove fromTable tables toTableId) w = Ok tt /\
  exists B A,
    db w' !! toTableId = Some B /\
    status B = Some occupied /\
    startTime B = Some s /\ endTime B = Some e /\
    duration B = Some d /\ currentCustomer B = Some c /\
    (data fromTable = stored ->
     startTime B = startTime stored /\ endTime B = endTime stored /\
     duration B = duration stored /\
     currentCustomer B = currentCustomer stored) /\
    db w' !! id fromTable = Some A /\
    status A = Some available /\
    startTime A = Some 0 /\ endTime A = Some 0 /\ duration A = Some 0 /\
    currentCustomer A = Some "" /\
    ~ deleted (startTime A) /\ ~ deleted (endTime A) /\
    name A = name stored /\ costPerHour A = costPerHour stored.
Proof.
  unfold exec, result.
  rewrite (handleMove_run fromTable tables toTableId w s e) by done.
  simpl. split; [done |]. unfold moved.
  eexists _, _. split.
  { rewrite lookup_insert_ne by done. apply lookup_insert_eq. }
  simpl. unfold orZ, orS. rewrite Hd, Hc.
  apply Z.eqb_neq in Hd0. apply String.eqb_neq in Hc0. rewrite Hd0, Hc0.
  do 5 (split; [reflexivity |]).
  split.
  { intros <-. by rewrite Hs, He, Hd, Hc. }
  split; [apply lookup_insert_eq |].
  rewrite lookup_insert_ne by done. rewrite Hstored. simpl.
  repeat split; discriminate.
Qed.

Lemma handleMove_preserves_rental_witness :
  let w' := exec (Part000.handleMove (mkTable "t2" Sample.meja2)
                    Sample.listing0 "t1") Sample.w0 in
  exists B A,
    db w' !! "t1" = Some B /\ endTime B = endTime Sample.meja2 /\
    db w' !! "t2" = Some A /\ status A = Some available /\
    startTime A = Some 0.
Proof.
  destruct (handleMove_preserves_rental (mkTable "t2" Sample.meja2)
              Sample.listing0 "t1" Sample.w0
              Sample.T0 (Sample.T0 + 3600000) 60 "Budi" Sample.meja2)
    as (_ & B & A & HB & _ & _ & HeB & _ & _ & _ & HA & HsA & HstA & _);
    try reflexivity; try discriminate.
  exists B, A. repeat split; assumption.
Defined.

(** C3, as stated, fails.  A destination that the dialog offers, the
    listing showing it free, is written over although the store already
    holds another rental on it; and once the listing shows the origin
    itself as stopped, the origin is offered and a move onto it is carried
    out. *)
Lemma handleMove_unchecked_counterexample :
  (let w := Sample.world (<["t1" := Sample.meja1Rented]> Sample.store0)
              (Sample.T0 + 600000) in
   let move := Part000.handleMove (mkTable "t2" Sample.meja2) Sample.listing0
                 "t1" in
   mkTable "t1" Sample.meja1 ∈ Part000.availableTables Sample.listing0 /\
   (db w !! "t1" ≫= status) = Some occupied /\
   (db w !! "t1" ≫= currentCustomer) = Some "Cici" /\
   ~ rejected move w /\
   (db (exec move w) !! "t1" ≫= currentCustomer) = Some "Budi") /\
  (let stopped := mkTable "t2" (applyPatch expiryPatch Sample.meja2) in
   let listing := [mkTable "t1" Sample.meja1; stopped] in
   let w := Sample.world
              (<["t2" := applyPatch expiryPatch Sample.meja2]> Sample.store0)
              (Sample.T0 + 3700000) in
   let move := Part000.handleMove (mkTable "t2" Sample.meja2) listing "t2" in
   stopped ∈ Part000.availableTables listing /\
   id (mkTable "t2" Sample.meja2) = "t2" /\
   ~ rejected move w /\
   (db (exec move w) !! "t2" ≫= status) = Some available).
Proof.
  cbv zeta. split.
  - split; [apply list_elem_of_In; by left |].
    split; [reflexivity |]. split; [reflexivity |].
    split; [| vm_compute; reflexivity].
    intros [_ Hlamp]. vm_compute in Hlamp. discriminate Hlamp.
  - split; [apply list_elem_of_In; right; by left |].
    split; [reflexivity |].
    split; [| vm_compute; reflexivity].
    intros [_ Hlamp]. vm_compute in Hlamp. discriminate Hlamp.
Qed.

(** C3 (amended): handleMove is a no-op, with no store write and no lamp
    command, exactly when the destination id is empty or a move is already
    in progress.  It checks neither the destination's status nor that it
    differs from the origin: any other call writes the destination and the
    origin and sends the two lamp commands.  The dialog offers as
    destinations the tables its listing shows as 'available'; they are free
    in the store as far as the listing agrees with the store, and nothing
    looks at the store itself. *)
Theorem handleMove_guard (fromTable : Table) (tables : list Table)
    (toTableId : string) (w : World) :
  let run := Part000.handleMove fromTable tables toTableId in
  (toTableId = "" \/ loading w = true -> run w = (Ok tt, w) /\ rejected run w) /\
  (toTableId <> "" -> loading w = false ->
     exists s e dur,
       db (exec run w) = moved s e fromTable toTableId (db w) /\
       lamp (exec run w) =
         (lamp w ++
          [TABLE_LAMP_URL (fromNum fromTable tables) off None;
           TABLE_LAMP_URL (toNum tables toTableId) on dur])%list /\
       (exists B, db (exec run w) !! toTableId = Some B /\
                  (id fromTable <> toTableId -> status B = Some occupied)) /\
       ~ rejected run w) /\
  (inSync tables w ->
   forall t : Table,
     t ∈ Part000.availableTables tables ->
     exists stored, db w !! id t = Some stored /\
                    status stored = Some available).
Proof.
  cbv zeta. split; [| split].
  - intros H. unfold rejected, exec.
    by rewrite (handleMove_guarded fromTable tables toTableId w H).
  - intros Hto Hld.
    destruct (handleMove_writes fromTable tables toTableId w Hto Hld)
      as (s & e & dur & n & Hrun).
    exists s, e, dur. unfold rejected, exec. rewrite Hrun. simpl.
    split; [done |]. split; [done |].
    split.
    { unfold moved. destruct (decide (id fromTable = toTableId)) as [E | Hne].
      - rewrite E, lookup_insert_eq. eexists. split; [reflexivity | done].
      - rewrite lookup_insert_ne by done. rewrite lookup_insert_eq.
        eexists. split; [reflexivity | done]. }
    intros [_ Hlamp].
    apply (f_equal length) in Hlamp. rewrite length_app in Hlamp.
    simpl in Hlamp. lia.
  - intros Hsync t Ht.
    apply availableTables_available in Ht as [Hin Hfree].
    exists (data t). split; [by apply Hsync | exact Hfree].
Qed.

Lemma handleMove_guard_witness :
  rejected (Part000.handleMove (mkTable "t2" Sample.meja2) Sample.listing0 "")
           Sample.w0 /\
  (exists stored, db Sample.w0 !! "t1" = Some stored /\
                  status stored = Some available).
Proof.
  destruct (handleMove_guard (mkTable "t2" Sample.meja2) Sample.listing0 ""
              Sample.w0) as (Hguard & _ & Hoffer).
  split.
  - apply Hguard. by left.
  - apply (Hoffer ltac:(intros x Hin; apply list_elem_of_In in Hin;
                         destruct Hin as [<- | [<- | []]]; reflexivity)
                  (mkTable "t1" Sample.meja1)).
    apply list_elem_of_In. by left.
Defined.

(** C4, as stated, fails: after a manual stop the record still has its
    startTime and endTime fields; they hold 0. *)
Lemma manual_stop_zeroes_counterexample :
  let w' := exec (Part000.handleConfirmStop "toko" (mkTable "t2" Sample.meja2))
                 Sample.w0 in
  ~ (exists d, db w' !! "t2" = Some d /\
               deleted (startTime d) /\ deleted (endTime d)).
Proof.
  cbv zeta. intros (d & Hd & Hs & _).
  unfold exec in Hd. rewrite handleConfirmStop_run in Hd. simpl in Hd.
  rewrite lookup_insert_eq in Hd. injection Hd as <-.
  discriminate Hs.
Qed.

(** C4 (amended): of the operations that return a table to 'available', the
    auto-expiry check deletes startTime and endTime from the record; the
    manual stop and the outgoing move of the first screen keep both fields
    and write 0 into them. *)
Theorem return_to_available_fields
    (tables : list Table) (w : World) (t : Table) (e : Z)
    (storeId : string) (tbl : Table) (wStop : World)
    (fromTable : Table) (listing : list Table) (toTableId : string)
    (wMove : World)
    (Hin : t ∈ tables) (Hdoc : is_Some (db w !! id t))
    (Hocc : status t = Some occupied)
    (Hend : endTime t = Some e) (Hset : e <> 0)
    (Hpast : e <= clock w (reads w))
    (Hto : toTableId <> "") (Hidle : loading wMove = false) :
  (exists d, db (exec (autoExpiryTick tables) w) !! id t = Some d /\
             status d = Some available /\
             deleted (startTime d) /\ deleted (endTime d)) /\
  (exists d, db (exec (Part000.handleConfirmStop storeId tbl) wStop) !! id tbl
               = Some d /\
             status d = Some available /\
             startTime d = Some 0 /\ endTime d = Some 0) /\
  (exists d, db (exec (Part000.handleMove fromTable listing toTableId) wMove)
               !! id fromTable = Some d /\
             status d = Some available /\
             startTime d = Some 0 /\ endTime d = Some 0).
Proof.
  split; [| split].
  - destruct Hdoc as [d0 Hd0]. exists (applyPatch expiryPatch d0).
    rewrite tick_lookup, Hd0.
    replace (existsb _ tables) with true; [done |].
    symmetry. apply stops_exists. exists t.
    repeat split; [done |]. by eapply expired_intro.
  - eexists. unfold exec. rewrite handleConfirmStop_run. simpl.
    rewrite lookup_insert_eq. done.
  - destruct (handleMove_writes fromTable listing toTableId wMove Hto Hidle)
      as (s & e' & dur & n & Hrun).
    eexists. unfold exec. rewrite Hrun. simpl. unfold moved.
    rewrite lookup_insert_eq. done.
Qed.

Lemma return_to_available_fields_witness :
  (exists d, db (exec (autoExpiryTick Sample.listing0)
                   (Sample.world Sample.store0 (Sample.T0 + 3600000)))
               !! "t2" = Some d /\ deleted (startTime d)) /\
  (exists d, db (exec (Part000.handleConfirmStop "toko"
                         (mkTable "t2" Sample.meja2)) Sample.w0)
               !! "t2" = Some d /\ startTime d = Some 0).
Proof.
  destruct (return_to_available_fields Sample.listing0
              (Sample.world Sample.store0 (Sample.T0 + 3600000))
              (mkTable "t2" Sample.meja2) (Sample.T0 + 3600000)
              "toko" (mkTable "t2" Sample.meja2) Sample.w0
              (mkTable "t2" Sample.meja2) Sample.listing0 "t1" Sample.w0)
    as ((d1 & H1 & _ & Hs1 & _) & (d2 & H2 & _ & Hs2 & _) & _).
  - apply list_elem_of_In. right. by left.
  - by eexists.
  - reflexivity.
  - reflexivity.
  - unfold Sample.T0. lia.
  - simpl. lia.
  - discriminate.
  - reflexivity.
  - split; [exists d1 | exists d2]; split; assumption.
Defined.

(** ** Checkout of the first screen *)

Section Payment000.

Import Part000.

Context (tables : list Table) (customerName : string).

Lemma forEach_frame {A T} (field : World -> T) (f : A -> M unit) :
  (forall x w, field (snd (f x w)) = field w) ->
  forall l w, field (snd (forEach f l w)) = field w.
Proof.
  intros Hf l. induction l as [|x r IH]; intros w; [done |].
  simpl. unfold bind. specialize (Hf x w).
  destruct (f x w) as [[[]|e] w']; simpl in *; [| done].
  by rewrite IH.
Qed.

Lemma remainingSeconds_world e w :
  exists r w', remainingSeconds e w = (Ok r, w') /\
               db w' = db w /\ clock w' = clock w /\ loading w' = loading w.
Proof.
  unfold remainingSeconds. destruct (truthyZ e); eexists _, _; done.
Qed.

Lemma commandLamp_frame tid w :
  db (snd (commandLamp tables tid w)) = db w /\
  clock (snd (commandLamp tables tid w)) = clock w /\
  loading (snd (commandLamp tables tid w)) = loading w.
Proof.
  unfold commandLamp, tryCatch, bind, getDoc.
  destruct (db w !! tid) as [tdata|]; [| done].
  destruct (bool_decide _); [| done].
  destruct (remainingSeconds_world (endTime tdata) w)
    as (r & w' & -> & Hdb & Hclk & Hld).
  done.
Qed.

Lemma Promise_all_world ps w : snd (Promise_all ps w) = w.
Proof. induction ps as [|[e|] r IH]; done. Qed.

Lemma newData_at now tbl item w :
  clockAt now w ->
  exists w', newData tbl item customerName w
             = (Ok (newDataAt now tbl item customerName), w') /\
             db w' = db w /\ clock w' = clock w /\ loading w' = loading w.
Proof.
  intros Hclk. unfold newData, newDataAt, orElseM, orZ.
  destruct (bool_decide (status tbl = Some occupied)).
  - destruct (endTime tbl) as [e|]; [destruct (e =? 0) |];
      unfold bind, Date_now, ret; simpl; rewrite ?Hclk;
      eexists; done.
  - unfold bind, Date_now, ret; simpl. rewrite !Hclk. eexists; done.
Qed.

Lemma newData_world tbl item w :
  exists p w', newData tbl item customerName w = (Ok p, w') /\
               db w' = db w /\ clock w' = clock w /\ loading w' = loading w.
Proof.
  unfold newData, orElseM.
  destruct (bool_decide (status tbl = Some occupied)).
  - destruct (endTime tbl) as [e|]; [destruct (e =? 0) |];
      unfold bind, Date_now, ret; simpl; eexists _, _; done.
  - unfold bind, Date_now, ret; simpl. eexists _, _; done.
Qed.

Lemma targets_inv tid item :
  targets tid item = true ->
  itemType item = table_item /\ truthyId (tableId item) = Some tid.
Proof.
  unfold targets. destruct (itemType item); [done |].
  destruct (truthyId (tableId item)) as [k|]; [| done].
  intros H. by apply String.eqb_eq in H as ->.
Qed.

Lemma processItem_world item w :
  exists rs w', processItem tables customerName item w = (Ok rs, w') /\
                clock w' = clock w /\ loading w' = loading w /\
                forall tid, targets tid item = false ->
                            db w' !! tid = db w !! tid.
Proof.
  unfold processItem, targets in *.
  destruct (itemType item); [by eexists _, _ |].
  destruct (truthyId (tableId item)) as [k|]; [| by eexists _, _].
  destruct (findTable k tables) as [tbl|]; [| by eexists _, _].
  destruct (newData_world tbl item w) as (p & w1 & Hnew & Hdb & Hclk & Hld).
  unfold bind. rewrite Hnew. unfold settle, tryCatch, bind, updateDoc.
  destruct (db w1 !! k) as [d|] eqn:Hk; simpl.
  - eexists _, _. split; [done |]. simpl. do 2 (split; [done |]).
    intros tid Hother. apply String.eqb_neq in Hother.
    by rewrite lookup_insert_ne, Hdb.
  - eexists _, _. split; [done |]. do 2 (split; [done |]).
    intros tid _. by rewrite Hdb.
Qed.

Lemma processItem_other tid item w :
  targets tid item = false ->
  exists rs w', processItem tables customerName item w = (Ok rs, w') /\
                db w' !! tid = db w !! tid /\ clock w' = clock w.
Proof.
  intros Hother.
  destruct (processItem_world item w) as (rs & w' & H & Hclk & _ & Hdb).
  eexists _, _. split; [done |]. split; [by apply Hdb | done].
Qed.

Lemma processCart_world cart w :
  exists rs w', processCart tables customerName cart w = (Ok rs, w') /\
                clock w' = clock w /\ loading w' = loading w.
Proof.
  revert w. induction cart as [|i r IH]; intros w; [by eexists _, _ |].
  destruct (processItem_world i w) as (rs1 & w1 & H1 & Hc1 & Hl1 & _).
  destruct (IH w1) as (rs2 & w2 & H2 & Hc2 & Hl2).
  simpl. unfold bind. rewrite H1, H2. eexists _, _.
  split; [done |]. split; congruence.
Qed.

(** The item for table [tid] writes the patch that [newData] builds. *)
Lemma processItem_target tid tbl item d w :
  targets tid item = true ->
  findTable tid tables = Some tbl ->
  db w !! tid = Some d ->
  exists p w1 w',
    newData tbl item customerName w = (Ok p, w1) /\
    processItem tables customerName item w = (Ok [None], w') /\
    db w' = <[tid := applyPatch p d]> (db w) /\
    clock w' = clock w.
Proof.
  intros Htgt Hfind Hdoc.
  destruct (targets_inv _ _ Htgt) as [Hty Hid].
  unfold processItem. rewrite Hty, Hid, Hfind.
  destruct (newData_world tbl item w) as (p & w1 & Hnew & Hdb & Hc & _).
  exists p, w1. unfold bind. rewrite Hnew.
  unfold settle, tryCatch, bind, updateDoc.
  rewrite Hdb, Hdoc. simpl. eexists. done.
Qed.

Lemma processCart_others tid cart w :
  Forall (fun i => targets tid i = false) cart ->
  exists rs w', processCart tables customerName cart w = (Ok rs, w') /\
                db w' !! tid = db w !! tid /\ clock w' = clock w.
Proof.
  intros Hall. revert w. induction Hall as [|i r Hi _ IH]; intros w.
  - eexists _, _. done.
  - destruct (processItem_other tid i w Hi) as (rs1 & w1 & H1 & Hdb1 & Hc1).
    destruct (IH w1) as (rs2 & w2 & H2 & Hdb2 & Hc2).
    simpl. unfold bind. rewrite H1, H2. eexists _, _.
    split; [done |]. by rewrite Hdb2, Hc2.
Qed.

Lemma processCart_target tid tbl item d pre post w :
  Forall (fun i => targets tid i = false) (pre ++ post) ->
  targets tid item = true ->
  findTable tid tables = Some tbl ->
  db w !! tid = Some d ->
  exists p w0 w1 rs w',
    clock w0 = clock w /\
    newData tbl item customerName w0 = (Ok p, w1) /\
    processCart tables customerName (pre ++ item :: post) w = (Ok rs, w') /\
    db w' !! tid = Some (applyPatch p d).
Proof.
  intros Hall Htgt Hfind Hdoc.
  apply Forall_app in Hall as [Hpre Hpost].
  revert w Hdoc. induction Hpre as [|i r Hi _ IH]; intros w Hdoc.
  - destruct (processItem_target tid tbl item d w Htgt Hfind Hdoc)
      as (p & w1 & w' & Hnew & H1 & Hdb1 & Hc1).
    destruct (processCart_others tid post w' Hpost) as (rs2 & w2 & H2 & Hdb2 & _).
    exists p, w, w1. simpl. unfold bind. rewrite H1, H2. eexists _, _.
    do 3 (split; [done |]).
    by rewrite Hdb2, Hdb1, lookup_insert_eq.
  - destruct (processItem_other tid i w Hi) as (rs1 & w1 & H1 & Hdb1 & Hc1).
    destruct (IH w1) as (p & w0 & w0' & rs2 & w2 & Hc0 & Hnew & H2 & Hdb2).
    { by rewrite Hdb1. }
    exists p, w0, w0'. simpl. unfold bind. simpl in H2. rewrite H1, H2.
    eexists _, _. split; [congruence |]. done.
Qed.

Lemma recordType_cons item rest :
  exists ty, recordType (item :: rest) = ret ty.
Proof.
  unfold recordType.
  destruct (existsb isTable (item :: rest) && existsb isProduct (item :: rest));
    by eexists.
Qed.

(** The world in which the cart is processed. *)
Lemma handleProcessPayment_db cart w :
  loading w = false ->
  result (handleProcessPayment cart tables customerName) w = Ok tt /\
  db (exec (handleProcessPayment cart tables customerName) w) =
  db (snd (processCart tables customerName cart
             (mkWorld (db w) (clock w) (S (reads w)) (lamp w) (console w)
                      (alerts w) true (closed w)))) /\
  clock (exec (handleProcessPayment cart tables customerName) w) = clock w /\
  loading (exec (handleProcessPayment cart tables customerName) w) = false.
Proof.
  intros Hld. destruct cart as [|item0 rest].
  { unfold result, exec, handleProcessPayment, bind, getLoading.
    by rewrite Hld. }
  unfold result, exec, handleProcessPayment.
  destruct (recordType_cons item0 rest) as [ty ->].
  remember (item0 :: rest) as cart eqn:Hcart. clear Hcart.
  unfold bind, getLoading.
  rewrite Hld. simpl. unfold finally, tryCatch, bind. simpl.
  destruct (processCart_world cart
              (mkWorld (db w) (clock w) (S (reads w)) (lamp w) (console w)
                       (alerts w) true (closed w)))
    as (rs & w1 & -> & Hc1 & _). simpl in Hc1. simpl.
  pose proof (Promise_all_world rs w1) as Hw.
  destruct (Promise_all rs w1) as [[[]|e] w2]; simpl in *; subst w2; [| done].
  pose proof (forEach_frame db (commandLamp tables)
                (fun x w => proj1 (commandLamp_frame x w))
                (cartTableIds cart) w1) as Hdb.
  pose proof (forEach_frame clock (commandLamp tables)
                (fun x w => proj1 (proj2 (commandLamp_frame x w)))
                (cartTableIds cart) w1) as Hclk.
  destruct (forEach _ _ w1) as [[[]|e] w3]; simpl in *;
    (split; [done |]; split; [done |]; split; [congruence | done]).
Qed.

(** The record of a table after a checkout whose cart holds one item for
    it: the stored record, patched with what [newData] builds for the
    listed row. *)
Lemma handleProcessPayment_item tid tbl item d pre post w :
  Forall (fun i => targets tid i = false) (pre ++ post) ->
  targets tid item = true ->
  findTable tid tables = Some tbl ->
  db w !! tid = Some d ->
  loading w = false ->
  let run := handleProcessPayment (pre ++ item :: post) tables customerName in
  exists p w0 w1,
    clock w0 = clock w /\
    newData tbl item customerName w0 = (Ok p, w1) /\
    result run w = Ok tt /\
    db (exec run w) !! tid = Some (applyPatch p d) /\
    clock (exec run w) = clock w /\
    loading (exec run w) = false.
Proof.
  intros Hall Htgt Hfind Hdoc Hld run. unfold run.
  destruct (handleProcessPayment_db (pre ++ item :: post) w Hld)
    as (Hok & -> & Hc & Hl).
  edestruct (processCart_target tid tbl item d pre post)
    as (p & w0 & w1 & rs & w' & Hc0 & Hnew & -> & H); eauto.
  exists p, w0, w1. done.
Qed.

(** A top-up reads no clock when the listed end time is set. *)
Lemma newData_topup (tbl : Table) item e w :
  status tbl = Some occupied -> endTime tbl = Some e -> e <> 0 ->
  newData tbl item customerName w =
  (Ok {| w_status := Keep;
         w_startTime := Keep;
         w_endTime := SetTo (e + orZ (itemDuration item) 60 * 60 * 1000);
         w_duration := SetTo (orZ (duration tbl) 0 + orZ (itemDuration item) 0);
         w_currentCustomer := Keep |}, w).
Proof.
  intros Hocc He He0. unfold newData, orElseM.
  rewrite (bool_decide_eq_true_2 _ Hocc), He.
  apply Z.eqb_neq in He0. by rewrite He0.
Qed.

End Payment000.

(** ** Checkout of the second screen *)

Section Payment001.

Import Part001.

Variable products : gmap string (option Z).
Variable customerName : string.

(** With a write in the buffer, a turn of the loop throws at a line that
    reads the store and does nothing at any other line. *)
Lemma checkoutItem_wrote item w :
  checkoutItem products customerName item true w =
  if readsStore item then (Throw ReadAfterWrite, w) else (Ok (tt, true), w).
Proof.
  unfold checkoutItem, readsStore.
  destruct (itemType item).
  - destruct (truthyId (productId item)) as [pid|]; [| done].
    by destruct (truthyB (isRecipe item)).
  - destruct (truthyId (tableId item)) as [tid|]; [| done].
    destruct (itemDuration item) as [dur|]; [| done].
    simpl. by destruct (dur =? 0).
Qed.

Lemma forEachT_wrote cart w :
  forEachT (checkoutItem products customerName) cart true w =
  if existsb readsStore cart then (Throw ReadAfterWrite, w)
  else (Ok (tt, true), w).
Proof.
  induction cart as [|item rest IH]; [done |].
  cbn [forEachT existsb]. unfold tbind, bind. rewrite checkoutItem_wrote.
  destruct (readsStore item); [done |]. cbn [orb fst snd]. apply IH.
Qed.

Lemma paid_accepts paymentMethod amountReceived cart :
  paid paymentMethod amountReceived cart ->
  match paymentMethod with
  | cash => amountReceived - cartTotal cart <? 0
  | qris => false
  end = false.
Proof.
  destruct paymentMethod; simpl; [| done]. intros H. apply Z.ltb_ge. lia.
Qed.

(** A checkout that passes the guards.  The transaction record is buffered
    first, so the first line of the cart that reads the store ends the
    transaction: nothing is committed and the failure is reported.  Only a
    cart without such a line is checked out. *)
Lemma handleCheckout_accepted cart paymentMethod amountReceived w :
  match paymentMethod with
  | cash => amountReceived - cartTotal cart <? 0
  | qris => false
  end = false ->
  handleCheckout true products cart customerName paymentMethod
    amountReceived w =
  (Ok tt,
   if existsb readsStore cart
   then mkWorld (db w) (clock w) (S (reads w)) (lamp w)
          (console w ++ [console_error ReadAfterWrite])%list
          (alerts w ++ ["Transaksi Gagal: " +:+ toString ReadAfterWrite])%list
          false (closed w)
   else mkWorld (db w) (clock w) (S (reads w)) (lamp w) (console w)
          (alerts w ++ ["Transaksi Berhasil!"])%list false true).
Proof.
  intros Hpay. unfold handleCheckout. cbn [negb]. rewrite Hpay.
  unfold bind, setLoading, finally, tryCatch, runTransaction, tbind, lift,
    bind, Date_now, transaction_write_outside, ret.
  cbn [fst snd db clock reads lamp console alerts loading closed].
  rewrite forEachT_wrote. by destruct (existsb readsStore cart).
Qed.

(** Whatever the cart and the payment, the checkout returns normally and
    leaves the tables and the lamps as they are. *)
Lemma handleCheckout_inert session cart paymentMethod amountReceived w :
  let run := handleCheckout session products cart customerName paymentMethod
               amountReceived in
  result run w = Ok tt /\
  db (exec run w) = db w /\ lamp (exec run w) = lamp w /\
  clock (exec run w) = clock w.
Proof.
  cbv zeta. destruct session; [| done].
  destruct (match paymentMethod with
            | cash => amountReceived - cartTotal cart <? 0
            | qris => false
            end) eqn:Hpay.
  - unfold result, exec, handleCheckout. cbn [negb]. by rewrite Hpay.
  - unfold result, exec. rewrite (handleCheckout_accepted _ _ _ _ Hpay).
    by destruct (existsb readsStore cart).
Qed.

(** A paid checkout of a cart with a line that reads the store. *)
Lemma handleCheckout_fails cart paymentMethod amountReceived w :
  paid paymentMethod amountReceived cart ->
  existsb readsStore cart = true ->
  let run := handleCheckout true products cart customerName paymentMethod
               amountReceived in
  alerted "Transaksi Gagal: " run w /\
  closed (exec run w) = closed w /\ loading (exec run w) = false /\
  console (exec run w) = (console w ++ [console_error ReadAfterWrite])%list.
Proof.
  intros Hpaid Hreads. cbv zeta. unfold alerted, exec.
  rewrite (handleCheckout_accepted _ _ _ _ (paid_accepts _ _ _ Hpaid)).
  rewrite Hreads. cbn [snd alerts closed loading console].
  split; [by eexists | done].
Qed.

End Payment001.

(** ** Claims on start and top-up *)

Section Rental.

Lemma targets_intro tid item :
  itemType item = table_item -> tableId item = Some tid -> tid <> "" ->
  targets tid item = true.
Proof.
  intros Hty Hid Hne. unfold targets, truthyId. rewrite Hty, Hid.
  apply String.eqb_neq in Hne. rewrite Hne. apply String.eqb_refl.
Qed.

Lemma readsStore_intro tid item minutes pre post :
  itemType item = table_item -> tableId item = Some tid -> tid <> "" ->
  itemDuration item = Some minutes -> minutes <> 0 ->
  existsb readsStore (pre ++ item :: post) = true.
Proof.
  intros Hty Hid Hne Hdur Hmin. rewrite existsb_app. cbn [existsb].
  unfold readsStore, truthyId, truthyZ. rewrite Hty, Hid, Hdur.
  apply String.eqb_neq in Hne. apply Z.eqb_neq in Hmin. rewrite Hne, Hmin.
  cbn [negb orb]. apply orb_true_r.
Qed.

Lemma orZ_set n d : n <> 0 -> orZ (Some n) d = n.
Proof. intros H. unfold orZ. apply Z.eqb_neq in H. by rewrite H. Qed.

Lemma orZ_falsy v d : truthyZ v = false -> orZ v d = d.
Proof.
  unfold truthyZ, orZ. destruct v as [n|]; [| done].
  by destruct (n =? 0).
Qed.

(** In the first screen the two readings of the clock of a start may
    differ; the rental then lasts the paid time plus the difference. *)
Lemma newData_start (tbl : Table) item customerName w :
  status tbl <> Some occupied ->
  fst (Part000.newData tbl item customerName w) =
  Ok {| w_status := SetTo occupied;
        w_startTime := SetTo (clock w (reads w));
        w_endTime := SetTo (clock w (S (reads w))
                            + orZ (itemDuration item) 60 * 60 * 1000);
        w_duration := SetTo (orZ (itemDuration item) 60);
        w_currentCustomer := SetTo customerName |}.
Proof.
  intros Hst. unfold Part000.newData.
  by rewrite (bool_decide_eq_false_2 _ Hst).
Qed.

(** For a row that the listing shows occupied the first screen builds a
    write of the end time and the duration and of nothing else. *)
Lemma newData_keeps (tbl : Table) item customerName w :
  status tbl = Some occupied ->
  exists p w', Part000.newData tbl item customerName w = (Ok p, w') /\
               w_status p = Keep /\ w_startTime p = Keep /\
               w_currentCustomer p = Keep.
Proof.
  intros Hocc. unfold Part000.newData, orElseM.
  rewrite (bool_decide_eq_true_2 _ Hocc).
  destruct (endTime tbl) as [e|]; [destruct (e =? 0) |];
    do 2 eexists; (split; [reflexivity | done]).
Qed.

(** The checkout of a single line for a table that the listing and the
    store show occupied. *)
Lemma topup_single (tables : list Table) (tbl : Table) (item : CartItem)
    (customerName tid : string) (minutes now e : Z) (d : TableData) (w : World) :
  itemType item = table_item -> tableId item = Some tid -> tid <> "" ->
  itemDuration item = Some minutes -> 0 < minutes ->
  findTable tid tables = Some tbl -> status tbl = Some occupied ->
  endTime tbl = Some e -> 0 < e ->
  db w !! tid = Some d -> status d = Some occupied ->
  clockAt now w -> loading w = false ->
  let run := Part000.handleProcessPayment [item] tables customerName in
  let r := applyPatch (topupPatch000 item e tbl) d in
  db (exec run w) = <[tid := r]> (db w) /\
  lamp (exec run w) =
    (lamp w ++ [TABLE_LAMP_URL (deriveTableNumber (name d) (findIndex tid tables))
                  on (Some (Z.max 0 (ceilDiv (e + minutes * 60000 - now) 1000)))])%list /\
  clock (exec run w) = clock w.
Proof.
  intros Hty Hid Htid Hdur Hpos Hrow Hocc Hend He Hdoc Hstored Hclk Hidle run r.
  subst run r. apply String.eqb_neq in Htid.
  assert ((minutes =? 0) = false) as Hm by (apply Z.eqb_neq; lia).
  assert ((e =? 0) = false) as He0 by (apply Z.eqb_neq; lia).
  assert ((e + minutes * 60 * 1000 =? 0) = false) as He1
    by (apply Z.eqb_neq; lia).
  unfold exec, Part000.handleProcessPayment, bind, getLoading.
  rewrite Hidle. simpl.
  unfold finally, tryCatch, bind, Part000.recordType, Part000.isTable,
    Part000.isProduct, Part000.processItem, Part000.cartTableIds. simpl.
  rewrite Hty, Hid. simpl. rewrite Htid, Hrow. simpl.
  unfold Part000.newData, topupPatch000, orElseM. rewrite Hocc, Hend, Hdur.
  simpl. rewrite Hm, He0. simpl.
  unfold bind, settle, tryCatch, bind, updateDoc. simpl.
  rewrite Hdoc. simpl.
  unfold Part000.commandLamp, tryCatch, bind, getDoc. simpl.
  rewrite lookup_insert_eq. simpl. rewrite Hstored. simpl.
  unfold remainingSeconds, truthyZ, orZ, bind. simpl.
  rewrite He1. simpl. rewrite !Hclk.
  replace (e + minutes * 60 * 1000 - now) with (e + minutes * 60000 - now)
    by lia.
  done.
Qed.

Context (tables : list Table) (customerName tid : string)
        (item : CartItem) (pre post : list CartItem).

Hypothesis Hothers : Forall (fun i => targets tid i = false) (pre ++ post).
Hypothesis Htgt : targets tid item = true.

(** *** Start *)

Lemma start_000 (tbl : Table) minutes now d w :
  itemDuration item = Some minutes -> 0 < minutes ->
  findTable tid tables = Some tbl -> status tbl = Some available ->
  db w !! tid = Some d ->
  clockAt now w -> loading w = false ->
  let run := Part000.handleProcessPayment (pre ++ item :: post) tables
               customerName in
  result run w = Ok tt /\
  clock (exec run w) = clock w /\ loading (exec run w) = false /\
  exists r, db (exec run w) !! tid = Some r /\
            startedAt now minutes customerName r /\
            name r = name d /\ costPerHour r = costPerHour d.
Proof.
  intros Hdur Hpos Hrow Hfree Hdoc Hclk Hidle run. unfold run.
  assert (minutes <> 0) as Hne by lia.
  destruct (handleProcessPayment_item tables customerName tid tbl item d
              pre post w Hothers Htgt Hrow Hdoc Hidle)
    as (p & wa & wb & Hca & Hnew & Hok & Hdb & Hc & Hl).
  assert (clockAt now wa) as Hclka by (intros n; by rewrite Hca).
  destruct (newData_at customerName now tbl item wa Hclka)
    as (wb' & Hnew' & _).
  rewrite Hnew in Hnew'. injection Hnew' as -> _.
  do 3 (split; [done |]).
  eexists. split; [exact Hdb |].
  unfold newDataAt, startedAt. rewrite Hfree, Hdur.
  rewrite !(orZ_set _ _ Hne). simpl.
  repeat split; f_equal; lia.
Qed.

(** *** Top-up *)

Lemma topup_000 (tbl : Table) e d w :
  findTable tid tables = Some tbl ->
  status tbl = Some occupied -> endTime tbl = Some e -> e <> 0 ->
  db w !! tid = Some d ->
  loading w = false ->
  let run := Part000.handleProcessPayment (pre ++ item :: post) tables
               customerName in
  result run w = Ok tt /\
  db (exec run w) !! tid = Some (applyPatch (topupPatch000 item e tbl) d).
Proof.
  intros Hrow Hocc Hend Hset Hdoc Hidle run. unfold run.
  destruct (handleProcessPayment_item tables customerName tid tbl item d
              pre post w Hothers Htgt Hrow Hdoc Hidle)
    as (p & wa & wb & Hca & Hnew & Hok & Hdb & _).
  rewrite (newData_topup customerName tbl item e wa Hocc Hend Hset) in Hnew.
  injection Hnew as <- _. done.
Qed.

(** The first screen writes the end time and the duration of a table the
    listing shows occupied, and nothing else of its record. *)
Lemma topup_frame_000 (tbl : Table) d w :
  findTable tid tables = Some tbl ->
  status tbl = Some occupied ->
  db w !! tid = Some d ->
  loading w = false ->
  exists r,
    db (exec (Part000.handleProcessPayment (pre ++ item :: post) tables
                customerName) w) !! tid = Some r /\
    status r = status d /\ startTime r = startTime d /\
    currentCustomer r = currentCustomer d /\
    costPerHour r = costPerHour d /\ name r = name d /\
    remoteUrl r = remoteUrl d /\
    remoteOn r = remoteOn d /\ remoteOff r = remoteOff d /\
    remoteToggle r = remoteToggle d.
Proof.
  intros Hrow Hocc Hdoc Hidle.
  destruct (handleProcessPayment_item tables customerName tid tbl item d
              pre post w Hothers Htgt Hrow Hdoc Hidle)
    as (p & wa & wb & Hca & Hnew & Hok & Hdb & _).
  destruct (newData_keeps tbl item customerName wa Hocc)
    as (p' & wb' & Hnew' & Hst & Hs & Hc).
  rewrite Hnew in Hnew'. injection Hnew' as <- _.
  eexists. split; [exact Hdb |].
  unfold applyPatch. cbn. rewrite Hst, Hs, Hc. repeat split.
Qed.

End Rental.

(** C5 holds of the first screen and fails in the second.  In the first
    screen a Start on a table that the listing shows 'available', with
    durationMinutes > 0, made at time now, leaves the table's record with
    startTime = now, endTime = now + durationMinutes*60000,
    duration = durationMinutes, currentCustomer the name given and status
    'occupied'; so endTime - startTime = durationMinutes*60000.  In the
    second screen the same Start starts nothing: the transaction buffers
    the transaction record and then reads the table, which the SDK refuses,
    so the handler reports the failure and the table's record stays as it
    was. *)
Theorem start_rental (tables : list Table) (tbl : Table) (item : CartItem)
    (pre post : list CartItem) (customerName tid : string)
    (durationMinutes now : Z) (d : TableData) (w : World)
    (products : gmap string (option Z))
    (paymentMethod : Part001.PaymentMethod) (amountReceived : Z)
    (Hothers : Forall (fun i => targets tid i = false) (pre ++ post))
    (Htype : itemType item = table_item)
    (Hid : tableId item = Some tid) (Htid : tid <> "")
    (Hdur : itemDuration item = Some durationMinutes)
    (Hpos : 0 < durationMinutes)
    (Hrow : findTable tid tables = Some tbl)
    (Hfree : status tbl = Some available)
    (Hdoc : db w !! tid = Some d)
    (Hclk : clockAt now w) (Hidle : loading w = false)
    (Hpaid : paid paymentMethod amountReceived (pre ++ item :: post)) :
  let cart := (pre ++ item :: post)%list in
  let w0 := exec (Part000.handleProcessPayment cart tables customerName) w in
  let run1 := Part001.handleCheckout true products cart customerName
                paymentMethod amountReceived in
  (exists r, db w0 !! tid = Some r /\
             startedAt now durationMinutes customerName r /\
             (forall s e, startTime r = Some s -> endTime r = Some e ->
                          e - s = durationMinutes * 60000)) /\
  (result run1 w = Ok tt /\
   db (exec run1 w) = db w /\
   db (exec run1 w) !! tid = Some d /\
   lamp (exec run1 w) = lamp w /\
   alerted "Transaksi Gagal: " run1 w /\
   closed (exec run1 w) = closed w).
Proof.
  intros cart w0 run1. subst cart w0 run1.
  pose proof (targets_intro tid item Htype Hid Htid) as Htgt.
  split.
  - destruct (start_000 tables customerName tid item pre post Hothers Htgt
                tbl durationMinutes now d w Hdur Hpos Hrow Hfree Hdoc Hclk Hidle)
      as (_ & _ & _ & r & Hr & Hstarted & _).
    exists r. split; [done |]. split; [done |].
    destruct Hstarted as (_ & Hs & He & _).
    intros s e Hs' He'. rewrite Hs in Hs'. rewrite He in He'.
    injection Hs' as <-. injection He' as <-. lia.
  - destruct (handleCheckout_inert products customerName true
                (pre ++ item :: post) paymentMethod amountReceived w)
      as (Hok & Hdb & Hlamp & _).
    destruct (handleCheckout_fails products customerName
                (pre ++ item :: post) paymentMethod amountReceived w Hpaid)
      as (Halert & Hclosed & _).
    { apply (readsStore_intro tid item durationMinutes); [done .. | lia]. }
    split; [exact Hok |]. split; [exact Hdb |].
    split; [by rewrite Hdb |]. done.
Qed.

Lemma start_rental_witness :
  (exists r,
     db (exec (Part000.handleProcessPayment [Sample.rent "t1" 60]
                 Sample.listing0 "Ani") Sample.w0) !! "t1" = Some r /\
     startedAt (Sample.T0 + 600000) 60 "Ani" r) /\
  db (exec (Part001.handleCheckout true ∅ [Sample.rent "t1" 60] "Ani"
              Part001.cash 10000) Sample.w0) !! "t1" = Some Sample.meja1.
Proof.
  destruct (start_rental Sample.listing0 (mkTable "t1" Sample.meja1)
              (Sample.rent "t1" 60) [] [] "Ani" "t1" 60 (Sample.T0 + 600000)
              Sample.meja1 Sample.w0 ∅ Part001.cash 10000)
    as ((r & Hr & Hstarted & _) & (_ & _ & Hkept & _)).
  - constructor.
  - reflexivity.
  - reflexivity.
  - discriminate.
  - reflexivity.
  - lia.
  - reflexivity.
  - reflexivity.
  - reflexivity.
  - intros n. reflexivity.
  - reflexivity.
  - simpl. unfold Part001.cartTotal. simpl. lia.
  - split; [| exact Hkept]. exists r. split; assumption.
Defined.

(** A top-up from a row that is behind the store: the store holds "Meja 2"
    with 90 minutes, ending at T0 + 5400000, the listing still shows 60
    minutes, ending at T0 + 3600000.  A top-up of 15 minutes writes
    T0 + 4500000 and 75 minutes: the rental ends earlier than before. *)
Lemma topup_from_stale_row :
  let w := Sample.world (<["t2" := Sample.meja2Extended]> Sample.store0)
             (Sample.T0 + 600000) in
  let run := Part000.handleProcessPayment [Sample.rent "t2" 15]
               Sample.listing0 "Ani" in
  (db w !! "t2" ≫= endTime) = Some (Sample.T0 + 5400000) /\
  (db (exec run w) !! "t2" ≫= endTime) = Some (Sample.T0 + 4500000) /\
  (db (exec run w) !! "t2" ≫= duration) = Some 75.
Proof. vm_compute. repeat split. Qed.

(** C6 holds of the first screen, as far as the listing is current, and
    fails in the second.  In the first screen a top-up of extraMinutes > 0
    on a table that the listing shows 'occupied' with end time endTime
    writes endTime + extraMinutes*60000 as the end time and
    duration + extraMinutes as the duration, endTime and duration being
    those of the listing row; they add to the stored values when the row
    shows them.  A Start of 30 minutes at time now followed, on a refreshed
    listing, by a top-up of 15 minutes leaves duration 45 and end time
    now + 45*60000, the start time still being now.  In the second screen a
    top-up changes nothing: the transaction fails at its first read and the
    handler reports the failure. *)
Theorem topup_additive (tables : list Table) (tbl : Table) (item : CartItem)
    (pre post : list CartItem) (customerName tid : string)
    (extraMinutes e : Z) (d : TableData) (w : World)
    (products : gmap string (option Z))
    (paymentMethod : Part001.PaymentMethod) (amountReceived : Z)
    (Hothers : Forall (fun i => targets tid i = false) (pre ++ post))
    (Htype : itemType item = table_item)
    (Hid : tableId item = Some tid) (Htid : tid <> "")
    (Hdur : itemDuration item = Some extraMinutes)
    (Hpos : 0 < extraMinutes)
    (Hrow : findTable tid tables = Some tbl)
    (Hdoc : db w !! tid = Some d)
    (Hocc : status tbl = Some occupied)
    (Hend : endTime tbl = Some e) (Hset : e <> 0)
    (Hidle : loading w = false)
    (Hpaid : paid paymentMethod amountReceived (pre ++ item :: post)) :
  let cart := (pre ++ item :: post)%list in
  let w0 := exec (Part000.handleProcessPayment cart tables customerName) w in
  let run1 := Part001.handleCheckout true products cart customerName
                paymentMethod amountReceived in
  (exists r, db w0 !! tid = Some r /\
             endTime r = Some (e + extraMinutes * 60000) /\
             duration r = Some (orZ (duration tbl) 0 + extraMinutes) /\
             (endTime d = endTime tbl ->
              orZ (duration d) 0 = orZ (duration tbl) 0 ->
              endTime r = Some (orZ (endTime d) 0 + extraMinutes * 60000) /\
              duration r = Some (orZ (duration d) 0 + extraMinutes))) /\
  (result run1 w = Ok tt /\
   db (exec run1 w) = db w /\
   db (exec run1 w) !! tid = Some d /\
   alerted "Transaksi Gagal: " run1 w /\
   closed (exec run1 w) = closed w) /\
  (* Start(table, 30) then Top-up(table, 15), first screen *)
  (forall (listing : list Table) (row : Table) (d0 : TableData) (wS : World)
          (now : Z) (name0 name1 : string),
     findTable tid listing = Some row -> status row = Some available ->
     db wS !! tid = Some d0 ->
     clockAt now wS -> loading wS = false -> 0 < now ->
     let wA := exec (Part000.handleProcessPayment [Sample.rent tid 30]
                       listing name0) wS in
     forall (listing' : list Table) (row' : Table),
       findTable tid listing' = Some row' ->
       db wA !! tid = Some (data row') ->
       let wB := exec (Part000.handleProcessPayment [Sample.rent tid 15]
                         listing' name1) wA in
       exists r, db wB !! tid = Some r /\ duration r = Some 45 /\
                 startTime r = Some now /\
                 endTime r = Some (now + 45 * 60000)).
Proof.
  intros cart w0 run1. subst cart w0 run1.
  pose proof (targets_intro tid item Htype Hid Htid) as Htgt.
  assert (extraMinutes <> 0) as Hne by lia.
  split; [| split].
  - destruct (topup_000 tables customerName tid item pre post Hothers Htgt
                tbl e d w Hrow Hocc Hend Hset Hdoc Hidle) as [_ Hdb].
    unfold topupPatch000 in Hdb. rewrite Hdur, !(orZ_set _ _ Hne) in Hdb.
    eexists. split; [exact Hdb |]. simpl.
    split; [f_equal; lia |]. split; [done |].
    intros He Hd. rewrite He, Hend, (orZ_set _ _ Hset), Hd.
    split; [f_equal; lia | done].
  - destruct (handleCheckout_inert products customerName true
                (pre ++ item :: post) paymentMethod amountReceived w)
      as (Hok & Hdb & _).
    destruct (handleCheckout_fails products customerName
                (pre ++ item :: post) paymentMethod amountReceived w Hpaid)
      as (Halert & Hclosed & _).
    { by apply (readsStore_intro tid item extraMinutes). }
    split; [exact Hok |]. split; [exact Hdb |].
    split; [by rewrite Hdb |]. done.
  - intros listing row d0 wS now name0 name1
           Hrow0 Hfree0 Hdoc0 Hclk0 Hidle0 Hnow.
    assert (targets tid (Sample.rent tid 30) = true) as Ht30
      by (by apply targets_intro).
    assert (targets tid (Sample.rent tid 15) = true) as Ht15
      by (by apply targets_intro).
    assert (now + 30 * 60000 <> 0) as He30 by lia.
    destruct (start_000 listing name0 tid (Sample.rent tid 30) [] []
                (List.Forall_nil _) Ht30 row 30 now d0 wS
                eq_refl ltac:(lia) Hrow0 Hfree0 Hdoc0 Hclk0 Hidle0)
      as (_ & HcA & HlA & r1 & Hr1 & (Hs1 & Hst1 & He1 & Hd1 & _) & _).
    simpl in HcA, HlA, Hr1. cbv zeta.
    intros listing' row' Hrow' Hsync'.
    simpl in Hsync'. rewrite Hr1 in Hsync'. injection Hsync' as Hsync'.
    destruct (topup_000 listing' name1 tid (Sample.rent tid 15) [] []
                (List.Forall_nil _) Ht15 row' (now + 30 * 60000) r1 _
                Hrow' ltac:(by rewrite <- Hsync')
                ltac:(by rewrite <- Hsync') He30 Hr1 HlA) as [_ Hdb].
    simpl in Hdb. eexists. split; [exact Hdb |].
    simpl. rewrite <- Hsync', Hd1, Hst1. simpl.
    repeat split; f_equal; lia.
Qed.

Lemma topup_additive_witness :
  (exists r,
     db (exec (Part000.handleProcessPayment [Sample.rent "t2" 15]
                 Sample.listing0 "Ani") Sample.w0) !! "t2" = Some r /\
     endTime r = Some (Sample.T0 + 3600000 + 15 * 60000) /\
     duration r = Some (60 + 15)) /\
  db (exec (Part001.handleCheckout true ∅ [Sample.rent "t2" 15] "Ani"
              Part001.cash 10000) Sample.w0) !! "t2" = Some Sample.meja2.
Proof.
  destruct (topup_additive Sample.listing0 (mkTable "t2" Sample.meja2)
              (Sample.rent "t2" 15) [] [] "Ani" "t2" 15
              (Sample.T0 + 3600000) Sample.meja2 Sample.w0 ∅
              Part001.cash 10000)
    as ((r & Hr & He & Hd & _) & (_ & _ & Hkept & _) & _).
  - constructor.
  - reflexivity.
  - reflexivity.
  - discriminate.
  - reflexivity.
  - lia.
  - reflexivity.
  - reflexivity.
  - reflexivity.
  - reflexivity.
  - discriminate.
  - reflexivity.
  - simpl. unfold Part001.cartTotal. simpl. lia.
  - split; [| exact Hkept]. exists r. repeat split; assumption.
Defined.

(** C1, as stated, fails: a checkout for a table that is 'occupied' is not
    rejected; it rewrites the table's record and sends a lamp command. *)
Lemma start_on_occupied_counterexample :
  (db Sample.w0 !! "t2" ≫= status) = Some occupied /\
  ~ rejected (Part000.handleProcessPayment [Sample.rent "t2" 15]
                Sample.listing0 "Ani") Sample.w0.
Proof.
  split; [reflexivity |].
  intros [_ Hlamp]. vm_compute in Hlamp. discriminate Hlamp.
Qed.

(** C1 (amended): no request is rejected for the state of the table; there
    is no invalid-transition error.  For a table that is 'occupied' in the
    store, the first screen decides by the row of its listing.  If the row
    shows the table occupied, the checkout is carried out as a top-up: the
    end time of the row is moved on by the minutes bought and the duration
    raised, and for a cart of this line alone a lamp 'on' command follows.
    If the row still shows the table available, the checkout is carried out
    as a Start, and the rental in the store is written over.  In both cases
    the handler returns normally.  The second screen's checkout of a table
    line fails whatever the state of the table, as it does for every table
    line: nothing is written, no lamp is commanded and the failure is
    reported.  A confirmed Stop of a table that is 'available' in the store
    writes the reset values to its record all the same, returns normally
    and sends no lamp command. *)
Theorem invalid_transitions_carried_out
    (tables : list Table) (tbl : Table) (item : CartItem)
    (pre post : list CartItem) (customerName tid : string)
    (minutes now : Z) (d : TableData) (w : World)
    (products : gmap string (option Z))
    (paymentMethod : Part001.PaymentMethod) (amountReceived : Z)
    (storeId : string) (stopped : Table) (dStop : TableData) (wStop : World)
    (Hothers : Forall (fun i => targets tid i = false) (pre ++ post))
    (Htype : itemType item = table_item)
    (Hid : tableId item = Some tid) (Htid : tid <> "")
    (Hdur : itemDuration item = Some minutes) (Hmin : 0 < minutes)
    (Hrow : findTable tid tables = Some tbl)
    (Hdoc : db w !! tid = Some d)
    (Hbusy : status d = Some occupied)
    (Hclk : clockAt now w) (Hidle : loading w = false)
    (Hpaid : paid paymentMethod amountReceived (pre ++ item :: post))
    (Hstored : db wStop !! id stopped = Some dStop)
    (Hfree : status dStop = Some available) :
  let cart := (pre ++ item :: post)%list in
  let start0 := Part000.handleProcessPayment cart tables customerName in
  let start1 := Part001.handleCheckout true products cart customerName
                  paymentMethod amountReceived in
  let stop := Part000.handleConfirmStop storeId stopped in
  result start0 w = Ok tt /\
  (forall e, status tbl = Some occupied -> endTime tbl = Some e -> e <> 0 ->
     exists r, db (exec start0 w) !! tid = Some r /\
               endTime r = Some (e + minutes * 60000) /\
               duration r = Some (orZ (duration tbl) 0 + minutes) /\
               status r = Some occupied /\
               startTime r = startTime d /\
               currentCustomer r = currentCustomer d) /\
  (forall e, pre = [] -> post = [] ->
     status tbl = Some occupied -> endTime tbl = Some e -> 0 < e ->
     lamp (exec start0 w) =
       (lamp w ++
        [TABLE_LAMP_URL (deriveTableNumber (name d) (findIndex tid tables)) on
           (Some (Z.max 0 (ceilDiv (e + minutes * 60000 - now) 1000)))])%list) /\
  (status tbl = Some available ->
     exists r, db (exec start0 w) !! tid = Some r /\
               startedAt now minutes customerName r) /\
  (result start1 w = Ok tt /\
   db (exec start1 w) = db w /\
   lamp (exec start1 w) = lamp w /\
   alerted "Transaksi Gagal: " start1 w) /\
  (result stop wStop = Ok tt /\
   (exists r, db (exec stop wStop) !! id stopped = Some r /\
              status r = Some available /\
              startTime r = Some 0 /\ endTime r = Some 0 /\
              duration r = Some 0 /\ currentCustomer r = Some "" /\
              (deleted (startTime dStop) -> r <> dStop)) /\
   lamp (exec stop wStop) = lamp wStop).
Proof.
  intros cart start0 start1 stop. subst cart start0 start1 stop.
  pose proof (targets_intro tid item Htype Hid Htid) as Htgt.
  assert (minutes <> 0) as Hne by lia.
  split.
  { by destruct (handleProcessPayment_db tables customerName
                   (pre ++ item :: post) w Hidle). }
  split.
  { intros e Hocc Hend Hset.
    destruct (topup_000 tables customerName tid item pre post Hothers Htgt
                tbl e d w Hrow Hocc Hend Hset Hdoc Hidle) as [_ Hdb].
    unfold topupPatch000 in Hdb. rewrite Hdur, !(orZ_set _ _ Hne) in Hdb.
    eexists. split; [exact Hdb |]. simpl.
    split; [f_equal; lia |]. done. }
  split.
  { intros e -> -> Hocc Hend He.
    by destruct (topup_single tables tbl item customerName tid minutes now e
                   d w Htype Hid Htid Hdur Hmin Hrow Hocc Hend He Hdoc Hbusy
                   Hclk Hidle) as (_ & Hlamp & _). }
  split.
  { intros Hfree0.
    destruct (start_000 tables customerName tid item pre post Hothers Htgt
                tbl minutes now d w Hdur Hmin Hrow Hfree0 Hdoc Hclk Hidle)
      as (_ & _ & _ & r & Hr & Hstarted & _).
    by exists r. }
  split.
  { destruct (handleCheckout_inert products customerName true
                (pre ++ item :: post) paymentMethod amountReceived w)
      as (Hok & Hdb & Hlamp & _).
    destruct (handleCheckout_fails products customerName
                (pre ++ item :: post) paymentMethod amountReceived w Hpaid)
      as (Halert & _).
    { by apply (readsStore_intro tid item minutes). }
    done. }
  unfold result, exec. rewrite handleConfirmStop_run. simpl.
  split; [done |]. split; [| done].
  rewrite lookup_insert_eq, Hstored. eexists. split; [reflexivity |].
  simpl. do 5 (split; [reflexivity |]).
  intros Hdel E. rewrite <- E in Hdel. discriminate Hdel.
Qed.

Lemma invalid_transitions_carried_out_witness :
  (exists r,
     db (exec (Part000.handleProcessPayment [Sample.rent "t2" 15]
                 Sample.listing0 "Ani") Sample.w0) !! "t2" = Some r /\
     endTime r = Some (Sample.T0 + 3600000 + 15 * 60000)) /\
  (exists r,
     db (exec (Part000.handleConfirmStop "toko" (mkTable "t1" Sample.meja1))
           Sample.w0) !! "t1" = Some r /\ startTime r = Some 0).
Proof.
  destruct (invalid_transitions_carried_out
              Sample.listing0 (mkTable "t2" Sample.meja2)
              (Sample.rent "t2" 15) [] [] "Ani" "t2" 15
              (Sample.T0 + 600000) Sample.meja2 Sample.w0 ∅
              Part001.cash 10000
              "toko" (mkTable "t1" Sample.meja1) Sample.meja1 Sample.w0)
    as (_ & Htop & _ & _ & _ & _ & (r2 & Hr2 & _ & Hs2 & _) & _).
  - constructor.
  - reflexivity.
  - reflexivity.
  - discriminate.
  - reflexivity.
  - lia.
  - reflexivity.
  - reflexivity.
  - reflexivity.
  - intros n. reflexivity.
  - reflexivity.
  - simpl. unfold Part001.cartTotal. simpl. lia.
  - reflexivity.
  - reflexivity.
  - destruct (Htop (Sample.T0 + 3600000) eq_refl eq_refl)
      as (r & Hr & He & _); [discriminate |].
    split; [exists r | exists r2]; split; assumption.
Defined.

(** ** Frame of a top-up *)

(** C7: a top-up changes the end time and the duration of the table's
    record and nothing else.  In the first screen the checkout of a line
    for a table that the listing shows 'occupied' leaves status, startTime,
    currentCustomer and costPerHour of the stored record, and its name and
    remote URLs, as they were.  In the second screen the checkout changes
    no table at all. *)
Theorem topup_frame (tables : list Table) (tbl : Table) (item : CartItem)
    (pre post : list CartItem) (customerName tid : string)
    (d : TableData) (w : World)
    (session : bool) (products : gmap string (option Z))
    (paymentMethod : Part001.PaymentMethod) (amountReceived : Z)
    (Hothers : Forall (fun i => targets tid i = false) (pre ++ post))
    (Htype : itemType item = table_item)
    (Hid : tableId item = Some tid) (Htid : tid <> "")
    (Hrow : findTable tid tables = Some tbl)
    (Hocc : status tbl = Some occupied)
    (Hdoc : db w !! tid = Some d)
    (Hidle : loading w = false) :
  let cart := (pre ++ item :: post)%list in
  let w0 := exec (Part000.handleProcessPayment cart tables customerName) w in
  let w1 := exec (Part001.handleCheckout session products cart customerName
                    paymentMethod amountReceived) w in
  (exists r, db w0 !! tid = Some r /\
             status r = status d /\ startTime r = startTime d /\
             currentCustomer r = currentCustomer d /\
             costPerHour r = costPerHour d /\ name r = name d /\
             remoteUrl r = remoteUrl d /\ remoteOn r = remoteOn d /\
             remoteOff r = remoteOff d /\ remoteToggle r = remoteToggle d) /\
  (exists r, db w1 !! tid = Some r /\
             status r = status d /\ startTime r = startTime d /\
             currentCustomer r = currentCustomer d /\
             costPerHour r = costPerHour d /\
             endTime r = endTime d /\ duration r = duration d).
Proof.
  intros cart w0 w1. subst cart w0 w1.
  pose proof (targets_intro tid item Htype Hid Htid) as Htgt.
  split.
  - exact (topup_frame_000 tables customerName tid item pre post Hothers Htgt
             tbl d w Hrow Hocc Hdoc Hidle).
  - destruct (handleCheckout_inert products customerName session
                (pre ++ item :: post) paymentMethod amountReceived w)
      as (_ & Hdb & _).
    exists d. by rewrite Hdb.
Qed.

Lemma topup_frame_witness :
  exists r,
    db (exec (Part000.handleProcessPayment [Sample.rent "t2" 15]
                Sample.listing0 "Ani") Sample.w0) !! "t2" = Some r /\
    currentCustomer r = Some "Budi" /\ startTime r = Some Sample.T0.
Proof.
  destruct (topup_frame Sample.listing0 (mkTable "t2" Sample.meja2)
              (Sample.rent "t2" 15) [] [] "Ani" "t2" Sample.meja2 Sample.w0
              true ∅ Part001.cash 10000)
    as ((r & Hr & _ & Hs & Hc & _) & _).
  - constructor.
  - reflexivity.
  - reflexivity.
  - discriminate.
  - reflexivity.
  - reflexivity.
  - reflexivity.
  - reflexivity.
  - exists r. split; [exact Hr |]. split; [exact Hc | exact Hs].
Defined.

(** * Further results *)

(** ** The tables subscription *)

Section ListenerFacts.

Import Listener.

Lemma lampOn_run num (t : Table) w :
  exists dur w', lampOn num t w = (Ok tt, w') /\
    db w' = db w /\ clock w' = clock w /\
    lamp w' = (lamp w ++ [TABLE_LAMP_URL num on dur])%list /\
    console w' = console w /\ alerts w' = alerts w.
Proof.
  unfold lampOn, remainingSeconds, bind.
  destruct (truthyZ (endTime t)); simpl; eexists _, _; done.
Qed.

(** What a row makes the handler send: nothing, or one command. *)
Lemma diffRow_run prevTables i t w :
  exists cmds w', diffRow prevTables i t w = (Ok tt, w') /\
    db w' = db w /\ clock w' = clock w /\
    lamp w' = (lamp w ++ cmds)%list /\
    console w' = console w /\ alerts w' = alerts w /\
    (length cmds <= 1)%nat /\
    Forall (fun c => channel c = deriveTableNumber (name t) i) cmds.
Proof.
  unfold diffRow.
  assert (exists cmds w', lampOn (deriveTableNumber (name t) i) t w = (Ok tt, w') /\
    db w' = db w /\ clock w' = clock w /\
    lamp w' = (lamp w ++ cmds)%list /\
    console w' = console w /\ alerts w' = alerts w /\
    (length cmds <= 1)%nat /\
    Forall (fun c => channel c = deriveTableNumber (name t) i) cmds) as Hon.
  { destruct (lampOn_run (deriveTableNumber (name t) i) t w)
      as (dur & w' & -> & ? & ? & ? & ? & ?).
    eexists [_], w'. repeat split; try done. by constructor. }
  assert (exists cmds w', ret tt w = (Ok tt, w') /\
    db w' = db w /\ clock w' = clock w /\
    lamp w' = (lamp w ++ cmds)%list /\
    console w' = console w /\ alerts w' = alerts w /\
    (length cmds <= 1)%nat /\
    Forall (fun c => channel c = deriveTableNumber (name t) i) cmds) as Hno.
  { exists [], w. rewrite app_nil_r. repeat split; try done. simpl. lia. }
  destruct (findTable (id t) prevTables) as [p|].
  - destruct (bool_decide (status p <> status t)); [| done].
    destruct (_ && _); [done |].
    destruct (_ && _); [| done].
    eexists [_], _. repeat split; try done. by constructor.
  - by destruct (bool_decide _).
Qed.

Lemma diffRow_quiet prevTables i (t p : Table) w :
  findTable (id t) prevTables = Some p -> status p = status t ->
  diffRow prevTables i t w = (Ok tt, w).
Proof.
  intros Hp Hs. unfold diffRow. rewrite Hp.
  by rewrite bool_decide_eq_false_2 by (intros H; by apply H).
Qed.

Lemma diffRows_quiet prevTables i latest w :
  sameStatuses prevTables latest ->
  diffRows prevTables i latest w = (Ok tt, w).
Proof.
  revert i. induction latest as [|t rest IH]; intros i Hsame; [done |].
  destruct (Hsame t) as (p & Hp & Hs); [by left |].
  simpl. unfold bind. rewrite (diffRow_quiet _ _ _ _ _ Hp Hs).
  apply IH. intros t' Hin. apply Hsame. by right.
Qed.

Lemma diffRows_app prevTables i l1 l2 w :
  diffRows prevTables i (l1 ++ l2) w =
  match diffRows prevTables i l1 w with
  | (Ok _, w') => diffRows prevTables (i + Z.of_nat (length l1)) l2 w'
  | (Throw e, w') => (Throw e, w')
  end.
Proof.
  revert i w. induction l1 as [|t rest IH]; intros i w; simpl.
  - unfold ret. by rewrite Z.add_0_r.
  - unfold bind. destruct (diffRow prevTables i t w) as [[[]|e] w']; [| done].
    rewrite IH. replace (i + 1 + Z.of_nat (length rest))
      with (i + Z.pos (Pos.of_succ_nat (length rest))) by lia. done.
Qed.

(** In a listing without repeated ids every row finds itself. *)
Lemma findTable_self (l : list Table) (t : Table) :
  NoDup (map id l) -> t ∈ l -> findTable (id t) l = Some t.
Proof.
  unfold findTable. induction l as [|x r IH]; intros Hnd Hin.
  - by apply elem_of_nil in Hin.
  - simpl in Hnd. apply NoDup_cons in Hnd as [Hx Hnd]. simpl.
    apply elem_of_cons in Hin as [-> | Hin]; [by rewrite String.eqb_refl |].
    destruct (String.eqb_spec (id x) (id t)) as [E | _]; [| by apply IH].
    exfalso. apply Hx. rewrite E. apply list_elem_of_fmap. by exists t.
Qed.

Lemma findTable_middle (l1 l2 : list Table) (t : Table) :
  NoDup (map id (l1 ++ t :: l2)) -> findTable (id t) (l1 ++ t :: l2) = Some t.
Proof.
  intros Hnd. apply findTable_self; [done |].
  apply elem_of_app. right. by left.
Qed.

Lemma sameStatuses_part (l1 l2 part : list Table) (t : Table) :
  NoDup (map id (l1 ++ t :: l2)) ->
  (forall x, x ∈ part -> x ∈ l1 \/ x ∈ l2) ->
  sameStatuses (l1 ++ t :: l2) part.
Proof.
  intros Hnd Hsub x Hin. exists x. split; [| done].
  apply findTable_self; [done |]. apply elem_of_app.
  destruct (Hsub x Hin); [by left | right; by right].
Qed.

End ListenerFacts.

(** X1: a delivery in which every row has the status it had in the previous
    listing (a top-up, a change of price, a repeated snapshot) sends no lamp
    command and changes nothing else; in particular the same listing
    delivered twice is silent the second time. *)
Theorem listener_quiet (prevTables latest : list Table) (w : World)
    (Hsame : sameStatuses prevTables latest) :
  Listener.onTablesSnapshot prevTables latest w = (Ok latest, w) /\
  (NoDup (map id latest) ->
   Listener.onTablesSnapshot latest latest w = (Ok latest, w)).
Proof.
  unfold Listener.onTablesSnapshot, bind. split.
  - by rewrite diffRows_quiet.
  - intros Hnd. rewrite diffRows_quiet; [done |].
    intros t Hin. exists t. split; [by apply findTable_self | done].
Qed.

Lemma listener_quiet_witness :
  Listener.onTablesSnapshot Sample.listing0 Sample.listing0 Sample.w0
  = (Ok Sample.listing0, Sample.w0).
Proof.
  refine (proj1 (listener_quiet Sample.listing0 Sample.listing0 Sample.w0 _)).
  intros t Hin. exists t. split; [| reflexivity].
  apply list_elem_of_In in Hin. destruct Hin as [<- | [<- | []]]; reflexivity.
Defined.

Section ListenerRuns.

Import Listener.

Lemma diffRows_first i latest w :
  exists cmds w',
    diffRows [] i latest w = (Ok tt, w') /\
    db w' = db w /\ console w' = console w /\ alerts w' = alerts w /\
    lamp w' = (lamp w ++ cmds)%list /\
    map channel cmds = occupiedChannels i latest /\
    Forall (fun c => action c = on) cmds.
Proof.
  revert i w. induction latest as [|t rest IH]; intros i w.
  - exists [], w. rewrite app_nil_r. repeat split; try done.
  - simpl. unfold bind, diffRow. simpl.
    destruct (bool_decide (status t = Some occupied)).
    + destruct (lampOn_run (deriveTableNumber (name t) i) t w)
        as (dur & w1 & -> & Hdb1 & _ & Hl1 & Hc1 & Ha1).
      destruct (IH (i + 1) w1) as (cmds & w2 & -> & Hdb2 & Hc2 & Ha2 & Hl2 & Hch & Hon).
      eexists (_ :: cmds), w2. split; [done |].
      split; [congruence |]. split; [congruence |]. split; [congruence |].
      split; [by rewrite Hl2, Hl1, <- app_assoc |].
      split; [simpl; by rewrite Hch |]. by constructor.
    + unfold ret at 1.
      destruct (IH (i + 1) w) as (cmds & w2 & -> & Hdb2 & Hc2 & Ha2 & Hl2 & Hch & Hon).
      by exists cmds, w2.
Qed.

End ListenerRuns.

(** X2: the first delivery after the subscription starts (no previous
    listing) commands 'on', and never 'off', for exactly the occupied rows,
    each on the channel resolved from its name and position; it writes
    nothing to the store. *)
Theorem listener_first_snapshot (latest : list Table) (w : World) :
  let run := Listener.onTablesSnapshot [] latest in
  result run w = Ok latest /\
  db (exec run w) = db w /\
  exists cmds,
    lamp (exec run w) = (lamp w ++ cmds)%list /\
    map channel cmds = occupiedChannels 0 latest /\
    Forall (fun c => action c = on) cmds.
Proof.
  cbv zeta. unfold result, exec, Listener.onTablesSnapshot, bind.
  destruct (diffRows_first 0 latest w)
    as (cmds & w' & -> & Hdb & _ & _ & Hl & Hch & Hon).
  simpl. split; [done |]. split; [done |]. by exists cmds.
Qed.

(** X3: the manual stop of the first screen sends no lamp command itself,
    but the delivery of the listing that shows its write does: with the
    stopped table listed as occupied before, the handler of the
    subscription sends exactly one command, 'off' on the channel of that
    table, and the listing delivered agrees with the store. *)
Theorem stop_then_listener_lamp_off (storeId : string) (l1 l2 : list Table)
    (t : Table) (w : World)
    (Hids : NoDup (map id (l1 ++ t :: l2)))
    (Hsync : inSync (l1 ++ t :: l2) w)
    (Hocc : status t = Some occupied) :
  let prev := (l1 ++ t :: l2)%list in
  let latest := (l1 ++ mkTable (id t) (applyPatch resetPatch t) :: l2)%list in
  let w1 := exec (Part000.handleConfirmStop storeId t) w in
  let w2 := exec (Listener.onTablesSnapshot prev latest) w1 in
  lamp w1 = lamp w /\
  inSync latest w1 /\
  result (Listener.onTablesSnapshot prev latest) w1 = Ok latest /\
  lamp w2 = (lamp w ++
             [TABLE_LAMP_URL (deriveTableNumber (name t) (Z.of_nat (length l1)))
                             off None])%list.
Proof.
  cbv zeta. unfold exec. rewrite !handleConfirmStop_run. simpl.
  split; [done |].
  assert (forall x : Table, x ∈ l1 \/ x ∈ l2 -> id x <> id t) as Hne.
  { intros x Hx E. rewrite map_app in Hids. simpl in Hids.
    apply NoDup_app in Hids as (_ & Hdis & Hnd2).
    apply NoDup_cons in Hnd2 as [Hnot _].
    destruct Hx as [Hx | Hx].
    - apply (Hdis (id t)); [rewrite <- E; apply list_elem_of_fmap; by exists x |].
      by left.
    - apply Hnot. rewrite <- E. apply list_elem_of_fmap. by exists x. }
  split.
  { intros x Hin. simpl. apply elem_of_app in Hin as [Hin | Hin].
    - rewrite lookup_insert_ne by (intros E; by apply (Hne x (or_introl Hin))).
      apply Hsync. apply elem_of_app. by left.
    - apply elem_of_cons in Hin as [-> | Hin].
      + simpl. rewrite lookup_insert_eq, (Hsync t); [done |].
        apply elem_of_app. right. by left.
      + rewrite lookup_insert_ne by (intros E; by apply (Hne x (or_intror Hin))).
        apply Hsync. apply elem_of_app. right. by right. }
  assert (forall w0,
            Listener.diffRows (l1 ++ t :: l2) 0
              (l1 ++ mkTable (id t) (applyPatch resetPatch t) :: l2) w0
            = controlLamp (deriveTableNumber (name t) (Z.of_nat (length l1)))
                          off None w0) as Hrun.
  { intros w0. rewrite diffRows_app.
    rewrite diffRows_quiet
      by (apply sameStatuses_part; [done | intros; by left]).
    simpl. unfold bind, Listener.diffRow. simpl.
    rewrite (findTable_middle l1 l2 t Hids). rewrite Hocc. simpl.
    rewrite diffRows_quiet
      by (apply sameStatuses_part; [done | intros; by right]).
    done. }
  unfold result, Listener.onTablesSnapshot, bind.
  rewrite !Hrun. done.
Qed.

Lemma stop_then_listener_lamp_off_witness :
  lamp (exec (Listener.onTablesSnapshot Sample.listing0
                [mkTable "t1" Sample.meja1;
                 mkTable "t2" (applyPatch resetPatch Sample.meja2)])
          (exec (Part000.handleConfirmStop "toko" (mkTable "t2" Sample.meja2))
                Sample.w0))
  = [TABLE_LAMP_URL 2 off None].
Proof.
  destruct (stop_then_listener_lamp_off "toko" [mkTable "t1" Sample.meja1] []
              (mkTable "t2" Sample.meja2) Sample.w0)
    as (_ & _ & _ & H).
  - apply (bool_decide_unpack _). vm_compute. exact I.
  - intros x Hin. apply list_elem_of_In in Hin.
    destruct Hin as [<- | [<- | []]]; reflexivity.
  - reflexivity.
  - exact H.
Defined.

(** ** Lamp commands of a start *)

Section StartLamp.

Lemma ceilDiv_seconds m : ceilDiv (m * 60000) 1000 = m * 60.
Proof.
  unfold ceilDiv. replace (- (m * 60000)) with ((- (m * 60)) * 1000) by lia.
  rewrite Z.div_mul by lia. lia.
Qed.

Lemma findIndexFrom_middle (l1 l2 : list Table) (t : Table) i :
  NoDup (map id (l1 ++ t :: l2)) ->
  findIndexFrom i (id t) (l1 ++ t :: l2) = i + Z.of_nat (length l1).
Proof.
  revert i. induction l1 as [|x r IH]; intros i Hnd; simpl.
  - rewrite String.eqb_refl. lia.
  - simpl in Hnd. apply NoDup_cons in Hnd as [Hx Hnd].
    destruct (String.eqb_spec (id x) (id t)) as [E | _].
    + exfalso. apply Hx. rewrite E. apply list_elem_of_fmap. exists t.
      split; [done |]. apply elem_of_app. right. by left.
    + rewrite IH by done. lia.
Qed.


End StartLamp.



(** ** Lamp control by table, remaining time *)

Section LampTime.

Import LampForTable.

Lemma ceilDiv_bounds a b :
  0 < b -> (ceilDiv a b - 1) * b < a <= ceilDiv a b * b.
Proof.
  intros Hb. unfold ceilDiv.
  pose proof (Z.div_mod (- a) b ltac:(lia)) as Hdm.
  pose proof (Z.mod_pos_bound (- a) b Hb) as Hm. nia.
Qed.

Lemma ceilDiv_pos a b : 0 < b -> 0 < a -> 0 < ceilDiv a b.
Proof. intros Hb Ha. pose proof (ceilDiv_bounds a b Hb). nia. Qed.

Lemma ceilDiv_nonpos a b : 0 < b -> a <= 0 -> ceilDiv a b <= 0.
Proof. intros Hb Ha. pose proof (ceilDiv_bounds a b Hb). nia. Qed.

Lemma deriveTableNumber_no_digit nm i :
  nm = None \/ (exists s, nm = Some s /\ noDigit s = true) ->
  deriveTableNumber nm i = i + 1.
Proof.
  intros [-> | (s & -> & Hs)]; [done |]. unfold deriveTableNumber.
  destruct (String.eqb s ""); [done |]. by rewrite matchDigits_none.
Qed.

End LampTime.

(** X5: for a table without a configured URL for the action,
    controlLampForTable addresses the channel resolved from the name at
    position 0 whatever the table's place in the listing: a table whose name
    has no digit is always addressed as channel 1, while the handler of the
    subscription addresses the same table at position i as channel i + 1.
    The two agree only for the first row. *)
Theorem lamp_for_table_ignores_position (t : Table) (act : LampAction)
    (durationSec : option Z) (i : Z)
    (Hurl : LampForTable.explicitUrl t act = None)
    (Hname : name t = None \/ (exists s, name t = Some s /\ noDigit s = true)) :
  LampForTable.controlLampForTable t act durationSec
    = LampForTable.fetchLamp (TABLE_LAMP_URL 1 act durationSec) /\
  deriveTableNumber (name t) i = i + 1 /\
  (deriveTableNumber (name t) i = 1 <-> i = 0).
Proof.
  unfold LampForTable.controlLampForTable. rewrite Hurl.
  rewrite !(deriveTableNumber_no_digit _ _ Hname).
  split; [done |]. split; [done |]. lia.
Qed.

Lemma lamp_for_table_ignores_position_witness :
  LampForTable.controlLampForTable
    (mkTable "t9" (TableManagement.newTable "VIP Room" 30000 "" "" ""))
    off None
  = LampForTable.fetchLamp (TABLE_LAMP_URL 1 off None).
Proof.
  refine (proj1 (lamp_for_table_ignores_position _ off None 2 _ _)).
  - reflexivity.
  - right. by exists "VIP Room".
Defined.

(** X6: the stop button of the second screen.  On a stored table it leaves
    the record exactly as the auto-expiry check would (status 'available',
    startTime, endTime and currentCustomer deleted, duration 0) and sends
    the 'off' request; a later check on the refreshed row then writes
    nothing.  On a table whose document is gone the update throws, nothing
    is written and no lamp request is sent; a declined confirmation does
    nothing. *)
Theorem second_screen_stop (t : Table) (w : World) :
  (forall d, db w !! id t = Some d ->
     LampForTable.stopTable true t w
     = (Ok (Some (LampForTable.controlLampForTable t off None)),
        setDb (<[id t := applyPatch expiryPatch d]> (db w)) w) /\
     (expired (clock w (reads w)) t = true ->
      db (exec (LampForTable.stopTable true t) w)
      = db (exec (autoExpiryTick [t]) w)) /\
     (forall now,
        expired now (mkTable (id t) (applyPatch expiryPatch d)) = false)) /\
  (db w !! id t = None ->
   LampForTable.stopTable true t w = (Throw (NotFound (id t)), w)) /\
  LampForTable.stopTable false t w = (Ok None, w).
Proof.
  split; [| split].
  - intros d Hd. split; [| split].
    + unfold LampForTable.stopTable, bind, updateDoc. by rewrite Hd.
    + intros Hexp. unfold exec, LampForTable.stopTable, bind, updateDoc.
      rewrite Hd. rewrite autoExpiryTick_run. simpl. unfold bind.
      rewrite autoStop_run, Hexp. simpl. by rewrite Hd.
    + done.
  - intros Hd. unfold LampForTable.stopTable, bind, updateDoc. by rewrite Hd.
  - done.
Qed.

Lemma second_screen_stop_witness :
  db (exec (LampForTable.stopTable true (mkTable "t2" Sample.meja2)) Sample.w0)
    !! "t2" = Some (applyPatch expiryPatch Sample.meja2).
Proof.
  destruct (second_screen_stop (mkTable "t2" Sample.meja2) Sample.w0)
    as (H & _ & _).
  destruct (H Sample.meja2 eq_refl) as (Hrun & _).
  unfold exec. rewrite Hrun. reflexivity.
Defined.

(** X7: the auto-off time of an 'on' command.  For a row whose end time is
    set, the command carries the seconds left rounded up; when the end time
    has passed (a rental not yet stopped) the command carries no duration at
    all, so the lamp is switched on without an auto-off. *)
Theorem lamp_on_auto_off (num : Z) (t : Table) (e : Z) (w : World)
    (Hend : endTime t = Some e) (Hset : e <> 0) :
  let now := clock w (reads w) in
  exists cmd,
    lamp (exec (Listener.lampOn num t) w) = (lamp w ++ [cmd])%list /\
    channel cmd = num /\ action cmd = on /\
    (e <= now -> autoOffSeconds cmd = None) /\
    (now < e -> exists d, autoOffSeconds cmd = Some d /\
                          (d - 1) * 1000 < e - now <= d * 1000).
Proof.
  cbv zeta. unfold exec, Listener.lampOn, remainingSeconds, bind, truthyZ, orZ.
  rewrite Hend. apply Z.eqb_neq in Hset. rewrite Hset. simpl.
  eexists. split; [reflexivity |]. simpl. split; [done |]. split; [done |].
  pose proof (ceilDiv_bounds (e - clock w (reads w)) 1000 ltac:(lia)) as Hb.
  split.
  - intros Hle.
    pose proof (ceilDiv_nonpos (e - clock w (reads w)) 1000 ltac:(lia) ltac:(lia)).
    rewrite Z.max_l by lia. done.
  - intros Hlt.
    pose proof (ceilDiv_pos (e - clock w (reads w)) 1000 ltac:(lia) ltac:(lia)).
    rewrite Z.max_r by lia.
    destruct (0 <? ceilDiv _ _) eqn:E; [| apply Z.ltb_ge in E; lia].
    eexists. split; [done | lia].
Qed.

Lemma lamp_on_auto_off_witness :
  exists cmd,
    lamp (exec (Listener.lampOn 2 (mkTable "t2" Sample.meja2))
               (Sample.world Sample.store0 (Sample.T0 + 3600000)))
    = [cmd] /\ autoOffSeconds cmd = None.
Proof.
  destruct (lamp_on_auto_off 2 (mkTable "t2" Sample.meja2)
              (Sample.T0 + 3600000)
              (Sample.world Sample.store0 (Sample.T0 + 3600000))
              eq_refl ltac:(discriminate))
    as (cmd & Hl & _ & _ & Hnone & _).
  exists cmd. split; [exact Hl |]. apply Hnone. simpl. lia.
Defined.

(** X8: minutes left as the second screen shows them: 0 when the table has
    no end time or the end time has passed, otherwise the time left rounded
    up to whole minutes, never negative. *)
Theorem minutesLeft_bounds (t : Table) (now : Z) :
  0 <= LampForTable.minutesLeft t now /\
  (truthyZ (endTime t) = false -> LampForTable.minutesLeft t now = 0) /\
  (forall e, endTime t = Some e -> e <> 0 ->
     (e <= now -> LampForTable.minutesLeft t now = 0) /\
     (now < e ->
      let m := LampForTable.minutesLeft t now in
      0 < m /\ (m - 1) * 60000 < e - now <= m * 60000)).
Proof.
  unfold LampForTable.minutesLeft. split; [| split].
  - destruct (truthyZ (endTime t)); lia.
  - by intros ->.
  - intros e He Hset. unfold truthyZ, orZ. rewrite He.
    apply Z.eqb_neq in Hset. rewrite Hset. simpl.
    pose proof (ceilDiv_bounds (e - now) 60000 ltac:(lia)) as Hb.
    split.
    + intros Hle. pose proof (ceilDiv_nonpos (e - now) 60000 ltac:(lia) ltac:(lia)).
      lia.
    + intros Hlt. pose proof (ceilDiv_pos (e - now) 60000 ltac:(lia) ltac:(lia)).
      rewrite Z.max_r by lia. lia.
Qed.

(** ** The countdown of a table card *)

(** X9: the countdown of a running rental shows hours below 24, minutes and
    seconds below 60, and together they are the whole seconds left, exactly
    when less than a day is left; from a day on the display drops the whole
    days.  An expired rental shows "00:00". *)
Theorem timeLeft_display (t : Table) (now e : Z)
    (Hbusy : status t <> Some available)
    (Hend : endTime t = Some e) (Hset : e <> 0) :
  let diff := e - now in
  let h := TableCard.hours diff in
  let m := TableCard.minutes diff in
  let s := TableCard.seconds diff in
  (diff <= 0 -> TableCard.timeLeft t now = "00:00") /\
  (0 < diff ->
   TableCard.timeLeft t now
     = TableCard.padStart2 (pretty h) +:+ ":" +:+ TableCard.padStart2 (pretty m)
       +:+ ":" +:+ TableCard.padStart2 (pretty s) /\
   0 <= h < 24 /\ 0 <= m < 60 /\ 0 <= s < 60 /\
   h * 3600 + m * 60 + s = (diff / 1000) mod 86400 /\
   (diff < 86400000 -> h * 3600 + m * 60 + s = diff / 1000)).
Proof.
  cbv zeta. unfold TableCard.timeLeft, truthyZ, orZ. rewrite Hend.
  rewrite (bool_decide_eq_false_2 _ Hbusy).
  apply Z.eqb_neq in Hset. rewrite Hset. simpl.
  split.
  - intros Hle. apply Z.leb_le in Hle. by rewrite Hle.
  - intros Hpos. destruct (e - now <=? 0) eqn:E; [apply Z.leb_le in E; lia |].
    split; [done |].
    unfold TableCard.hours, TableCard.minutes, TableCard.seconds.
    set (diff := e - now) in *.
    assert (diff / (1000 * 60 * 60) = diff / 1000 / 3600) as ->
      by (rewrite Z.div_div by lia; f_equal).
    set (S := diff / 1000).
    assert (0 <= S) by (apply Z.div_pos; lia).
    pose proof (Z.mod_pos_bound (S / 3600) 24 ltac:(lia)).
    pose proof (Z.mod_pos_bound (S / 60) 60 ltac:(lia)).
    pose proof (Z.mod_pos_bound S 60 ltac:(lia)).
    do 3 (split; [lia |]).
    assert (S / 3600 = S / 60 / 60) as E1 by (rewrite Z.div_div by lia; f_equal).
    pose proof (Z.div_mod S 60 ltac:(lia)) as D1.
    pose proof (Z.div_mod (S / 60) 60 ltac:(lia)) as D2.
    pose proof (Z.div_mod (S / 3600) 24 ltac:(lia)) as D3.
    pose proof (Z.div_mod S 86400 ltac:(lia)) as D4.
    pose proof (Z.mod_pos_bound S 86400 ltac:(lia)) as B4.
    assert (S / 86400 = S / 3600 / 24) as E2 by (rewrite Z.div_div by lia; f_equal).
    split.
    + rewrite E1 in *. nia.
    + intros Hday.
      assert (S < 86400) by (apply Z.div_lt_upper_bound; lia).
      rewrite E1 in *. nia.
Qed.

Lemma timeLeft_display_witness :
  TableCard.timeLeft (mkTable "t2" Sample.meja2) (Sample.T0 + 600000)
  = "00:50:00".
Proof.
  destruct (timeLeft_display (mkTable "t2" Sample.meja2) (Sample.T0 + 600000)
              (Sample.T0 + 3600000)) as (_ & H).
  - discriminate.
  - reflexivity.
  - discriminate.
  - destruct H as (-> & _); [unfold Sample.T0; lia |]. vm_compute. reflexivity.
Defined.

(** ** The cart *)

Section CartFacts.

Import Cart.

Lemma tableKeyOf_targets tid item :
  targets tid item = true -> tableKeyOf item = Some tid.
Proof.
  unfold targets, tableKeyOf, truthyId.
  destruct (itemType item); [done |].
  destruct (tableId item) as [k|]; [| done].
  destruct (String.eqb k ""); [done |].
  intros H. by apply String.eqb_eq in H as ->.
Qed.

Lemma find_table_item cart (tbl : Table) :
  is_Some (List.find (fun item => Part000.isTable item
                        && bool_decide (tableId item = Some (id tbl))) cart)
  <-> id tbl ∈ omap tableKeyOf cart.
Proof.
  induction cart as [|item rest IH].
  - simpl. split; [by intros [? ?] | by intros ?%elem_of_nil].
  - cbn [List.find omap list_omap].
    unfold Part000.isTable, tableKeyOf at 1.
    destruct (itemType item); cbn [andb].
    + exact IH.
    + destruct (tableId item) as [k|].
      * case_bool_decide as Hk.
        -- injection Hk as ->. split; [intros _; by left | by eexists].
        -- rewrite IH. split; [by right |].
           intros [E | H]%elem_of_cons; [congruence | done].
      * case_bool_decide as Hk; [done | exact IH].
Qed.

Lemma filterIndexFrom_after {A} (r : list A) k i :
  (i < k)%nat -> filterIndexFrom (fun j => negb (Nat.eqb j i)) k r = r.
Proof.
  revert k. induction r as [|y r IH]; intros k Hlt; [done |].
  simpl. destruct (Nat.eqb_spec k i); [lia |]. simpl.
  f_equal. apply IH. lia.
Qed.

Lemma filterIndexFrom_delete {A} (l : list A) index i :
  filterIndexFrom (fun j => negb (Nat.eqb j (i + index))) i l
  = (take index l ++ drop (S index) l)%list.
Proof.
  revert i index. induction l as [|x r IH]; intros i index.
  - by destruct index.
  - simpl. destruct index as [|n].
    + rewrite Nat.add_0_r, Nat.eqb_refl. simpl. rewrite drop_0.
      apply filterIndexFrom_after. lia.
    + destruct (Nat.eqb_spec i (i + S n)); [lia |]. simpl. f_equal.
      replace (i + S n)%nat with (S i + n)%nat by lia. apply IH.
Qed.

Lemma removeFromCart_delete index prev :
  removeFromCart index prev = (take index prev ++ drop (S index) prev)%list.
Proof. apply (filterIndexFrom_delete prev index 0). Qed.

Lemma omap_sublist {A B} (f : A -> option B) l1 l2 :
  sublist l1 l2 -> sublist (omap f l1) (omap f l2).
Proof.
  induction 1 as [|x l1 l2 _ IH|x l1 l2 _ IH]; simpl.
  - constructor.
  - destruct (f x); [by constructor | done].
  - destruct (f x); [by constructor | done].
Qed.

Lemma removeFromCart_keeps index cart :
  oneItemPerTable cart -> oneItemPerTable (removeFromCart index cart).
Proof.
  intros Hc. unfold oneItemPerTable in *.
  rewrite removeFromCart_delete.
  refine (sublist_NoDup _ _ Hc _).
  apply omap_sublist.
  rewrite <- (take_drop index cart) at 3.
  apply sublist_app; [done |].
  rewrite <- (Nat.add_1_r index), <- drop_drop. apply sublist_drop.
Qed.

Lemma oneItemPerTable_others tid item pre post :
  oneItemPerTable (pre ++ item :: post) -> targets tid item = true ->
  Forall (fun i => targets tid i = false) (pre ++ post).
Proof.
  unfold oneItemPerTable. intros Hnd Htgt.
  apply tableKeyOf_targets in Htgt.
  rewrite omap_app in Hnd. cbn [omap list_omap] in Hnd. rewrite Htgt in Hnd.
  apply NoDup_app in Hnd as (_ & Hpre & Hpost).
  apply NoDup_cons in Hpost as [Hpost _].
  apply Forall_forall. intros i Hi.
  destruct (targets tid i) eqn:Hti; [| done].
  apply tableKeyOf_targets in Hti.
  apply elem_of_app in Hi as [Hi | Hi].
  - exfalso. apply (Hpre tid); [| by left].
    apply list_elem_of_omap. by exists i.
  - exfalso. apply Hpost. apply list_elem_of_omap. by exists i.
Qed.

Lemma addToCartTable_run rentalPrice cart (table : Table) duration w :
  addToCartTable rentalPrice cart cart table duration w =
    if bool_decide (id table ∈ omap tableKeyOf cart)
    then (Ok cart,
          mkWorld (db w) (clock w) (reads w) (lamp w) (console w)
            (alerts w ++ ["Meja ini sudah ada di keranjang. Hapus dulu jika ingin mengubah durasi."])%list
            (loading w) (closed w))
    else (Ok (cart ++ [mkCartItem table_item None (Some (id table))
                         (rentalPrice duration (costPerHour table)) 1
                         (Some duration) None])%list, w).
Proof.
  unfold addToCartTable.
  pose proof (find_table_item cart table) as Hfind.
  destruct (List.find _ cart) as [found|].
  - rewrite bool_decide_eq_true_2 by (apply Hfind; by eexists). done.
  - rewrite bool_decide_eq_false_2; [done |].
    intros Hin. apply Hfind in Hin as [? ?]. done.
Qed.

Lemma cart_one_item_per_table_aux rentalPrice cart (table : Table) duration w :
  oneItemPerTable cart -> id table ∉ omap tableKeyOf cart ->
  let item := mkCartItem table_item None (Some (id table))
                (rentalPrice duration (costPerHour table)) 1 (Some duration)
                None in
  addToCartTable rentalPrice cart cart table duration w
    = (Ok (cart ++ [item])%list, w) /\
  oneItemPerTable (cart ++ [item]).
Proof.
  intros Hcart Hnew item. rewrite addToCartTable_run.
  rewrite bool_decide_eq_false_2 by done. split; [done |].
  unfold oneItemPerTable in *. rewrite omap_app.
  cbn [omap list_omap tableKeyOf itemType tableId item].
  apply NoDup_app. split; [exact Hcart |]. split.
  - intros x Hx Hx'. apply list_elem_of_singleton in Hx'. by subst.
  - apply NoDup_singleton.
Qed.

End CartFacts.

(** X10: a table is in the cart at most once.  Adding a table that the cart
    already holds is refused with a notice and leaves the cart as it is;
    adding another one appends one line for it, with the chosen duration and
    quantity 1, and has no other effect.  Either way no two lines of the new
    cart are for the same table, also after a line is removed. *)
Theorem cart_one_item_per_table (rentalPrice : Z -> option Z -> Z)
    (cart : list CartItem) (table : Table) (duration : Z) (w : World)
    (Hcart : oneItemPerTable cart) :
  let run := Cart.addToCartTable rentalPrice cart cart table duration in
  exists cart',
    result run w = Ok cart' /\
    oneItemPerTable cart' /\
    (forall index, oneItemPerTable (Cart.removeFromCart index cart')) /\
    db (exec run w) = db w /\
    lamp (exec run w) = lamp w /\
    (id table ∈ omap tableKeyOf cart ->
       cart' = cart /\
       length (alerts (exec run w)) = S (length (alerts w))) /\
    (id table ∉ omap tableKeyOf cart ->
       exec run w = w /\
       exists item,
         cart' = (cart ++ [item])%list /\
         tableKeyOf item = Some (id table) /\
         itemDuration item = Some duration /\
         quantity item = 1 /\
         price item = rentalPrice duration (costPerHour table)).
Proof.
  intros run. unfold run, result, exec.
  rewrite addToCartTable_run.
  case_bool_decide as Hin; eexists; cbn [fst snd db lamp alerts].
  - split; [reflexivity |]. split; [exact Hcart |].
    split; [intros index; by apply removeFromCart_keeps |].
    split; [done |]. split; [done |]. split.
    + intros _. split; [done |]. rewrite length_app. simpl. lia.
    + intros Hout. done.
  - assert (oneItemPerTable
              (cart ++ [mkCartItem table_item None (Some (id table))
                          (rentalPrice duration (costPerHour table)) 1
                          (Some duration) None])) as Hnew.
    { unfold oneItemPerTable in *. rewrite omap_app.
      cbn [omap list_omap tableKeyOf itemType tableId].
      apply NoDup_app. split; [exact Hcart |]. split.
      - intros x Hx Hx'. apply list_elem_of_singleton in Hx'. by subst.
      - apply NoDup_singleton. }
    split; [reflexivity |]. split; [exact Hnew |].
    split; [intros index; by apply removeFromCart_keeps |].
    split; [done |]. split; [done |]. split; [done |].
    intros _. split; [done |]. eexists. split; [reflexivity |]. done.
Qed.

Lemma cart_one_item_per_table_witness :
  exists cart',
    result (Cart.addToCartTable (fun d c => 0) [Sample.rent "t1" 60]
              [Sample.rent "t1" 60] (mkTable "t1" Sample.meja1) 30) Sample.w0
      = Ok cart' /\
    cart' = [Sample.rent "t1" 60].
Proof.
  destruct (cart_one_item_per_table (fun d c => 0) [Sample.rent "t1" 60]
              (mkTable "t1" Sample.meja1) 30 Sample.w0)
    as (cart' & Hres & _ & _ & _ & _ & Hdup & _).
  - apply (bool_decide_unpack _). vm_compute. exact I.
  - exists cart'. split; [exact Hres |].
    apply Hdup. apply (bool_decide_unpack _). vm_compute. exact I.
Defined.

(** X11: removing line [index] of the cart deletes exactly that line: the
    lines before it keep their place, the later ones move up by one, and an
    index past the end leaves the cart as it is. *)
Theorem removeFromCart_lines (index : nat) (prev : list CartItem) :
  (forall i, Cart.removeFromCart index prev !! i
             = prev !! (if decide (i < index)%nat then i else S i)) /\
  length (Cart.removeFromCart index prev)
    = (if decide (index < length prev)%nat then pred (length prev)
       else length prev) /\
  ((length prev <= index)%nat -> Cart.removeFromCart index prev = prev).
Proof.
  rewrite removeFromCart_delete. split; [| split].
  - intros i. destruct (decide (i < index)%nat) as [Hlt | Hge].
    + destruct (decide (index <= length prev)%nat).
      * rewrite lookup_app_l by (rewrite length_take; lia).
        by rewrite lookup_take_lt.
      * rewrite take_ge, drop_ge by lia. by rewrite app_nil_r.
    + destruct (decide (index <= length prev)%nat).
      * rewrite lookup_app_r by (rewrite length_take; lia).
        rewrite length_take, lookup_drop. f_equal. lia.
      * rewrite take_ge, drop_ge by lia. rewrite app_nil_r.
        rewrite !lookup_ge_None_2; [done | lia | lia].
  - rewrite length_app, length_take, length_drop.
    destruct (decide (index < length prev)%nat); lia.
  - intros Hge. rewrite take_ge, drop_ge by lia. by rewrite app_nil_r.
Qed.

(** X12: from the cart to the table record, in the first screen.  A table
    that is not yet in the cart, and that the listing shows 'available', is
    added with a duration and the cart is paid: whatever else the cart
    holds, the table's record becomes an occupied rental that starts now
    and lasts the chosen duration. *)
Theorem cart_to_rental (rentalPrice : Z -> option Z -> Z)
    (cart : list CartItem) (table tbl : Table) (tables : list Table)
    (customerName : string) (minutes now : Z) (d : TableData) (w : World)
    (Hcart : oneItemPerTable cart)
    (Hnew : id table ∉ omap tableKeyOf cart)
    (Hid : id table <> "")
    (Hpos : 0 < minutes)
    (Hrow : findTable (id table) tables = Some tbl)
    (Hfree : status tbl = Some available)
    (Hdoc : db w !! id table = Some d)
    (Hclk : clockAt now w) (Hidle : loading w = false) :
  exists cart',
    Cart.addToCartTable rentalPrice cart cart table minutes w = (Ok cart', w) /\
    oneItemPerTable cart' /\
    result (Part000.handleProcessPayment cart' tables customerName) w
      = Ok tt /\
    exists r,
      db (exec (Part000.handleProcessPayment cart' tables customerName) w)
        !! id table = Some r /\
      startedAt now minutes customerName r /\
      name r = name d /\ costPerHour r = costPerHour d.
Proof.
  pose proof (cart_one_item_per_table_aux rentalPrice cart table minutes w
                Hcart Hnew) as (Hrun & Hone).
  set (item := mkCartItem table_item None (Some (id table))
                 (rentalPrice minutes (costPerHour table)) 1 (Some minutes)
                 None)
    in *.
  assert (Htgt : targets (id table) item = true).
  { unfold targets, truthyId. cbn [item itemType tableId].
    destruct (String.eqb_spec (id table) ""); [done |].
    apply String.eqb_refl. }
  assert (Hothers : Forall (fun i => targets (id table) i = false)
                      (cart ++ [])).
  { exact (oneItemPerTable_others _ _ _ _ Hone Htgt). }
  exists (cart ++ [item])%list. split; [exact Hrun |].
  split; [exact Hone |].
  destruct (start_000 tables customerName (id table) item cart [] Hothers
              Htgt tbl minutes now d w eq_refl Hpos Hrow Hfree Hdoc Hclk
              Hidle) as (Hok & _ & _ & r & Hr & Hs & Hname).
  split; [exact Hok |]. by exists r.
Qed.

Lemma cart_to_rental_witness :
  exists cart' r,
    Cart.addToCartTable (fun d c => 20000) [] [] (mkTable "t1" Sample.meja1) 60
      Sample.w0 = (Ok cart', Sample.w0) /\
    db (exec (Part000.handleProcessPayment cart' Sample.listing0 "Ani")
          Sample.w0) !! "t1" = Some r /\
    startedAt (Sample.T0 + 600000) 60 "Ani" r.
Proof.
  destruct (cart_to_rental (fun d c => 20000) [] (mkTable "t1" Sample.meja1)
              (mkTable "t1" Sample.meja1) Sample.listing0 "Ani" 60
              (Sample.T0 + 600000) Sample.meja1 Sample.w0)
    as (cart' & Hadd & _ & _ & r & Hr & Hstarted & _).
  - apply NoDup_nil_2.
  - apply not_elem_of_nil.
  - discriminate.
  - lia.
  - reflexivity.
  - reflexivity.
  - reflexivity.
  - intros n. reflexivity.
  - reflexivity.
  - exists cart', r. split; [exact Hadd |]. split; assumption.
Defined.

(** ** The settings of the tables *)

Section TableManagementFacts.

Import TableManagement.

Lemma tableKey_inj a b : tableKey a = tableKey b -> a = b.
Proof.
  unfold tableKey. intros H. simpl in H. injection H as H.
  by apply (inj pretty).
Qed.

Lemma handleAddTable_run nm cost ron roff rtog w :
  nm <> "" ->
  handleAddTable nm cost ron roff rtog w =
  (Ok tt,
   mkWorld (<[tableKey (clock w (reads w)) := newTable nm cost ron roff rtog]>
              (db w))
           (clock w) (S (reads w)) (lamp w) (console w) (alerts w)
           (loading w) (closed w)).
Proof.
  intros Hnm. unfold handleAddTable.
  destruct (String.eqb_spec nm ""); [done |]. reflexivity.
Qed.

Lemma updateField_run docId change w :
  tryCatch (updateField docId change) (fun e => error e) w =
  match db w !! docId with
  | Some d => (Ok tt, setDb (<[docId := change d]> (db w)) w)
  | None => (Ok tt,
             mkWorld (db w) (clock w) (reads w) (lamp w)
               (console w ++ [console_error (NotFound docId)])%list
               (alerts w) (loading w) (closed w))
  end.
Proof.
  unfold tryCatch, updateField. by destruct (db w !! docId).
Qed.

End TableManagementFacts.

(** X13: adding a table.  With a name given, the handler stores one new
    document under the key made from the current time: an available table
    with the name, price and remote URLs entered and no rental fields, which
    no expiry check ever stops.  No other document changes and no lamp is
    commanded; whatever was stored under the key before is replaced.  Keys
    made at different times differ.  With the name left empty nothing
    happens. *)
Theorem handleAddTable_new_table (newTableName : string) (newTableCost : Z)
    (newTableRemoteOn newTableRemoteOff newTableRemoteToggle : string)
    (w : World) :
  let run := TableManagement.handleAddTable newTableName newTableCost
               newTableRemoteOn newTableRemoteOff newTableRemoteToggle in
  let key := TableManagement.tableKey (clock w (reads w)) in
  (newTableName <> "" ->
     result run w = Ok tt /\
     (exists r,
        db (exec run w) !! key = Some r /\
        name r = Some newTableName /\ status r = Some available /\
        costPerHour r = Some newTableCost /\
        startTime r = None /\ endTime r = None /\ duration r = None /\
        currentCustomer r = None /\
        (forall now, expired now (mkTable key r) = false)) /\
     (forall k, k <> key -> db (exec run w) !! k = db w !! k) /\
     (startKnown (db w) -> startKnown (db (exec run w))) /\
     lamp (exec run w) = lamp w /\ alerts (exec run w) = alerts w) /\
  (newTableName = "" -> run w = (Ok tt, w)) /\
  (forall now, TableManagement.tableKey now = key -> now = clock w (reads w)).
Proof.
  intros run key. split; [| split].
  - intros Hnm. unfold run, result, exec.
    rewrite handleAddTable_run by done. cbn [fst snd db lamp alerts].
    fold key. split; [done |]. split.
    { eexists. split; [apply lookup_insert_eq |]. repeat split. }
    split; [by intros k Hk; rewrite lookup_insert_ne |].
    split; [| done].
    intros Hknown k d. destruct (decide (k = key)) as [-> | Hk].
    + rewrite lookup_insert_eq. intros [= <-]. by left.
    + rewrite lookup_insert_ne by done. apply Hknown.
  - intros ->. reflexivity.
  - intros now. apply tableKey_inj.
Qed.

(** X14: changing the price or a remote URL of a table leaves its rental
    alone: status, start and end time, duration, customer and name of the
    record stay as they are, as does every other document, and no lamp is
    commanded.  For a table whose document is gone the handler logs the
    error, writes nothing and returns normally. *)
Theorem table_settings_keep_rental (docId : string) (newPrice : Z)
    (field : TableManagement.RemoteField) (url : string) (w : World)
    (run : M unit)
    (Hrun : run = TableManagement.handleUpdatePrice docId newPrice \/
            run = TableManagement.handleUpdateRemoteField docId field url) :
  result run w = Ok tt /\
  lamp (exec run w) = lamp w /\
  (forall k, k <> docId -> db (exec run w) !! k = db w !! k) /\
  (forall d, db w !! docId = Some d ->
     exists r, db (exec run w) !! docId = Some r /\
       status r = status d /\ startTime r = startTime d /\
       endTime r = endTime d /\ duration r = duration d /\
       currentCustomer r = currentCustomer d /\ name r = name d /\
       (forall now, expired now (mkTable docId r)
                    = expired now (mkTable docId d))) /\
  (db w !! docId = None ->
     db (exec run w) = db w /\
     console (exec run w)
       = (console w ++ [console_error (NotFound docId)])%list).
Proof.
  unfold result, exec.
  destruct Hrun as [-> | ->];
    unfold TableManagement.handleUpdatePrice,
           TableManagement.handleUpdateRemoteField;
    rewrite updateField_run;
    destruct (db w !! docId) as [d0|] eqn:Hd; unfold setDb;
    cbn [fst snd db lamp console];
    (split; [done |]); (split; [done |]);
    (split; [intros k Hk; by rewrite ?lookup_insert_ne |]);
    (split; [| done]).
  - intros d [= <-]. eexists. split; [apply lookup_insert_eq |].
    repeat split.
  - intros d [=].
  - intros d [= <-]. eexists. split; [apply lookup_insert_eq |].
    repeat split.
  - intros d [=].
Qed.

Lemma table_settings_keep_rental_witness :
  exists r,
    db (exec (TableManagement.handleUpdatePrice "t2" 25000) Sample.w0) !! "t2"
      = Some r /\
    status r = Some occupied /\ currentCustomer r = Some "Budi".
Proof.
  destruct (table_settings_keep_rental "t2" 25000
              TableManagement.remoteOnField "" Sample.w0
              (TableManagement.handleUpdatePrice "t2" 25000)
              (or_introl eq_refl))
    as (_ & _ & _ & Hdoc & _).
  destruct (Hdoc Sample.meja2 eq_refl) as (r & Hr & Hs & _ & _ & _ & Hc & _).
  exists r. split; [exact Hr |]. split; [exact Hs | exact Hc].
Defined.

(** X15: a remote URL set for an action takes the place of the numbered
    channel.  Once a non-empty URL is stored for 'on', 'off' or 'toggle',
    a request for that action on the refreshed row goes to that URL (with
    the auto-off time appended as a query parameter when one is given);
    once the empty string is stored, it goes to the channel resolved from
    the table's name again.  Requests for the other two actions are as
    before, and the price is kept. *)
Theorem remote_url_precedence (docId : string)
    (field : TableManagement.RemoteField) (url : string) (d : TableData)
    (w : World) (durationSec : option Z)
    (Hdoc : db w !! docId = Some d) :
  let run := TableManagement.handleUpdateRemoteField docId field url in
  let mine := match field with
              | TableManagement.remoteOnField => on
              | TableManagement.remoteOffField => off
              | TableManagement.remoteToggleField => toggle
              end in
  exists r,
    db (exec run w) !! docId = Some r /\
    costPerHour r = costPerHour d /\
    (url <> "" ->
     LampForTable.controlLampForTable (mkTable docId r) mine durationSec
       = LampForTable.fetchUrl (LampForTable.withDuration url durationSec)) /\
    (url = "" ->
     LampForTable.controlLampForTable (mkTable docId r) mine durationSec
       = LampForTable.fetchLamp
           (TABLE_LAMP_URL (deriveTableNumber (name d) 0) mine durationSec)) /\
    (forall act, act <> mine ->
     LampForTable.controlLampForTable (mkTable docId r) act durationSec
       = LampForTable.controlLampForTable (mkTable docId d) act durationSec).
Proof.
  intros run mine. unfold run, exec, TableManagement.handleUpdateRemoteField.
  rewrite updateField_run, Hdoc. unfold setDb. cbn [snd db].
  eexists. split; [apply lookup_insert_eq |]. split; [done |].
  unfold LampForTable.controlLampForTable, LampForTable.explicitUrl.
  split; [| split].
  - intros Hurl. destruct field; cbn; destruct (String.eqb_spec url "");
      done.
  - intros ->. destruct field; reflexivity.
  - intros act Hact. destruct field, act; cbn in *; done.
Qed.

Lemma remote_url_precedence_witness :
  exists r,
    db (exec (TableManagement.handleUpdateRemoteField "t2"
                TableManagement.remoteOffField "http://lamp.local/off?ch=2")
          Sample.w0) !! "t2" = Some r /\
    LampForTable.controlLampForTable (mkTable "t2" r) off (Some 30)
      = LampForTable.fetchUrl "http://lamp.local/off?ch=2&duration=30".
Proof.
  destruct (remote_url_precedence "t2" TableManagement.remoteOffField
              "http://lamp.local/off?ch=2" Sample.meja2 Sample.w0 (Some 30)
              eq_refl) as (r & Hr & _ & Hurl & _).
  exists r. split; [exact Hr |]. rewrite Hurl by discriminate. reflexivity.
Defined.

(** X16: a stop on a table that was deleted in the meantime.  The manual
    stop of the first screen writes through a merge and so creates the
    document again, as a table without name and price; the stop of the
    second screen fails with the store as it is, and the auto-expiry check
    leaves the table deleted and only logs a warning.  A declined
    confirmation deletes nothing. *)
Theorem stop_after_delete (storeId : string) (t : Table) (w : World) :
  let w1 := exec (TableManagement.handleDeleteTable true (id t)) w in
  result (TableManagement.handleDeleteTable true (id t)) w = Ok tt /\
  db w1 !! id t = None /\
  (forall k, k <> id t -> db w1 !! k = db w !! k) /\
  (exists r,
     db (exec (Part000.handleConfirmStop storeId t) w1) !! id t = Some r /\
     status r = Some available /\ name r = None /\ costPerHour r = None) /\
  LampForTable.stopTable true t w1 = (Throw (NotFound (id t)), w1) /\
  db (exec (autoExpiryTick [t]) w1) !! id t = None /\
  (expired (clock w (reads w)) t = true ->
   console (exec (autoExpiryTick [t]) w1)
     = (console w ++ [console_warn "Auto-stop table failed"
                                   (NotFound (id t))])%list) /\
  TableManagement.handleDeleteTable false (id t) w = (Ok tt, w).
Proof.
  intros w1.
  assert (Hw1 : w1 = setDb (delete (id t) (db w)) w) by reflexivity.
  assert (Hgone : db w1 !! id t = None).
  { rewrite Hw1. unfold setDb. cbn [db]. apply lookup_delete_eq. }
  split; [reflexivity |]. split; [exact Hgone |].
  split.
  { intros k Hk. rewrite Hw1. unfold setDb. cbn [db].
    by apply lookup_delete_ne. }
  split.
  { unfold exec at 1. rewrite handleConfirmStop_run. cbn [snd db].
    rewrite Hgone. eexists. split; [apply lookup_insert_eq |].
    repeat split. }
  split.
  { unfold LampForTable.stopTable, bind, updateDoc. by rewrite Hgone. }
  split.
  { rewrite tick_lookup, Hgone. by destruct (existsb _ _). }
  split; [| reflexivity].
  intros Hexp. unfold exec at 1. rewrite autoExpiryTick_run.
  cbn [forEach]. unfold bind. rewrite autoStop_run.
  assert (Hclk : clock w1 (reads w1) = clock w (reads w)) by reflexivity.
  rewrite Hclk, Hexp. cbn [db]. rewrite Hgone. reflexivity.
Qed.

(** ** A move without rental data *)

(** X17: moving a table whose row carries no rental data (no start time, no
    end time, no duration, no customer) does not move nothing: the
    destination is written as a rental that starts now, lasts 60 minutes
    and belongs to "Pelanggan", its lamp is switched on for 3600 seconds,
    and the origin is reset. *)
Theorem handleMove_defaults (fromTable : Table) (tables : list Table)
    (toTableId : string) (now : Z) (w : World)
    (Hto : toTableId <> "") (Hidle : loading w = false)
    (Hdiff : toTableId <> id fromTable)
    (Hs : truthyZ (startTime fromTable) = false)
    (He : truthyZ (endTime fromTable) = false)
    (Hd : truthyZ (duration fromTable) = false)
    (Hc : truthyS (currentCustomer fromTable) = false)
    (Hclk : clockAt now w) (Hnow : 0 < now) :
  let run := Part000.handleMove fromTable tables toTableId in
  result run w = Ok tt /\
  (exists r, db (exec run w) !! toTableId = Some r /\
             startedAt now 60 "Pelanggan" r) /\
  (exists r, db (exec run w) !! id fromTable = Some r /\
             status r = Some available /\ endTime r = Some 0) /\
  lamp (exec run w)
    = (lamp w ++ [TABLE_LAMP_URL (fromNum fromTable tables) off None;
                  TABLE_LAMP_URL (toNum tables toTableId) on (Some 3600)])%list.
Proof.
  intros run. unfold run, result, exec.
  assert (Hsec : Z.max 0 (ceilDiv (now + 3600000 - now) 1000) = 3600).
  { replace (now + 3600000 - now) with (60 * 60000) by lia.
    rewrite ceilDiv_seconds. lia. }
  assert (He0 : (now + 3600000 =? 0) = false) by (apply Z.eqb_neq; lia).
  assert (Hdur : orZ (duration fromTable) 60 = 60).
  { unfold truthyZ in Hd. unfold orZ.
    destruct (duration fromTable) as [n|]; [| done].
    by destruct (n =? 0). }
  assert (Hcust : orS (currentCustomer fromTable) "Pelanggan" = "Pelanggan").
  { unfold truthyS in Hc. unfold orS.
    destruct (currentCustomer fromTable) as [s|]; [| done].
    by destruct (String.eqb s ""). }
  assert (Hrun :
    Part000.handleMove fromTable tables toTableId w =
    (Ok tt,
     mkWorld (moved now (now + 3600000) fromTable toTableId (db w)) (clock w)
       (S (S (S (reads w))))
       (lamp w ++
        [TABLE_LAMP_URL (fromNum fromTable tables) off None;
         TABLE_LAMP_URL (toNum tables toTableId) on (Some 3600)])%list
       (console w) (alerts w) false true)).
  { apply String.eqb_neq in Hto.
    unfold Part000.handleMove, bind, getLoading. rewrite Hto, Hidle. simpl.
    unfold finally, tryCatch, bind, orElseM, remainingSeconds, truthyZ, orZ.
    unfold truthyZ in Hs, He.
    destruct (startTime fromTable) as [s|];
      [destruct (s =? 0); [| done] |];
      (destruct (endTime fromTable) as [e|];
       [destruct (e =? 0); [| done] |]);
      simpl; unfold bind; simpl; rewrite !Hclk, !He0; simpl;
      rewrite ?Hclk, Hsec, <- app_assoc; reflexivity. }
  rewrite Hrun. cbn [fst snd db lamp]. split; [done |].
  unfold moved. split; [| split; [| done]].
  - rewrite lookup_insert_ne by done. rewrite lookup_insert_eq.
    eexists. split; [reflexivity |].
    unfold startedAt, Part000.moveData. cbn. rewrite Hdur, Hcust.
    repeat split.
  - rewrite lookup_insert_eq. eexists. split; [reflexivity |]. by split.
Qed.

Lemma handleMove_defaults_witness :
  exists r,
    db (exec (Part000.handleMove (mkTable "t1" Sample.meja1) Sample.listing0
                "t2") Sample.w0) !! "t2" = Some r /\
    startedAt (Sample.T0 + 600000) 60 "Pelanggan" r.
Proof.
  destruct (handleMove_defaults (mkTable "t1" Sample.meja1) Sample.listing0
              "t2" (Sample.T0 + 600000) Sample.w0)
    as (_ & Hdest & _).
  - discriminate.
  - reflexivity.
  - discriminate.
  - reflexivity.
  - reflexivity.
  - reflexivity.
  - reflexivity.
  - intros n. reflexivity.
  - unfold Sample.T0. lia.
  - exact Hdest.
Defined.

(** ** Stock *)

Section StockFacts.

Import Stock.

Variable products : list Product.
Variable ingredients : list Ingredient.

Lemma updateStock_lookup k v docs k' :
  updateStock k v docs !! k' =
  if decide (k' = k) then (docs !! k) ≫= (fun _ => Some v) else docs !! k'.
Proof.
  unfold updateStock. destruct (decide (k' = k)) as [-> | Hne].
  - destruct (docs !! k) eqn:Hk; simpl.
    + apply lookup_insert_eq.
    + exact Hk.
  - destruct (docs !! k); [by rewrite lookup_insert_ne | done].
Qed.

Lemma deductIngredient_products q r inv :
  productDocs (deductIngredient ingredients q r inv) = productDocs inv.
Proof.
  unfold deductIngredient. by destruct (List.find _ ingredients).
Qed.

Lemma deductRecipe_products q rs inv :
  productDocs (fold_left (fun acc r => deductIngredient ingredients q r acc)
                         rs inv) = productDocs inv.
Proof.
  revert inv. induction rs as [|r rs IH]; intros inv; [done |].
  simpl. rewrite IH. apply deductIngredient_products.
Qed.

Lemma deductCart_snoc cart item inv :
  deductCart products ingredients (cart ++ [item]) inv
  = deductItem products ingredients item
      (deductCart products ingredients cart inv).
Proof. unfold deductCart. by rewrite fold_left_app. Qed.

Lemma lastQuantity_snoc pid cart item :
  lastQuantity pid (cart ++ [item]) =
  match lastQuantity pid [item] with
  | Some q => Some q
  | None => lastQuantity pid cart
  end.
Proof.
  induction cart as [|x cart IH]; simpl.
  - by destruct (itemType item), (truthyId (productId item)) as [k|];
      try destruct (String.eqb k pid).
  - rewrite IH. simpl.
    by destruct (itemType item), (truthyId (productId item)) as [k|];
      try destruct (String.eqb k pid).
Qed.

Lemma find_product_key pid product :
  List.find (fun p => String.eqb (productKey p) pid) products = Some product ->
  productKey product = pid.
Proof.
  intros H. apply find_some in H as [_ H]. by apply String.eqb_eq.
Qed.

(** The stock a direct-stock line for [pid] leaves, and the frame. *)
Lemma deductItem_product pid product item inv :
  List.find (fun p => String.eqb (productKey p) pid) products = Some product ->
  (isRecipe product = Some true -> recipe product = None) ->
  productDocs (deductItem products ingredients item inv) !! pid =
  match lastQuantity pid [item] with
  | Some q => (productDocs inv !! pid)
                ≫= (fun _ => Some (Z.max 0 (stock product - q)))
  | None => productDocs inv !! pid
  end.
Proof.
  intros Hfind Hdirect. unfold deductItem. simpl.
  destruct (itemType item); [| done].
  destruct (truthyId (productId item)) as [k|]; [| done].
  destruct (String.eqb_spec k pid) as [-> | Hne].
  - rewrite Hfind.
    destruct (isRecipe product) as [[|]|]; [| | ].
    + rewrite Hdirect by done. simpl. rewrite updateStock_lookup.
      by rewrite decide_True.
    + simpl. rewrite updateStock_lookup. by rewrite decide_True.
    + simpl. rewrite updateStock_lookup. by rewrite decide_True.
  - destruct (List.find (fun p => String.eqb (productKey p) k) products)
      as [p|]; [| done].
    destruct (isRecipe p) as [[|]|], (recipe p) as [rs|]; simpl;
      rewrite ?deductRecipe_products, ?updateStock_lookup;
      rewrite ?decide_False by congruence; done.
Qed.

Lemma deductCart_keeps_product pid cart inv :
  is_Some (productDocs inv !! pid) ->
  is_Some (productDocs (deductCart products ingredients cart inv) !! pid).
Proof.
  induction cart as [|item cart IH] using rev_ind; [done |].
  intros Hin. rewrite deductCart_snoc.
  specialize (IH Hin). revert IH.
  generalize (deductCart products ingredients cart inv) as acc.
  intros acc [v Hv]. unfold deductItem.
  destruct (itemType item); [| by eexists].
  destruct (truthyId (productId item)) as [k|]; [| by eexists].
  destruct (List.find _ products) as [p|]; [| by eexists].
  destruct (isRecipe p) as [[|]|], (recipe p) as [rs|]; simpl;
    rewrite ?deductRecipe_products, ?updateStock_lookup;
    try case_decide; subst; rewrite ?Hv; by eexists.
Qed.

End StockFacts.

(** X18: the stock of a product after a checkout.  For a product sold from
    its own stock, the stored stock after the checkout is the listed stock
    less the quantity of the LAST cart line for the product, floored at 0:
    every line writes a stock computed from the listing, so an earlier line
    for the same product (another variant) is overwritten and its quantity
    is not deducted.  A product with no line keeps its stock. *)
Theorem stock_last_line_wins (products : list Stock.Product)
    (ingredients : list Stock.Ingredient) (cart : list CartItem)
    (inv : Stock.Inventory) (pid : string) (product : Stock.Product)
    (Hfind : List.find (fun p => String.eqb (Stock.productKey p) pid) products
             = Some product)
    (Hdirect : Stock.isRecipe product = Some true ->
               Stock.recipe product = None)
    (Hdoc : is_Some (Stock.productDocs inv !! pid)) :
  Stock.productDocs (Stock.deductCart products ingredients cart inv) !! pid =
  match lastQuantity pid cart with
  | Some q => Some (Z.max 0 (Stock.stock product - q))
  | None => Stock.productDocs inv !! pid
  end.
Proof.
  induction cart as [|item cart IH] using rev_ind; [done |].
  rewrite deductCart_snoc, lastQuantity_snoc.
  rewrite (deductItem_product products ingredients pid product) by done.
  destruct (lastQuantity pid [item]) as [q|]; [| exact IH].
  destruct (deductCart_keeps_product products ingredients pid cart inv Hdoc)
    as [v ->].
  reflexivity.
Qed.

Lemma stock_last_line_wins_witness :
  Stock.productDocs
    (Stock.deductCart [Stock.mkProduct "p1" 10 None None] []
       [mkCartItem product_item (Some "p1") None 5000 2 None None;
        mkCartItem product_item (Some "p1") None 6000 3 None None]
       (Stock.mkInventory {["p1" := 10]} ∅)) !! "p1" = Some 7.
Proof.
  rewrite (stock_last_line_wins [Stock.mkProduct "p1" 10 None None] []
             [mkCartItem product_item (Some "p1") None 5000 2 None None;
              mkCartItem product_item (Some "p1") None 6000 3 None None]
             (Stock.mkInventory {["p1" := 10]} ∅) "p1"
             (Stock.mkProduct "p1" 10 None None)).
  - reflexivity.
  - reflexivity.
  - discriminate.
  - exists 10. reflexivity.
Defined.

Section StockSound.

Import Stock.

Variable products : list Product.
Variable ingredients : list Ingredient.

Lemma updateStock_sound k v docs :
  0 <= v ->
  sameDocs (updateStock k v docs) docs /\
  (nonNegative docs -> nonNegative (updateStock k v docs)).
Proof.
  intros Hv. split.
  - intros k'. rewrite updateStock_lookup. case_decide; [| done].
    subst. destruct (docs !! k); simpl; [| done].
    split; intros _; by eexists.
  - intros Hdocs k' v'. rewrite updateStock_lookup. case_decide.
    + destruct (docs !! k); simpl; [| done]. by intros [= <-].
    + apply Hdocs.
Qed.

Lemma deductIngredient_sound q r inv :
  let inv' := deductIngredient ingredients q r inv in
  sameDocs (ingredientDocs inv') (ingredientDocs inv) /\
  (nonNegative (ingredientDocs inv) -> nonNegative (ingredientDocs inv')).
Proof.
  unfold deductIngredient. destruct (List.find _ ingredients) as [ing|].
  - cbn [ingredientDocs]. apply updateStock_sound. lia.
  - by split.
Qed.

Lemma deductRecipe_sound q rs inv :
  let inv' := fold_left (fun acc r => deductIngredient ingredients q r acc)
                        rs inv in
  sameDocs (ingredientDocs inv') (ingredientDocs inv) /\
  (nonNegative (ingredientDocs inv) -> nonNegative (ingredientDocs inv')).
Proof.
  revert inv. induction rs as [|r rs IH]; intros inv; [by split |].
  cbn [fold_left].
  destruct (IH (deductIngredient ingredients q r inv)) as [Hs Hn].
  destruct (deductIngredient_sound q r inv) as [Hs0 Hn0].
  split.
  - intros k. by rewrite (Hs k), (Hs0 k).
  - intros H. by apply Hn, Hn0.
Qed.

Lemma deductItem_sound item inv :
  let inv' := deductItem products ingredients item inv in
  sameDocs (productDocs inv') (productDocs inv) /\
  sameDocs (ingredientDocs inv') (ingredientDocs inv) /\
  (nonNegative (productDocs inv) -> nonNegative (productDocs inv')) /\
  (nonNegative (ingredientDocs inv) -> nonNegative (ingredientDocs inv')).
Proof.
  assert (Hid : sameDocs (productDocs inv) (productDocs inv) /\
                sameDocs (ingredientDocs inv) (ingredientDocs inv) /\
                (nonNegative (productDocs inv) ->
                 nonNegative (productDocs inv)) /\
                (nonNegative (ingredientDocs inv) ->
                 nonNegative (ingredientDocs inv))) by done.
  unfold deductItem.
  destruct (itemType item); [| exact Hid].
  destruct (truthyId (productId item)) as [k|]; [| exact Hid].
  destruct (List.find _ products) as [p|]; [| exact Hid].
  assert (Hdirect :
    let inv' := mkInventory
                  (updateStock k (Z.max 0 (stock p - quantity item))
                     (productDocs inv)) (ingredientDocs inv) in
    sameDocs (productDocs inv') (productDocs inv) /\
    sameDocs (ingredientDocs inv') (ingredientDocs inv) /\
    (nonNegative (productDocs inv) -> nonNegative (productDocs inv')) /\
    (nonNegative (ingredientDocs inv) -> nonNegative (ingredientDocs inv'))).
  { cbn [productDocs ingredientDocs].
    destruct (updateStock_sound k (Z.max 0 (stock p - quantity item))
                (productDocs inv)) as [Hs Hn]; [lia |].
    done. }
  destruct (isRecipe p) as [[|]|]; [| exact Hdirect | exact Hdirect].
  destruct (recipe p) as [rs|]; [| exact Hdirect].
  rewrite deductRecipe_products.
  destruct (deductRecipe_sound (quantity item) rs inv) as [Hs Hn].
  done.
Qed.

End StockSound.

(** X19: a checkout never leaves a negative stock and never creates or
    removes a product or ingredient document: every stock it writes is
    floored at 0, also when more is sold than the listing shows in stock,
    and a line for a product or ingredient without a document writes
    nothing. *)
Theorem stock_never_negative (products : list Stock.Product)
    (ingredients : list Stock.Ingredient) (cart : list CartItem)
    (inv : Stock.Inventory) :
  let inv' := Stock.deductCart products ingredients cart inv in
  sameDocs (Stock.productDocs inv') (Stock.productDocs inv) /\
  sameDocs (Stock.ingredientDocs inv') (Stock.ingredientDocs inv) /\
  (nonNegative (Stock.productDocs inv) ->
   nonNegative (Stock.productDocs inv')) /\
  (nonNegative (Stock.ingredientDocs inv) ->
   nonNegative (Stock.ingredientDocs inv')).
Proof.
  induction cart as [|item cart IH] using rev_ind; [done |].
  cbn zeta in *. rewrite deductCart_snoc.
  destruct IH as (Hp & Hi & Hnp & Hni).
  destruct (deductItem_sound products ingredients item
              (Stock.deductCart products ingredients cart inv))
    as (Hp' & Hi' & Hnp' & Hni').
  split; [intros k; by rewrite (Hp' k), (Hp k) |].
  split; [intros k; by rewrite (Hi' k), (Hi k) |].
  split; [intros H; by apply Hnp', Hnp |].
  intros H; by apply Hni', Hni.
Qed.

(** ** The shift report *)

Section ShiftReportFacts.

Import ShiftReport.

Lemma countItem_units r item :
  cafeItemsSold (countItem r item)
  = cafeItemsSold r + productUnits [item].
Proof.
  unfold countItem, productUnits. simpl.
  destruct (itemType item); simpl; lia.
Qed.

Lemma countItems_units l r :
  cafeItemsSold (fold_left countItem l r)
  = cafeItemsSold r + productUnits l.
Proof.
  revert r. induction l as [|item l IH]; intros r.
  - unfold productUnits. simpl. lia.
  - cbn [fold_left]. rewrite IH, countItem_units.
    unfold productUnits. simpl. destruct (itemType item); lia.
Qed.

Lemma countTransactions_units ts r :
  cafeItemsSold (fold_left (fun r t => fold_left countItem (items t) r) ts r)
  = cafeItemsSold r + fold_right (fun t acc => productUnits (items t) + acc) 0 ts.
Proof.
  revert r. induction ts as [|t ts IH]; intros r; simpl; [lia |].
  rewrite IH, countItems_units. lia.
Qed.

Lemma report_units shift ts :
  cafeItemsSold (report shift ts) = unitsSince (shiftStart shift) ts.
Proof.
  unfold report, unitsSince. rewrite countTransactions_units.
  cbn [cafeItemsSold].
  induction ts as [|t ts IH]; simpl; [done |].
  destruct (shiftStart shift <=? date t); simpl; lia.
Qed.

Lemma productUnits_nonneg cart :
  Forall (fun item => 0 <= quantity item) cart -> 0 <= productUnits cart.
Proof.
  induction 1 as [|item cart Hq _ IH]; [done |].
  unfold productUnits in *. simpl. destruct (itemType item); lia.
Qed.

Lemma unitsSince_nonneg start ts : countsOnly ts -> 0 <= unitsSince start ts.
Proof.
  induction 1 as [|t ts Ht _ IH]; [done |].
  unfold unitsSince in *. simpl.
  pose proof (productUnits_nonneg _ Ht). destruct (start <=? date t); lia.
Qed.

Lemma unitsSince_perm start ts ts' :
  ts ≡ₚ ts' -> unitsSince start ts = unitsSince start ts'.
Proof.
  unfold unitsSince.
  induction 1 as [|t l l' _ IH|t t' l|l l' l'' _ IH1 _ IH2]; simpl.
  - done.
  - by rewrite IH.
  - lia.
  - congruence.
Qed.

End ShiftReportFacts.

(** X20: the pieces sold of the shift report.  With quantities that are
    counts, and no more than 2^53 pieces in all (the range in which the
    additions of the code are exact), 'cafeItemsSold' is the number of
    pieces on the product lines of the transactions dated at or after the
    start of the shift; table lines count for nothing.  Transactions from
    before the shift change nothing in the report, and the number of pieces
    does not depend on the order in which the transactions are listed. *)
Theorem shift_report_items (shift : ShiftReport.Shift)
    (transactions : list ShiftReport.Transaction)
    (Hcounts : countsOnly transactions)
    (Hsafe : unitsSince (ShiftReport.shiftStart shift) transactions <= 2 ^ 53) :
  let r := ShiftReport.report shift transactions in
  ShiftReport.cafeItemsSold r
    = unitsSince (ShiftReport.shiftStart shift) transactions /\
  0 <= ShiftReport.cafeItemsSold r <= 2 ^ 53 /\
  (forall early,
     Forall (fun t => ShiftReport.date t < ShiftReport.shiftStart shift) early ->
     ShiftReport.report shift (early ++ transactions) = r) /\
  (forall transactions',
     transactions ≡ₚ transactions' ->
     ShiftReport.cafeItemsSold (ShiftReport.report shift transactions')
       = ShiftReport.cafeItemsSold r).
Proof.
  intros r. unfold r. rewrite report_units.
  split; [done |]. split.
  { split; [by apply unitsSince_nonneg | exact Hsafe]. }
  split.
  - intros early Hearly. unfold ShiftReport.report.
    rewrite List.filter_app.
    replace (List.filter _ early) with (@nil ShiftReport.Transaction);
      [done |].
    symmetry. induction Hearly as [|t early Ht _ IH]; [done |].
    simpl. destruct (Z.leb_spec (ShiftReport.shiftStart shift)
                                (ShiftReport.date t)); [lia | exact IH].
  - intros ts' Hperm. rewrite report_units.
    symmetry. by apply unitsSince_perm.
Qed.

Lemma shift_report_items_witness :
  ShiftReport.cafeItemsSold
    (ShiftReport.report (ShiftReport.mkShift 1000 50000)
       [ShiftReport.mkTransaction 900
          [mkCartItem product_item (Some "p1") None 5000 4 None None];
        ShiftReport.mkTransaction 1000
          [mkCartItem product_item (Some "p1") None 5000 2 None None;
           Sample.rent "t1" 60];
        ShiftReport.mkTransaction 2000
          [mkCartItem product_item (Some "p2") None 6000 3 None None]])
  = 5.
Proof.
  destruct (shift_report_items (ShiftReport.mkShift 1000 50000)
       [ShiftReport.mkTransaction 900
          [mkCartItem product_item (Some "p1") None 5000 4 None None];
        ShiftReport.mkTransaction 1000
          [mkCartItem product_item (Some "p1") None 5000 2 None None;
           Sample.rent "t1" 60];
        ShiftReport.mkTransaction 2000
          [mkCartItem product_item (Some "p2") None 6000 3 None None]])
    as (H & _).
  - repeat constructor; simpl; lia.
  - by apply Z.leb_le.
  - rewrite H. reflexivity.
Defined.

(** ** A top-up and the lamp *)


(** X21: in the first screen a top-up commands the lamp once.  The checkout
    handler sends 'on' with the seconds left up to the new end time, which
    re-arms the auto-off; the delivery of the listing that shows the write
    sends nothing, the status of the row being unchanged.  While the rental
    has not run out the auto-off is the seconds that were left plus the
    seconds bought. *)
Theorem topup_lamp_once (l1 l2 : list Table) (t : Table) (item : CartItem)
    (customerName : string) (minutes now e : Z) (w : World)
    (Hids : NoDup (map id (l1 ++ t :: l2)))
    (Hsync : inSync (l1 ++ t :: l2) w)
    (Hocc : status t = Some occupied)
    (Hend : endTime t = Some e) (He : 0 < e)
    (Htype : itemType item = table_item)
    (Hid : tableId item = Some (id t)) (Htid : id t <> "")
    (Hdur : itemDuration item = Some minutes) (Hpos : 0 < minutes)
    (Hclk : clockAt now w) (Hidle : loading w = false) :
  let prev := (l1 ++ t :: l2)%list in
  let w1 := exec (Part000.handleProcessPayment [item] prev customerName) w in
  let r := applyPatch (topupPatch000 item e t) t in
  let latest := (l1 ++ mkTable (id t) r :: l2)%list in
  let w2 := exec (Listener.onTablesSnapshot prev latest) w1 in
  let secs := Z.max 0 (ceilDiv (e + minutes * 60000 - now) 1000) in
  db w1 !! id t = Some r /\
  lamp w1 = (lamp w ++ [TABLE_LAMP_URL
                          (deriveTableNumber (name t) (Z.of_nat (length l1)))
                          on (Some secs)])%list /\
  lamp w2 = lamp w1 /\
  (now <= e -> secs = ceilDiv (e - now) 1000 + minutes * 60).
Proof.
  cbv zeta.
  assert (t ∈ (l1 ++ t :: l2)%list) as Hin
    by (apply elem_of_app; right; by left).
  destruct (topup_single (l1 ++ t :: l2) t item customerName (id t) minutes now
              e t w Htype Hid Htid Hdur Hpos (findTable_middle l1 l2 t Hids)
              Hocc Hend He (Hsync t Hin) Hocc Hclk Hidle)
    as (Hdb & Hlamp & _).
  cbv zeta in Hdb, Hlamp.
  unfold findIndex in Hlamp.
  rewrite (findIndexFrom_middle l1 l2 t 0 Hids) in Hlamp.
  rewrite Z.add_0_l in Hlamp.
  split; [by rewrite Hdb, lookup_insert_eq |]. split; [exact Hlamp |].
  split.
  - unfold exec at 1, Listener.onTablesSnapshot, bind.
    rewrite diffRows_quiet; [done |].
    intros x Hx. apply elem_of_app in Hx as [Hx | Hx].
    + apply (sameStatuses_part l1 l2 l1 t Hids); [intros; by left | done].
    + apply elem_of_cons in Hx as [-> | Hx].
      * exists t. split; [apply (findTable_middle l1 l2 t Hids) |].
        simpl. by rewrite Hocc.
      * apply (sameStatuses_part l1 l2 l2 t Hids); [intros; by right | done].
  - intros Hle.
    assert (ceilDiv (e + minutes * 60000 - now) 1000
            = ceilDiv (e - now) 1000 + minutes * 60) as ->.
    { unfold ceilDiv.
      replace (- (e + minutes * 60000 - now))
        with (- (e - now) + (- (minutes * 60)) * 1000) by lia.
      rewrite Z.div_add by lia. lia. }
    pose proof (ceilDiv_bounds (e - now) 1000 ltac:(lia)). lia.
Qed.

Lemma topup_lamp_once_witness :
  lamp (exec (Part000.handleProcessPayment [Sample.rent "t2" 30]
                Sample.listing0 "Ani") Sample.w0)
  = [TABLE_LAMP_URL 2 on (Some 4800)].
Proof.
  destruct (topup_lamp_once [mkTable "t1" Sample.meja1] []
              (mkTable "t2" Sample.meja2) (Sample.rent "t2" 30) "Ani" 30
              (Sample.T0 + 600000) (Sample.T0 + 3600000) Sample.w0)
    as (_ & Hlamp & _).
  - apply (bool_decide_unpack _). vm_compute. exact I.
  - intros t Ht. apply elem_of_cons in Ht as [-> | Ht]; [reflexivity |].
    apply list_elem_of_singleton in Ht as ->. reflexivity.
  - reflexivity.
  - reflexivity.
  - unfold Sample.T0. lia.
  - reflexivity.
  - reflexivity.
  - discriminate.
  - reflexivity.
  - lia.
  - intros n. reflexivity.
  - reflexivity.
  - exact Hlamp.
Defined.

(** ** A checkout that fails half-way (first screen) *)

Section PartialFailure.

Import Part000.

Variable tables : list Table.
Variable customerName : string.

Lemma newData_reads (tbl : Table) item w :
  exists p n, newData tbl item customerName w
              = (Ok p, mkWorld (db w) (clock w) n (lamp w) (console w)
                               (alerts w) (loading w) (closed w)).
Proof.
  unfold newData, orElseM, bind, Date_now, ret.
  destruct (bool_decide (status tbl = Some occupied)).
  - destruct (endTime tbl) as [e|]; [destruct (e =? 0) |]; simpl;
      try (do 2 eexists; reflexivity).
    destruct w. do 2 eexists. reflexivity.
  - simpl. do 2 eexists. reflexivity.
Qed.

(** What one turn of the loop leaves apart from the store: nothing but clock
    readings; it never creates a document, and a listed table without a
    document gives a rejected promise. *)
Lemma processItem_quiet item w :
  exists rs w',
    processItem tables customerName item w = (Ok rs, w') /\
    lamp w' = lamp w /\ alerts w' = alerts w /\ closed w' = closed w /\
    console w' = console w /\
    (forall k, db w !! k = None -> db w' !! k = None) /\
    (forall tid tbl, targets tid item = true ->
                     findTable tid tables = Some tbl ->
                     db w !! tid = None -> rs = [Some (NotFound tid)]).
Proof.
  unfold processItem, targets.
  destruct (itemType item);
    [do 2 eexists; split; [reflexivity |]; repeat split; done |].
  destruct (truthyId (tableId item)) as [k|];
    [| do 2 eexists; split; [reflexivity |]; repeat split; done].
  destruct (findTable k tables) as [tbl|] eqn:Hrow.
  - destruct (newData_reads tbl item w) as (p & n & Hp).
    unfold bind. rewrite Hp. unfold settle, tryCatch, bind, updateDoc.
    cbn [db]. destruct (db w !! k) as [d|] eqn:Hd.
    + do 2 eexists. split; [reflexivity |]. unfold setDb. cbn.
      repeat split; try done.
      * intros k' Hk'. rewrite lookup_insert_ne; [done |]. congruence.
      * intros tid tbl' Heq _ Hnone. apply String.eqb_eq in Heq. congruence.
    + do 2 eexists. split; [reflexivity |]. cbn. repeat split; try done.
      intros tid tbl' Heq _ _. apply String.eqb_eq in Heq. by subst.
  - do 2 eexists. split; [reflexivity |]. repeat split; try done.
    intros tid tbl' Heq Hrow' _. apply String.eqb_eq in Heq. congruence.
Qed.

Lemma processCart_quiet cart w :
  exists rs w',
    processCart tables customerName cart w = (Ok rs, w') /\
    lamp w' = lamp w /\ alerts w' = alerts w /\ closed w' = closed w /\
    console w' = console w /\
    (forall k, db w !! k = None -> db w' !! k = None) /\
    (forall tid tbl item,
       item ∈ cart -> targets tid item = true ->
       findTable tid tables = Some tbl ->
       db w !! tid = None -> Some (NotFound tid) ∈ rs).
Proof.
  revert w. induction cart as [|item0 rest IH]; intros w.
  - do 2 eexists. split; [reflexivity |]. repeat split; try done.
    intros tid tbl item Hin. by apply elem_of_nil in Hin.
  - cbn [processCart]. unfold bind.
    destruct (processItem_quiet item0 w)
      as (rs0 & w0 & Hrun0 & Hl0 & Ha0 & Hc0 & Hk0 & Hnone0 & Hrej0).
    rewrite Hrun0.
    destruct (IH w0) as (rs1 & w1 & Hrun1 & Hl1 & Ha1 & Hc1 & Hk1 & Hnone1 & Hrej1).
    rewrite Hrun1. do 2 eexists. split; [reflexivity |].
    split; [congruence |]. split; [congruence |]. split; [congruence |].
    split; [congruence |]. split; [by intros k Hk; apply Hnone1, Hnone0 |].
    intros tid tbl item Hin Htgt Hrow Hnone.
    apply elem_of_app. apply elem_of_cons in Hin as [-> | Hin].
    + left. rewrite (Hrej0 tid tbl Htgt Hrow Hnone). by left.
    + right. apply (Hrej1 tid tbl item Hin Htgt Hrow). by apply Hnone0.
Qed.

Lemma Promise_all_rejected ps e w :
  Some e ∈ ps -> exists e', Promise_all ps w = (Throw e', w).
Proof.
  induction ps as [|[e0|] r IH]; intros Hin.
  - by apply elem_of_nil in Hin.
  - by eexists.
  - apply elem_of_cons in Hin as [? | Hin]; [done |]. by apply IH.
Qed.

End PartialFailure.

(** X22: a checkout of the first screen is not all-or-nothing.  When the
    cart holds a line for a listed table whose document is gone, the
    handler reports the failure (one notice, which starts with 'Gagal
    memproses pembayaran: '), closes nothing and commands no lamp, and
    the missing document is not created; the writes for the other lines
    have been made all the same: a table of the cart whose document exists
    is left rewritten as a started (or topped-up) rental. *)
Theorem checkout_partial_failure (tables : list Table)
    (customerName : string) (cart : list CartItem) (tid : string)
    (tbl : Table) (item : CartItem) (now : Z) (w : World)
    (Hin : item ∈ cart)
    (Htgt : targets tid item = true)
    (Hrow : findTable tid tables = Some tbl)
    (Hgone : db w !! tid = None)
    (Hclk : clockAt now w)
    (Hidle : loading w = false) :
  let run := Part000.handleProcessPayment cart tables customerName in
  result run w = Ok tt /\
  alerted "Gagal memproses pembayaran: " run w /\
  lamp (exec run w) = lamp w /\
  closed (exec run w) = closed w /\
  loading (exec run w) = false /\
  db (exec run w) !! tid = None /\
  (forall tid' tbl' item' d pre post,
     cart = (pre ++ item' :: post)%list ->
     Forall (fun i => targets tid' i = false) (pre ++ post) ->
     targets tid' item' = true ->
     findTable tid' tables = Some tbl' ->
     db w !! tid' = Some d ->
     db (exec run w) !! tid'
       = Some (applyPatch (newDataAt now tbl' item' customerName) d)).
Proof.
  intros run.
  assert (Hshape : exists e w',
    run w = (Ok tt,
             mkWorld (db w') (clock w') (reads w') (lamp w)
               (console w ++ [console_error e])%list
               (alerts w
                ++ ["Gagal memproses pembayaran: " +:+ message e])%list
               false (closed w)) /\
    db w' !! tid = None).
  { unfold run, Part000.handleProcessPayment, bind, getLoading.
    rewrite Hidle. cbn [setLoading Date_now].
    unfold finally, tryCatch, bind.
    destruct cart as [|item0 rest] eqn:Hcart;
      [by apply elem_of_nil in Hin |].
    destruct (recordType_cons item0 rest) as [ty Hty]. rewrite Hty.
    unfold ret at 1. rewrite <- Hcart in *.
    match goal with
    | |- context [Part000.processCart tables customerName cart ?w0] =>
        destruct (processCart_quiet tables customerName cart w0)
          as (rs & w' & Hrun & Hl & Ha & Hc & Hk & Hnone & Hrej);
        rewrite Hrun
    end.
    destruct (Promise_all_rejected rs (NotFound tid) w') as [e He].
    { apply (Hrej tid tbl item Hin Htgt Hrow). exact Hgone. }
    rewrite He. exists e, w'. cbn in *.
    rewrite Hl, Ha, Hc, Hk. split; [reflexivity |]. by apply Hnone. }
  destruct Hshape as (e & w' & Hrun & Hnone).
  unfold alerted, result, exec. rewrite Hrun.
  cbn [fst snd db lamp alerts closed loading].
  split; [done |]. split; [by exists (message e) |].
  repeat (split; [done |]).
  intros tid' tbl' item' d pre post -> Hothers Htgt' Hrow' Hdoc.
  destruct (handleProcessPayment_item tables customerName tid' tbl' item' d
              pre post w Hothers Htgt' Hrow' Hdoc Hidle)
    as (p & w0 & w1 & Hclk0 & Hp & _ & Hdb & _).
  assert (Hclk' : clockAt now w0) by (intros n; rewrite Hclk0; apply Hclk).
  destruct (newData_at customerName now tbl' item' w0 Hclk')
    as (w1' & Hp' & _).
  rewrite Hp in Hp'. injection Hp' as -> _.
  unfold exec in Hdb. fold run in Hdb. rewrite Hrun in Hdb. exact Hdb.
Qed.

Lemma checkout_partial_failure_witness :
  let run := Part000.handleProcessPayment
               [Sample.rent "t1" 60; Sample.rent "t3" 60]
               (Sample.listing0 ++ [mkTable "t3" Sample.meja1]) "Ani" in
  alerted "Gagal memproses pembayaran: " run Sample.w0 /\
  (status <$> db (exec run Sample.w0) !! "t1") = Some (Some occupied).
Proof.
  destruct (checkout_partial_failure
              (Sample.listing0 ++ [mkTable "t3" Sample.meja1]) "Ani"
              [Sample.rent "t1" 60; Sample.rent "t3" 60] "t3"
              (mkTable "t3" Sample.meja1) (Sample.rent "t3" 60)
              (Sample.T0 + 600000) Sample.w0)
    as (_ & Halert & _ & _ & _ & _ & Hothers).
  - right. left.
  - reflexivity.
  - reflexivity.
  - reflexivity.
  - intros n. reflexivity.
  - reflexivity.
  - split; [exact Halert |].
    rewrite (Hothers "t1" (mkTable "t1" Sample.meja1) (Sample.rent "t1" 60)
               Sample.meja1 [] [Sample.rent "t3" 60] eq_refl).
    + reflexivity.
    + repeat constructor.
    + reflexivity.
    + reflexivity.
    + reflexivity.
Defined.

(** ** What the checkouts refuse *)

(** X23: the guards of the two checkouts.  The first screen does nothing at
    all while a payment is in progress, and on an empty cart reading the
    type of the sale fails: the failure is reported (one notice, which
    starts with 'Gagal memproses pembayaran: ') and nothing is written or
    closed.  The second screen does nothing without a session, refuses a
    cash payment below the total with a notice and no write, never refuses
    a QRIS payment for its amount, and accepts an empty cart as a
    successful sale that writes no table. *)
Theorem checkout_guards (products : gmap string (option Z))
    (cart : list CartItem) (tables : list Table)
    (customerName : string) (amountReceived : Z) (w : World) :
  (loading w = true ->
   Part000.handleProcessPayment cart tables customerName w = (Ok tt, w)) /\
  (loading w = false ->
   let w' := exec (Part000.handleProcessPayment [] tables customerName) w in
   db w' = db w /\ lamp w' = lamp w /\ closed w' = closed w /\
   alerted "Gagal memproses pembayaran: "
     (Part000.handleProcessPayment [] tables customerName) w) /\
  (forall paymentMethod,
     Part001.handleCheckout false products cart customerName paymentMethod
       amountReceived w = (Ok tt, w)) /\
  (amountReceived < Part001.cartTotal cart ->
   let w' := exec (Part001.handleCheckout true products cart customerName
                     Part001.cash amountReceived) w in
   db w' = db w /\ lamp w' = lamp w /\ closed w' = closed w /\
   loading w' = loading w /\
   alerts w' = (alerts w ++ ["Uang tunai kurang!"])%list) /\
  (let w' := exec (Part001.handleCheckout true products [] customerName
                     Part001.qris amountReceived) w in
   db w' = db w /\ closed w' = true /\
   alerts w' = (alerts w ++ ["Transaksi Berhasil!"])%list).
Proof.
  split; [| split; [| split; [| split]]].
  - intros Hld. unfold Part000.handleProcessPayment, bind, getLoading.
    by rewrite Hld.
  - intros Hidle.
    unfold alerted, exec, Part000.handleProcessPayment, bind, getLoading.
    rewrite Hidle. cbn. repeat (split; [done |]). by eexists.
  - done.
  - intros Hless. unfold exec, Part001.handleCheckout. cbn [negb].
    assert ((amountReceived - Part001.cartTotal cart <? 0) = true) as ->
      by (apply Z.ltb_lt; lia).
    done.
  - done.
Qed.

(** ** The auto-expiry check and a stale listing *)

(** X24: the auto-expiry check decides from the listing, not from the
    store.  A row the listing shows as run out is stopped in the store
    whatever the stored record says, also when a top-up has moved its end
    time into the future in the meantime; a stored rental that has run out
    but that no row of the listing shows as such is left as it is.  The
    check never commands a lamp. *)
Theorem autoExpiry_follows_listing (tables : list Table) (w : World)
    (t : Table) (d : TableData)
    (Hin : t ∈ tables)
    (Hexp : expired (clock w (reads w)) t = true)
    (Hdoc : db w !! id t = Some d) :
  let w' := exec (autoExpiryTick tables) w in
  (exists r, db w' !! id t = Some r /\
             status r = Some available /\ deleted (startTime r) /\
             deleted (endTime r) /\ deleted (currentCustomer r) /\
             duration r = Some 0 /\
             name r = name d /\ costPerHour r = costPerHour d) /\
  (forall k,
     (forall t', t' ∈ tables -> id t' = k ->
                 expired (clock w (reads w)) t' = false) ->
     db w' !! k = db w !! k) /\
  lamp w' = lamp w.
Proof.
  intros w'. unfold w'. split; [| split].
  - rewrite tick_lookup.
    assert (existsb (stops (clock w (reads w)) (id t)) tables = true) as ->.
    { apply stops_exists. by exists t. }
    rewrite Hdoc. eexists. split; [reflexivity |]. repeat split.
  - intros k Hnone. rewrite tick_lookup.
    destruct (existsb _ tables) eqn:Hex; [| done].
    apply stops_exists in Hex as (t' & Hin' & Hid' & Hexp').
    rewrite (Hnone t' Hin' Hid') in Hexp'. discriminate.
  - apply tick_frame.
Qed.

Lemma autoExpiry_follows_listing_witness :
  let toppedUp := applyPatch (topupPatch000 (Sample.rent "t2" 30)
                                (Sample.T0 + 3600000)
                                (mkTable "t2" Sample.meja2)) Sample.meja2 in
  let w := Sample.world (<["t2" := toppedUp]> Sample.store0)
             (Sample.T0 + 3600000) in
  endTime toppedUp = Some (Sample.T0 + 5400000) /\
  (status <$> db (exec (autoExpiryTick Sample.listing0) w) !! "t2")
    = Some (Some available).
Proof.
  split; [reflexivity |].
  destruct (autoExpiry_follows_listing Sample.listing0
              (Sample.world
                 (<["t2" := applyPatch (topupPatch000 (Sample.rent "t2" 30)
                                          (Sample.T0 + 3600000)
                                          (mkTable "t2" Sample.meja2))
                              Sample.meja2]> Sample.store0)
                 (Sample.T0 + 3600000))
              (mkTable "t2" Sample.meja2)
              (applyPatch (topupPatch000 (Sample.rent "t2" 30)
                             (Sample.T0 + 3600000)
                             (mkTable "t2" Sample.meja2)) Sample.meja2))
    as ((r & Hr & Hs & _) & _).
  - right. left.
  - reflexivity.
  - reflexivity.
  - cbv zeta. cbn [id] in Hr. rewrite Hr. simpl. by rewrite Hs.
Defined.

(** ** Table names that end in a number *)

Section NumberedNames.

Import Resolver.

Lemma string_app_assoc (a b c : string) : (a +:+ b) +:+ c = a +:+ (b +:+ c).
Proof.
  induction a as [|x a IH]; [done |].
  change (String x ((a +:+ b) +:+ c) = String x (a +:+ (b +:+ c))).
  by f_equal.
Qed.

Lemma string_app_nil_r (a : string) : a +:+ "" = a.
Proof.
  induction a as [|x a IH]; [done |].
  change (String x (a +:+ "") = String x a). by f_equal.
Qed.

Lemma numberFrom_app acc a b :
  numberFrom acc (a +:+ b) = numberFrom (numberFrom acc a) b.
Proof. revert acc. induction a as [|x a IH]; intros acc; simpl; [done | apply IH]. Qed.

Lemma allDigits_app a b :
  allDigits (a +:+ b) = allDigits a && allDigits b.
Proof.
  induction a as [|x a IH]; simpl; [done |].
  rewrite IH. by destruct (isDigit x).
Qed.

Lemma pretty_N_char_digit d :
  (d < 10)%N ->
  isDigit (pretty_N_char d) = true /\
  digitValue (pretty_N_char d) = Z.of_N d.
Proof.
  intros H.
  assert (d = 0 \/ d = 1 \/ d = 2 \/ d = 3 \/ d = 4 \/ d = 5 \/ d = 6 \/
          d = 7 \/ d = 8 \/ d = 9)%N as Hd by lia.
  repeat (destruct Hd as [-> | Hd]; [by vm_compute |]). subst. by vm_compute.
Qed.

Lemma pretty_N_go_app x s : pretty_N_go x s = pretty_N_go x "" +:+ s.
Proof.
  revert s. induction (N.lt_wf_0 x) as [x _ IH]; intros s.
  destruct (decide (x = 0)%N) as [-> | Hx].
  - by rewrite !pretty_N_go_0.
  - rewrite (pretty_N_go_step x s), (pretty_N_go_step x "") by lia.
    assert (x `div` 10 < x)%N as Hlt by (apply N.div_lt; lia).
    rewrite (IH _ Hlt (String _ s)), (IH _ Hlt (String _ "")).
    by rewrite string_app_assoc.
Qed.

Lemma pretty_N_go_number x :
  allDigits (pretty_N_go x "") = true /\
  numberFrom 0 (pretty_N_go x "") = Z.of_N x.
Proof.
  induction (N.lt_wf_0 x) as [x _ IH].
  destruct (decide (x = 0)%N) as [-> | Hx].
  - by rewrite pretty_N_go_0.
  - rewrite (pretty_N_go_step x "") by lia. rewrite pretty_N_go_app.
    assert (x `div` 10 < x)%N as Hlt by (apply N.div_lt; lia).
    destruct (IH _ Hlt) as [Hall Hnum].
    destruct (pretty_N_char_digit (x `mod` 10)) as [Hdig Hval].
    { apply N.mod_lt. lia. }
    rewrite allDigits_app, numberFrom_app, Hall, Hnum. simpl.
    rewrite Hdig, Hval. split; [done |].
    pose proof (N.div_mod x 10 ltac:(lia)). lia.
Qed.

Lemma pretty_Z_number n :
  0 <= n ->
  pretty n <> "" /\ allDigits (pretty n) = true /\ Number (pretty n) = n.
Proof.
  intros Hn. destruct n as [|p|p]; [by vm_compute | | lia].
  assert (pretty (Z.pos p) = pretty_N_go (N.pos p) "") as -> by reflexivity.
  destruct (pretty_N_go_number (N.pos p)) as [Hall Hnum].
  split; [| split; [exact Hall | exact Hnum]].
  intros Hempty. rewrite Hempty in Hnum. simpl in Hnum. lia.
Qed.

End NumberedNames.

(** X25: the lamp channel of a numbered table.  A name made of a text
    without digits, the decimal numeral of a number [n] from 0 to 2^53 (the
    numbers the conversion of the code reads exactly) and a rest that does
    not start with a digit resolves to channel [n] at every position of the
    listing: printing such a number into a name and resolving the name
    gives the number back. *)
Theorem numbered_name_channel (pre post : string) (n index : Z)
    (Hpre : Resolver.noDigit pre = true)
    (Hpost : Resolver.startsWithDigit post = false)
    (Hn : 0 <= n) (Hsafe : n <= 2 ^ 53) :
  deriveTableNumber (Some (pre +:+ pretty n +:+ post)) index = n.
Proof.
  destruct (pretty_Z_number n Hn) as (Hne & Hall & Hnum).
  unfold deriveTableNumber.
  assert (Hrun : Resolver.firstDigitRun (pre +:+ pretty n +:+ post) (pretty n)).
  { exists pre, post. done. }
  rewrite (firstDigitRun_nonempty _ _ Hrun), (firstDigitRun_match _ _ Hrun).
  exact Hnum.
Qed.

Lemma numbered_name_channel_witness :
  deriveTableNumber (Some "Meja 12 (VIP)") 0 = 12.
Proof.
  apply (numbered_name_channel "Meja " " (VIP)" 12 0);
    [reflexivity | reflexivity | lia | by apply Z.leb_le].
Defined.

(** ** The tables of a new store *)

Section NewStore.

Import Store.

Lemma createDefaultTables_run w :
  createDefaultTables w =
  (Ok tt,
   setDb (<["table-7" := defaultTable 7]>
            (<["table-6" := defaultTable 6]>
               (<["table-5" := defaultTable 5]>
                  (<["table-4" := defaultTable 4]>
                     (<["table-3" := defaultTable 3]>
                        (<["table-2" := defaultTable 2]>
                           (<["table-1" := defaultTable 1]> (db w)))))))) w).
Proof. reflexivity. Qed.

End NewStore.

(** X26: a new store gets seven tables, "Meja 1" to "Meja 7", all
    available and without rental data, and the lamp channel of table [i]
    is [i] wherever the listing puts it.  No other document changes and no
    lamp is commanded; for a store that exists no table is written. *)
Theorem initializeStore_default_tables (w : World) :
  let w' := exec (Store.initializeStore false) w in
  (forall i, 1 <= i <= 7 ->
     db w' !! Store.defaultKey i = Some (Store.defaultTable i) /\
     status (Store.defaultTable i) = Some available /\
     (forall now, expired now (mkTable (Store.defaultKey i)
                                       (Store.defaultTable i)) = false) /\
     (forall index,
        deriveTableNumber (name (Store.defaultTable i)) index = i)) /\
  (forall k, (forall i, 1 <= i <= 7 -> k <> Store.defaultKey i) ->
             db w' !! k = db w !! k) /\
  lamp w' = lamp w /\
  Store.initializeStore true w = (Ok tt, w).
Proof.
  intros w'. unfold w', exec, Store.initializeStore.
  rewrite createDefaultTables_run. unfold setDb. cbn [snd db lamp].
  split; [| split; [| done]].
  - intros i Hi. split; [| split; [done | split; [done |]]].
    + assert (i = 1 \/ i = 2 \/ i = 3 \/ i = 4 \/ i = 5 \/ i = 6 \/ i = 7)
        as Hcase by lia.
      repeat (destruct Hcase as [-> | Hcase];
              [repeat (rewrite lookup_insert_ne by done);
               by rewrite lookup_insert_eq |]).
      subst. by rewrite lookup_insert_eq.
    + intros index.
      destruct (pretty_Z_number i ltac:(lia)) as (Hne & Hall & Hnum).
      assert (Hrun : Resolver.firstDigitRun ("Meja " +:+ pretty i) (pretty i)).
      { exists "Meja ", "". by rewrite string_app_nil_r. }
      unfold deriveTableNumber. cbn [name Store.defaultTable].
      rewrite (firstDigitRun_nonempty _ _ Hrun), (firstDigitRun_match _ _ Hrun).
      exact Hnum.
  - intros k Hk.
    rewrite !lookup_insert_ne; [done | | | | | | |];
      intros <-; [by apply (Hk 1) | by apply (Hk 2) | by apply (Hk 3)
                 | by apply (Hk 4) | by apply (Hk 5) | by apply (Hk 6)
                 | by apply (Hk 7)].
Qed.

(** ** The end of a rental and the lamp *)

(** X27: how the lamp of a rental that has run out goes off.  The
    auto-expiry check stops the table in the store and commands no lamp;
    the delivery of the listing that shows its write makes the handler of
    the subscription send exactly one command, 'off' on the channel of that
    table, and the listing delivered agrees with the store. *)
Theorem expiry_then_listener_lamp_off (l1 l2 : list Table) (t : Table)
    (w : World)
    (Hids : NoDup (map id (l1 ++ t :: l2)))
    (Hsync : inSync (l1 ++ t :: l2) w)
    (Hexp : expired (clock w (reads w)) t = true)
    (Hrest : forall x : Table, x ∈ l1 \/ x ∈ l2 ->
                               expired (clock w (reads w)) x = false) :
  let prev := (l1 ++ t :: l2)%list in
  let latest := (l1 ++ mkTable (id t) (applyPatch expiryPatch t) :: l2)%list in
  let w1 := exec (autoExpiryTick prev) w in
  let w2 := exec (Listener.onTablesSnapshot prev latest) w1 in
  lamp w1 = lamp w /\
  inSync latest w1 /\
  result (Listener.onTablesSnapshot prev latest) w1 = Ok latest /\
  lamp w2 = (lamp w ++
             [TABLE_LAMP_URL (deriveTableNumber (name t) (Z.of_nat (length l1)))
                             off None])%list.
Proof.
  cbv zeta.
  pose proof (expired_occupied _ _ Hexp) as Hocc.
  destruct (tick_frame (l1 ++ t :: l2) w) as (Hlamp & _).
  split; [exact Hlamp |].
  assert (forall x : Table, x ∈ l1 \/ x ∈ l2 -> id x <> id t) as Hne.
  { intros x Hx E. rewrite map_app in Hids. simpl in Hids.
    apply NoDup_app in Hids as (_ & Hdis & Hnd2).
    apply NoDup_cons in Hnd2 as [Hnot _].
    destruct Hx as [Hx | Hx].
    - apply (Hdis (id t)); [rewrite <- E; apply list_elem_of_fmap; by exists x |].
      by left.
    - apply Hnot. rewrite <- E. apply list_elem_of_fmap. by exists x. }
  assert (Hstop : existsb (stops (clock w (reads w)) (id t)) (l1 ++ t :: l2)
                  = true).
  { apply stops_exists. exists t. split; [| done].
    apply elem_of_app. right. by left. }
  assert (Hkeep : forall x : Table, x ∈ l1 \/ x ∈ l2 ->
            existsb (stops (clock w (reads w)) (id x)) (l1 ++ t :: l2) = false).
  { intros x Hx.
    destruct (existsb (stops (clock w (reads w)) (id x)) (l1 ++ t :: l2))
      eqn:Hex; [| done].
    apply stops_exists in Hex as (y & Hy & Hid & Hexpy).
    apply elem_of_app in Hy as [Hy | Hy].
    - by rewrite (Hrest y (or_introl Hy)) in Hexpy.
    - apply elem_of_cons in Hy as [-> | Hy].
      + exfalso. apply (Hne x Hx). congruence.
      + by rewrite (Hrest y (or_intror Hy)) in Hexpy. }
  split.
  { intros x Hin. rewrite tick_lookup.
    apply elem_of_app in Hin as [Hin | Hin].
    - rewrite (Hkeep x (or_introl Hin)).
      apply Hsync. apply elem_of_app. by left.
    - apply elem_of_cons in Hin as [-> | Hin].
      + cbn [id data]. rewrite Hstop, (Hsync t); [done |].
        apply elem_of_app. right. by left.
      + rewrite (Hkeep x (or_intror Hin)).
        apply Hsync. apply elem_of_app. right. by right. }
  assert (forall w0,
            Listener.diffRows (l1 ++ t :: l2) 0
              (l1 ++ mkTable (id t) (applyPatch expiryPatch t) :: l2) w0
            = controlLamp (deriveTableNumber (name t) (Z.of_nat (length l1)))
                          off None w0) as Hrun.
  { intros w0. rewrite diffRows_app.
    rewrite diffRows_quiet
      by (apply sameStatuses_part; [done | intros; by left]).
    simpl. unfold bind, Listener.diffRow. simpl.
    rewrite (findTable_middle l1 l2 t Hids). rewrite Hocc. simpl.
    rewrite diffRows_quiet
      by (apply sameStatuses_part; [done | intros; by right]).
    done. }
  set (w1 := exec (autoExpiryTick (l1 ++ t :: l2)) w) in *.
  unfold result, exec, Listener.onTablesSnapshot, bind.
  rewrite !Hrun. unfold controlLamp. cbn [fst snd lamp]. by rewrite Hlamp.
Qed.

Lemma expiry_then_listener_lamp_off_witness :
  let w := Sample.world Sample.store0 (Sample.T0 + 3600000) in
  lamp (exec (Listener.onTablesSnapshot Sample.listing0
                [mkTable "t1" Sample.meja1;
                 mkTable "t2" (applyPatch expiryPatch Sample.meja2)])
          (exec (autoExpiryTick Sample.listing0) w))
  = [TABLE_LAMP_URL 2 off None].
Proof.
  destruct (expiry_then_listener_lamp_off [mkTable "t1" Sample.meja1] []
              (mkTable "t2" Sample.meja2)
              (Sample.world Sample.store0 (Sample.T0 + 3600000)))
    as (_ & _ & _ & H).
  - apply (bool_decide_unpack _). vm_compute. exact I.
  - intros x Hin. apply list_elem_of_In in Hin.
    destruct Hin as [<- | [<- | []]]; reflexivity.
  - reflexivity.
  - intros x [Hx | Hx].
    + apply list_elem_of_singleton in Hx as ->. reflexivity.
    + by apply elem_of_nil in Hx.
  - exact H.
Defined.

(** ** The second screen and the lamp *)

(** X28: the second screen and the lamp.  Its checkout never commands a
    lamp and never changes a table, whatever the cart and the payment: the
    store being as it was, the next delivery of the listing brings the rows
    of the last one and the handler of the subscription sends nothing
    either.  With a session, a payment that covers the total and a cart
    with a line that reads the store, the checkout ends in one notice that
    starts with 'Transaksi Gagal: ' and leaves the checkout dialog as it
    was. *)
Theorem second_screen_lamp (products : gmap string (option Z))
    (tables : list Table) (session : bool) (cart : list CartItem)
    (customerName : string) (paymentMethod : Part001.PaymentMethod)
    (amountReceived : Z) (w : World) :
  let run := Part001.handleCheckout session products cart customerName
               paymentMethod amountReceived in
  result run w = Ok tt /\
  lamp (exec run w) = lamp w /\
  db (exec run w) = db w /\
  (NoDup (map id tables) ->
   lamp (exec (Listener.onTablesSnapshot tables tables) (exec run w))
     = lamp w) /\
  (session = true -> paid paymentMethod amountReceived cart ->
   existsb readsStore cart = true ->
   alerted "Transaksi Gagal: " run w /\
   closed (exec run w) = closed w /\ loading (exec run w) = false).
Proof.
  intros run.
  destruct (handleCheckout_inert products customerName session cart
              paymentMethod amountReceived w) as (Hok & Hdb & Hlamp & _).
  fold run in Hok, Hdb, Hlamp.
  split; [exact Hok |]. split; [exact Hlamp |]. split; [exact Hdb |]. split.
  - intros Hids. set (w1 := exec run w) in *. clearbody w1.
    unfold exec, Listener.onTablesSnapshot, bind.
    rewrite diffRows_quiet; [exact Hlamp |].
    intros t Hin. exists t. split; [by apply findTable_self | done].
  - intros -> Hpaid Hreads.
    destruct (handleCheckout_fails products customerName cart paymentMethod
                amountReceived w Hpaid Hreads) as (Halert & Hclosed & Hld & _).
    by repeat split.
Qed.
